(** * Home Credit analytics core: synthetic generator, feature deriver,
      filter engine, statistics, KPI aggregator and histogram binning.

    Shallow embedding of [src/lib/synthetic-data.ts] and
    [src/lib/data-utils.ts] (both concatenated in
    [src/src/components/ui/navigation.tsx]).

    JavaScript numbers are embedded as exact rationals extended with
    [+Infinity], [-Infinity] and [NaN]: every finite double is a rational, and
    the special values follow the IEEE rules the code relies on (x/0, 0/0,
    comparisons with NaN).  Rounding error of binary floating point and the
    sign of zero are not part of the model. *)

From Stdlib Require Import ZArith QArith Qcanon Qround List String Ascii Bool.
From Stdlib Require Import Lia Lqa.
From Stdlib Require Import Sorting.Sorted Sorting.Permutation DecimalString.
Import ListNotations.

Local Open Scope Qc_scope.

(** ** Numbers *)

Module JS.

Inductive number : Type :=
| Num (q : Qc)
| PosInf
| NegInf
| NaN.

Definition of_Z (z : Z) : number := Num (Q2Qc (inject_Z z)).
Definition of_nat (n : nat) : number := of_Z (Z.of_nat n).
Definition dec (n : Z) (d : positive) : number := Num (Q2Qc (n # d)).

Definition is_finite (x : number) : bool :=
  match x with Num _ => true | _ => false end.

Definition Qc_ltb (a b : Qc) : bool :=
  match a ?= b with Lt => true | _ => false end.
Definition Qc_leb (a b : Qc) : bool :=
  match a ?= b with Gt => false | _ => true end.
Definition Qc_eqb (a b : Qc) : bool :=
  match a ?= b with Eq => true | _ => false end.

(** [x < y]; false as soon as one side is NaN. *)
Definition lt (x y : number) : bool :=
  match x, y with
  | NaN, _ | _, NaN => false
  | Num a, Num b => Qc_ltb a b
  | NegInf, NegInf => false
  | NegInf, _ => true
  | _, PosInf => match x with PosInf => false | _ => true end
  | _, _ => false
  end.

(** [x <= y]. *)
Definition le (x y : number) : bool :=
  match x, y with
  | NaN, _ | _, NaN => false
  | Num a, Num b => Qc_leb a b
  | NegInf, _ => true
  | _, PosInf => true
  | _, _ => false
  end.

Definition gt (x y : number) : bool := lt y x.
Definition ge (x y : number) : bool := le y x.

(** [x === y] on numbers. *)
Definition strict_eq (x y : number) : bool :=
  match x, y with
  | Num a, Num b => Qc_eqb a b
  | PosInf, PosInf | NegInf, NegInf => true
  | _, _ => false
  end.

(** ToBoolean on a number: [0] and [NaN] are falsy. *)
Definition truthy (x : number) : bool :=
  match x with
  | Num q => negb (Qc_eqb q 0)
  | NaN => false
  | _ => true
  end.

Definition neg (x : number) : number :=
  match x with
  | Num q => Num (- q)
  | PosInf => NegInf
  | NegInf => PosInf
  | NaN => NaN
  end.

Definition add (x y : number) : number :=
  match x, y with
  | NaN, _ | _, NaN => NaN
  | Num a, Num b => Num (a + b)
  | PosInf, NegInf | NegInf, PosInf => NaN
  | PosInf, _ | _, PosInf => PosInf
  | NegInf, _ | _, NegInf => NegInf
  end.

Definition sub (x y : number) : number := add x (neg y).

(** Sign of a number, used by the rules for infinite operands. *)
Definition sign (x : number) : comparison :=
  match x with
  | Num q => q ?= 0
  | PosInf => Gt
  | NegInf => Lt
  | NaN => Eq
  end.

Definition inf_of_sign (s t : comparison) : number :=
  match s, t with
  | Eq, _ | _, Eq => NaN
  | Gt, Gt | Lt, Lt => PosInf
  | _, _ => NegInf
  end.

Definition mul (x y : number) : number :=
  match x, y with
  | NaN, _ | _, NaN => NaN
  | Num a, Num b => Num (a * b)
  | _, _ => inf_of_sign (sign x) (sign y)
  end.

Definition div (x y : number) : number :=
  match x, y with
  | NaN, _ | _, NaN => NaN
  | Num a, Num b =>
      if Qc_eqb b 0 then inf_of_sign (a ?= 0) Gt else Num (a / b)
  | Num _, _ => Num 0
  | _, Num b => inf_of_sign (sign x) (if Qc_eqb b 0 then Gt else b ?= 0)
  | _, _ => NaN
  end.

(** [Math.floor]. *)
Definition Math_floor (x : number) : number :=
  match x with
  | Num q => of_Z (Qfloor q)
  | _ => x
  end.

(** [Math.round]: nearest integer, ties towards +Infinity. *)
Definition Math_round (x : number) : number :=
  match x with
  | Num q => of_Z (Qfloor (q + Q2Qc (1 # 2)))
  | _ => x
  end.

(** Binary [Math.min] / [Math.max]: NaN is contagious. *)
Definition min2 (x y : number) : number :=
  match x, y with
  | NaN, _ | _, NaN => NaN
  | _, _ => if lt y x then y else x
  end.

Definition max2 (x y : number) : number :=
  match x, y with
  | NaN, _ | _, NaN => NaN
  | _, _ => if lt x y then y else x
  end.

(** [Math.min(...values)] and [Math.max(...values)]; the empty call
    returns [+Infinity], respectively [-Infinity]. *)
Definition Math_min (values : list number) : number :=
  fold_left min2 values PosInf.
Definition Math_max (values : list number) : number :=
  fold_left max2 values NegInf.

(** [Number(x.toFixed(d))]: the decimal with [d] fraction digits nearest to
    [x], ties away from zero.  From 1e21 on [toFixed] prints the number
    itself, and non-finite values print as themselves. *)
Definition pow10 (d : nat) : Z := (10 ^ Z.of_nat d)%Z.

Definition round_half_away (q : Qc) : Z :=
  if Qc_ltb q 0 then (- Qfloor (- q + Q2Qc (1 # 2)))%Z
  else Qfloor (q + Q2Qc (1 # 2)).

Definition toFixed (x : number) (d : nat) : number :=
  match x with
  | Num q =>
      if Qc_leb (Q2Qc (inject_Z (pow10 21))) q
         || Qc_leb q (Q2Qc (inject_Z (- pow10 21)))
      then x
      else Num (Q2Qc (round_half_away (q * Q2Qc (inject_Z (pow10 d)))
                      # Z.to_pos (pow10 d)))
  | _ => x
  end.

(** [arr[i]] for a number [i]: defined only at an integer index inside the
    array, [undefined] otherwise. *)
Definition as_index (i : number) : option nat :=
  match i with
  | Num q =>
      if Qc_eqb (Q2Qc (inject_Z (Qfloor q))) q && (0 <=? Qfloor q)%Z
      then Some (Z.to_nat (Qfloor q)) else None
  | _ => None
  end.

Definition at_index {A} (arr : list A) (i : number) : option A :=
  match as_index i with
  | Some n => nth_error arr n
  | None => None
  end.

End JS.

Import JS.

Declare Scope js_scope.
Delimit Scope js_scope with js.
Infix "+" := add : js_scope.
Infix "-" := sub : js_scope.
Infix "*" := mul : js_scope.
Infix "/" := div : js_scope.
Infix "<?" := lt : js_scope.
Infix "<=?" := le : js_scope.
Infix ">?" := gt : js_scope.
Infix ">=?" := ge : js_scope.

Local Open Scope string_scope.

(** ** Record model ([HomeCreditRecord]) *)

Inductive target := T0 | T1.                 (* TARGET: 0 | 1 *)
Inductive gender := GenderM | GenderF | GenderXNA.
Inductive flag := FlagY | FlagN.
Inductive bracket := Low | Mid | High.

Definition target_number (t : target) : number :=
  match t with T0 => of_Z 0 | T1 => of_Z 1 end.
Definition gender_string (g : gender) : string :=
  match g with GenderM => "M" | GenderF => "F" | GenderXNA => "XNA" end.
Definition flag_string (f : flag) : string :=
  match f with FlagY => "Y" | FlagN => "N" end.
Definition bracket_string (b : bracket) : string :=
  match b with Low => "Low" | Mid => "Mid" | High => "High" end.

Definition target_eqb (a b : target) : bool :=
  match a, b with T0, T0 | T1, T1 => true | _, _ => false end.
Definition gender_eqb (a b : gender) : bool :=
  match a, b with
  | GenderM, GenderM | GenderF, GenderF | GenderXNA, GenderXNA => true
  | _, _ => false
  end.
Definition bracket_eqb (a b : bracket) : bool :=
  match a, b with
  | Low, Low | Mid, Mid | High, High => true
  | _, _ => false
  end.

(** Optional fields ([AGE_YEARS?] and the like) are [None] when the property
    is absent. *)
Record HomeCreditRecord := mkRecord {
  SK_ID_CURR : number;
  TARGET : target;
  CODE_GENDER : gender;
  DAYS_BIRTH : number;
  DAYS_EMPLOYED : number;
  NAME_FAMILY_STATUS : string;
  CNT_CHILDREN : number;
  CNT_FAM_MEMBERS : number;
  NAME_EDUCATION_TYPE : string;
  OCCUPATION_TYPE : string;
  NAME_HOUSING_TYPE : string;
  AMT_INCOME_TOTAL : number;
  AMT_CREDIT : number;
  AMT_ANNUITY : number;
  AMT_GOODS_PRICE : number;
  NAME_CONTRACT_TYPE : string;
  REGION_RATING_CLIENT : number;
  FLAG_OWN_CAR : flag;
  FLAG_OWN_REALTY : flag;
  AGE_YEARS : option number;
  EMPLOYMENT_YEARS : option number;
  DTI : option number;
  LOAN_TO_INCOME : option number;
  ANNUITY_TO_CREDIT : option number;
  INCOME_BRACKET : option bracket
}.

(** The nineteen raw fields of a record, as one tuple. *)
Definition raw_fields (r : HomeCreditRecord) :=
  (SK_ID_CURR r, TARGET r, CODE_GENDER r, DAYS_BIRTH r, DAYS_EMPLOYED r,
   NAME_FAMILY_STATUS r, CNT_CHILDREN r, CNT_FAM_MEMBERS r,
   NAME_EDUCATION_TYPE r, OCCUPATION_TYPE r, NAME_HOUSING_TYPE r,
   AMT_INCOME_TOTAL r, AMT_CREDIT r, AMT_ANNUITY r, AMT_GOODS_PRICE r,
   NAME_CONTRACT_TYPE r, REGION_RATING_CLIENT r, FLAG_OWN_CAR r,
   FLAG_OWN_REALTY r).

(** The five derived numeric fields written by [preprocessData]. *)
Definition derived_numeric (r : HomeCreditRecord) :=
  (AGE_YEARS r, EMPLOYMENT_YEARS r, DTI r, LOAN_TO_INCOME r,
   ANNUITY_TO_CREDIT r).

(** ** Synthetic generator *)

Definition educationTypes : list string :=
  [ "Secondary / secondary special"; "Higher education";
    "Incomplete higher"; "Lower secondary"; "Academic degree" ].

Definition familyStatusTypes : list string :=
  [ "Married"; "Single / not married"; "Civil marriage"; "Separated";
    "Widow" ].

Definition housingTypes : list string :=
  [ "House / apartment"; "With parents"; "Municipal apartment";
    "Rented apartment"; "Office apartment"; "Co-op apartment" ].

Definition occupationTypes : list string :=
  [ "Laborers"; "Core staff"; "Sales staff"; "Managers"; "Drivers";
    "High skill tech staff"; "Accountants"; "Medicine staff";
    "Security staff"; "Cooking staff"; "Cleaning staff";
    "Private service staff"; "Low-skill Laborers"; "Waiters/barmen staff";
    "Secretaries"; "Realty agents"; "HR staff"; "IT staff" ].

Definition contractTypes : list string := [ "Cash loans"; "Revolving loans" ].

Local Open Scope js_scope.

Definition baseline_risk : number := dec 8 100.

Definition getDefaultRiskByProfile
    (age income : number) (education : string) (employment : number)
  : number :=
  let baseRisk := baseline_risk in
  (* Age factor *)
  let baseRisk :=
    if age <? of_Z 25 then baseRisk * dec 15 10
    else if age <? of_Z 35 then baseRisk * dec 12 10
    else if age >? of_Z 65 then baseRisk * dec 13 10
    else baseRisk in
  (* Income factor *)
  let baseRisk :=
    if income <? of_Z 100000 then baseRisk * dec 20 10
    else if income <? of_Z 200000 then baseRisk * dec 14 10
    else if income >? of_Z 500000 then baseRisk * dec 6 10
    else baseRisk in
  (* Education factor *)
  let baseRisk :=
    if String.eqb education "Higher education"
       || String.eqb education "Academic degree"
    then baseRisk * dec 7 10
    else if String.eqb education "Lower secondary"
    then baseRisk * dec 14 10
    else baseRisk in
  (* Employment stability *)
  let baseRisk :=
    if employment <? of_Z 1 then baseRisk * dec 18 10
    else if employment >? of_Z 10 then baseRisk * dec 8 10
    else baseRisk in
  min2 (dec 5 10) baseRisk.

(** *** The randomness source

    [Math.random()] is the only effect of the generator.  A run is modelled
    against the sequence [random_source] of values the successive calls
    return (what a seed determines); the state threaded through the code is
    the number of calls made so far.  [None] stands for a [do ... while] loop
    that has not finished within its fuel.  The record count is a natural
    number (the default argument 10000 is the caller's business). *)

Definition Rand (A : Type) : Type := nat -> option (A * nat).

Definition ret {A} (a : A) : Rand A := fun i => Some (a, i).

Definition bind {A B} (m : Rand A) (k : A -> Rand B) : Rand B :=
  fun i => match m i with
           | Some (a, j) => k a j
           | None => None
           end.

Definition diverge {A} : Rand A := fun _ => None.

Notation "x <- m ;; k" := (bind m (fun x => k))
  (at level 61, m at next level, right associativity).

Section Generator.

(** [Math.exp] is a platform function. *)
Variable Math_exp : number -> number.

(** The values returned by the successive calls of [Math.random()]. *)
Variable random_source : nat -> Qc.

Definition Math_random : Rand number :=
  fun i => Some (Num (random_source i), S i).

Definition randomIncome : Rand number :=
  let mean := dec 115 10 in
  let stdDev := dec 8 10 in
  r1 <- Math_random ;;
  r2 <- Math_random ;;
  r3 <- Math_random ;;
  let normal := r1 * r2 * r3 in
  r4 <- Math_random ;;
  ret (Math_exp (mean + stdDev * (normal - dec 5 10) * of_Z 6)
       * (dec 5 10 + r4 * dec 5 10)).

(** The rejection loop of [randomAge]; [fuel] bounds its iterations. *)
Fixpoint randomAge_loop (fuel : nat) : Rand number :=
  match fuel with
  | O => diverge
  | S fuel' =>
      r1 <- Math_random ;;
      r2 <- Math_random ;;
      let age := of_Z 42 + of_Z 12 * (r1 + r2 - of_Z 1) in
      if (age <? of_Z 18) || (age >? of_Z 80)
      then randomAge_loop fuel'
      else ret age
  end.

Definition randomAge (fuel : nat) : Rand number :=
  age <- randomAge_loop fuel ;;
  ret (Math_round age).

Definition randomCredit (income : number) : Rand number :=
  r1 <- Math_random ;;
  let multiplier := of_Z 2 + r1 * of_Z 6 in
  r2 <- Math_random ;;
  ret (income * multiplier * (dec 8 10 + r2 * dec 4 10)).

(** [arr[Math.floor(Math.random() * arr.length)]].  The element is
    [undefined] only for an index outside the array, which no value of
    [Math.random()] in [0, 1) produces (see [pick_in_range]); the model
    writes the string "undefined" for it. *)
Definition pick (arr : list string) : Rand string :=
  r <- Math_random ;;
  ret (match at_index arr (Math_floor (r * of_nat (List.length arr))) with
       | Some s => s
       | None => "undefined"
       end).

(** One iteration of the loop of [generateSyntheticData]. *)
Definition generateRecord (fuel : nat) (i : nat) : Rand HomeCreditRecord :=
  age <- randomAge fuel ;;
  income <- randomIncome ;;
  education <- pick educationTypes ;;
  u <- Math_random ;;
  employment <-
    (if u >? dec 1 10
     then (v <- Math_random ;; ret (v * of_Z 25))
     else ret (of_Z (-1))) ;;
  let defaultRisk :=
    getDefaultRiskByProfile age income education employment in
  t <- Math_random ;;
  let target := if t <? defaultRisk then T1 else T0 in
  credit <- randomCredit income ;;
  a <- Math_random ;;
  let annuity := credit * (dec 5 100 + a * dec 15 100) / of_Z 12 in
  g1 <- Math_random ;;
  code_gender <-
    (if g1 >? dec 65 100 then ret GenderF
     else (g2 <- Math_random ;;
           ret (if g2 >? dec 95 100 then GenderXNA else GenderM))) ;;
  family <- pick familyStatusTypes ;;
  c1 <- Math_random ;;
  children <-
    (if c1 >? dec 4 10 then ret (of_Z 0)
     else (c2 <- Math_random ;; ret (Math_floor (c2 * of_Z 4)))) ;;
  f <- Math_random ;;
  o1 <- Math_random ;;
  occupation <-
    (if o1 >? dec 5 100 then pick occupationTypes else ret "") ;;
  housing <- pick housingTypes ;;
  gp <- Math_random ;;
  contract <- pick contractTypes ;;
  rr <- Math_random ;;
  car <- Math_random ;;
  realty <- Math_random ;;
  ret {|
    SK_ID_CURR := of_Z 100000 + of_nat i;
    TARGET := target;
    CODE_GENDER := code_gender;
    DAYS_BIRTH := neg (Math_round (age * dec 36525 100));
    DAYS_EMPLOYED :=
      if employment >? of_Z 0
      then neg (Math_round (employment * dec 36525 100))
      else of_Z 365243;
    NAME_FAMILY_STATUS := family;
    CNT_CHILDREN := children;
    CNT_FAM_MEMBERS := of_Z 1 + Math_floor (f * of_Z 5);
    NAME_EDUCATION_TYPE := education;
    OCCUPATION_TYPE := occupation;
    NAME_HOUSING_TYPE := housing;
    AMT_INCOME_TOTAL := Math_round income;
    AMT_CREDIT := Math_round credit;
    AMT_ANNUITY := Math_round annuity;
    AMT_GOODS_PRICE := Math_round (credit * (dec 8 10 + gp * dec 4 10));
    NAME_CONTRACT_TYPE := contract;
    REGION_RATING_CLIENT := of_Z 1 + Math_floor (rr * of_Z 3);
    FLAG_OWN_CAR := if car >? dec 5 10 then FlagY else FlagN;
    FLAG_OWN_REALTY := if realty >? dec 3 10 then FlagY else FlagN;
    AGE_YEARS := None;
    EMPLOYMENT_YEARS := None;
    DTI := None;
    LOAN_TO_INCOME := None;
    ANNUITY_TO_CREDIT := None;
    INCOME_BRACKET := None
  |}.

(** [for (let i = 0; i < numRecords; i++) { ...; records.push(record) }],
    with [todo] iterations left. *)
Fixpoint generateLoop (fuel todo i : nat) (records : list HomeCreditRecord)
  : Rand (list HomeCreditRecord) :=
  match todo with
  | O => ret records
  | S todo' =>
      record <- generateRecord fuel i ;;
      generateLoop fuel todo' (S i) (records ++ [record])
  end.

Definition generateSyntheticData (fuel numRecords : nat)
  : Rand (list HomeCreditRecord) :=
  generateLoop fuel numRecords 0 [].

End Generator.

(** ** Arrays *)

(** [arr.sort(compare)]: a stable sort; [x] stays in front of [y] unless the
    comparator is positive on [(x, y)] (a NaN comparison counts as 0). *)
Section Sort.
Context {A : Type} (compare : A -> A -> number).

Fixpoint sort_insert (x : A) (l : list A) : list A :=
  match l with
  | [] => [x]
  | y :: l' =>
      if compare x y >? of_Z 0 then y :: sort_insert x l' else x :: l
  end.

Fixpoint Array_sort (l : list A) : list A :=
  match l with
  | [] => []
  | x :: l' => sort_insert x (Array_sort l')
  end.
End Sort.

(** [(a, b) => a - b] *)
Definition ascending (a b : number) : number := a - b.

(** A possibly [undefined] number used as an operand: [undefined] converts
    to NaN. *)
Definition to_number (o : option number) : number :=
  match o with Some v => v | None => NaN end.

(** ** Feature deriver *)

Definition preprocessRecord (record : HomeCreditRecord) : HomeCreditRecord :=
  let ageYears := neg (DAYS_BIRTH record) / dec 36525 100 in
  let employmentYears :=
    if strict_eq (DAYS_EMPLOYED record) (of_Z 365243) then of_Z 0
    else neg (DAYS_EMPLOYED record) / dec 36525 100 in
  let dti := AMT_ANNUITY record / AMT_INCOME_TOTAL record in
  let lti := AMT_CREDIT record / AMT_INCOME_TOTAL record in
  let annuityToCredit := AMT_ANNUITY record / AMT_CREDIT record in
  {| SK_ID_CURR := SK_ID_CURR record;
     TARGET := TARGET record;
     CODE_GENDER := CODE_GENDER record;
     DAYS_BIRTH := DAYS_BIRTH record;
     DAYS_EMPLOYED := DAYS_EMPLOYED record;
     NAME_FAMILY_STATUS := NAME_FAMILY_STATUS record;
     CNT_CHILDREN := CNT_CHILDREN record;
     CNT_FAM_MEMBERS := CNT_FAM_MEMBERS record;
     NAME_EDUCATION_TYPE := NAME_EDUCATION_TYPE record;
     OCCUPATION_TYPE := OCCUPATION_TYPE record;
     NAME_HOUSING_TYPE := NAME_HOUSING_TYPE record;
     AMT_INCOME_TOTAL := AMT_INCOME_TOTAL record;
     AMT_CREDIT := AMT_CREDIT record;
     AMT_ANNUITY := AMT_ANNUITY record;
     AMT_GOODS_PRICE := AMT_GOODS_PRICE record;
     NAME_CONTRACT_TYPE := NAME_CONTRACT_TYPE record;
     REGION_RATING_CLIENT := REGION_RATING_CLIENT record;
     FLAG_OWN_CAR := FLAG_OWN_CAR record;
     FLAG_OWN_REALTY := FLAG_OWN_REALTY record;
     AGE_YEARS := Some (Math_round (ageYears * of_Z 10) / of_Z 10);
     EMPLOYMENT_YEARS :=
       Some (max2 (of_Z 0) (Math_round (employmentYears * of_Z 10) / of_Z 10));
     DTI := Some (Math_round (dti * of_Z 1000) / of_Z 1000);
     LOAN_TO_INCOME := Some (Math_round (lti * of_Z 100) / of_Z 100);
     ANNUITY_TO_CREDIT :=
       Some (Math_round (annuityToCredit * of_Z 1000) / of_Z 1000);
     INCOME_BRACKET := INCOME_BRACKET record |}.

Definition preprocessData (records : list HomeCreditRecord)
  : list HomeCreditRecord :=
  map preprocessRecord records.

(** [{ ...record, INCOME_BRACKET: b }] *)
Definition with_INCOME_BRACKET (record : HomeCreditRecord) (b : bracket)
  : HomeCreditRecord :=
  {| SK_ID_CURR := SK_ID_CURR record;
     TARGET := TARGET record;
     CODE_GENDER := CODE_GENDER record;
     DAYS_BIRTH := DAYS_BIRTH record;
     DAYS_EMPLOYED := DAYS_EMPLOYED record;
     NAME_FAMILY_STATUS := NAME_FAMILY_STATUS record;
     CNT_CHILDREN := CNT_CHILDREN record;
     CNT_FAM_MEMBERS := CNT_FAM_MEMBERS record;
     NAME_EDUCATION_TYPE := NAME_EDUCATION_TYPE record;
     OCCUPATION_TYPE := OCCUPATION_TYPE record;
     NAME_HOUSING_TYPE := NAME_HOUSING_TYPE record;
     AMT_INCOME_TOTAL := AMT_INCOME_TOTAL record;
     AMT_CREDIT := AMT_CREDIT record;
     AMT_ANNUITY := AMT_ANNUITY record;
     AMT_GOODS_PRICE := AMT_GOODS_PRICE record;
     NAME_CONTRACT_TYPE := NAME_CONTRACT_TYPE record;
     REGION_RATING_CLIENT := REGION_RATING_CLIENT record;
     FLAG_OWN_CAR := FLAG_OWN_CAR record;
     FLAG_OWN_REALTY := FLAG_OWN_REALTY record;
     AGE_YEARS := AGE_YEARS record;
     EMPLOYMENT_YEARS := EMPLOYMENT_YEARS record;
     DTI := DTI record;
     LOAN_TO_INCOME := LOAN_TO_INCOME record;
     ANNUITY_TO_CREDIT := ANNUITY_TO_CREDIT record;
     INCOME_BRACKET := Some b |}.

(** The label given to [income] against the quartile values [q1], [q3]
    (each [undefined] when the collection is empty). *)
Definition bracket_of (q1 q3 : option number) (income : number) : bracket :=
  if income <=? to_number q1 then Low
  else if income >=? to_number q3 then High
  else Mid.

Definition addIncomeBrackets (records : list HomeCreditRecord)
  : list HomeCreditRecord :=
  let incomes := Array_sort ascending (map AMT_INCOME_TOTAL records) in
  let q1 :=
    at_index incomes (Math_floor (of_nat (List.length incomes) * dec 25 100)) in
  let q3 :=
    at_index incomes (Math_floor (of_nat (List.length incomes) * dec 75 100)) in
  map (fun record =>
         with_INCOME_BRACKET record
           (bracket_of q1 q3 (AMT_INCOME_TOTAL record)))
      records.

Definition generateCompleteDataset
    (Math_exp : number -> number) (random_source : nat -> Qc)
    (fuel numRecords : nat) : Rand (list HomeCreditRecord) :=
  raw <- generateSyntheticData Math_exp random_source fuel numRecords ;;
  let processed := preprocessData raw in
  ret (addIncomeBrackets processed).

(** ** Filter engine *)

Record FilterState := mkFilter {
  f_gender : list string;
  f_education : list string;
  f_familyStatus : list string;
  f_housingType : list string;
  f_ageRange : number * number;
  f_incomeBracket : string;
  f_employmentRange : number * number
}.

(** [arr.includes(s)] on strings. *)
Definition includes (arr : list string) (s : string) : bool :=
  existsb (String.eqb s) arr.

(** What [bracketMap[key]] evaluates to: one of the three labels, a member
    inherited from [Object.prototype], or [undefined]. *)
Inductive bracketMap_value :=
| MapLabel (b : bracket)
| MapInherited
| MapUndefined.

Definition object_prototype_keys : list string :=
  [ "constructor"; "hasOwnProperty"; "isPrototypeOf";
    "propertyIsEnumerable"; "toLocaleString"; "toString"; "valueOf";
    "__proto__"; "__defineGetter__"; "__defineSetter__";
    "__lookupGetter__"; "__lookupSetter__" ].

Definition bracketMap (key : string) : bracketMap_value :=
  if String.eqb key "low" then MapLabel Low
  else if String.eqb key "mid" then MapLabel Mid
  else if String.eqb key "high" then MapLabel High
  else if includes object_prototype_keys key then MapInherited
  else MapUndefined.

(** [record.INCOME_BRACKET !== bracketMap[key]] *)
Definition bracket_differs (b : option bracket) (v : bracketMap_value) : bool :=
  match b, v with
  | Some x, MapLabel y => negb (bracket_eqb x y)
  | None, MapUndefined => false
  | _, _ => true
  end.

(** [v && (v < range[0] || v > range[1])] for an optional numeric field. *)
Definition outside_range (v : option number) (range : number * number) : bool :=
  match v with
  | Some x => truthy x && ((x <? fst range) || (x >? snd range))
  | None => false
  end.

(** The callback of [data.filter] in [applyFilters]. *)
Definition keepRecord (filters : FilterState) (record : HomeCreditRecord)
  : bool :=
  (* Gender filter *)
  if (0 <? List.length (f_gender filters))%nat
     && negb (includes (f_gender filters) (gender_string (CODE_GENDER record)))
  then false
  (* Education filter *)
  else if (0 <? List.length (f_education filters))%nat
       && negb (includes (f_education filters) (NAME_EDUCATION_TYPE record))
  then false
  (* Family status filter *)
  else if (0 <? List.length (f_familyStatus filters))%nat
       && negb (includes (f_familyStatus filters) (NAME_FAMILY_STATUS record))
  then false
  (* Housing type filter *)
  else if (0 <? List.length (f_housingType filters))%nat
       && negb (includes (f_housingType filters) (NAME_HOUSING_TYPE record))
  then false
  (* Age range filter *)
  else if outside_range (AGE_YEARS record) (f_ageRange filters)
  then false
  (* Income bracket filter *)
  else if negb (String.eqb (f_incomeBracket filters) "all")
       && bracket_differs (INCOME_BRACKET record)
            (bracketMap (f_incomeBracket filters))
  then false
  (* Employment range filter *)
  else if outside_range (EMPLOYMENT_YEARS record) (f_employmentRange filters)
  then false
  else true.

Definition applyFilters (data : list HomeCreditRecord) (filters : FilterState)
  : list HomeCreditRecord :=
  filter (keepRecord filters) data.

(** ** Statistics *)

(** [values.reduce((sum, val) => sum + val, 0)] *)
Definition sum (values : list number) : number :=
  fold_left add values (of_Z 0).

(** [null] is [None]. *)
Definition mean (values : list number) : option number :=
  if (List.length values =? 0)%nat then None
  else Some (sum values / of_nat (List.length values)).

Definition median (values : list number) : option number :=
  if (List.length values =? 0)%nat then None
  else
    let sorted := Array_sort ascending values in
    let mid := Math_floor (of_nat (List.length sorted) / of_Z 2) in
    if Nat.even (List.length sorted)
    then Some ((to_number (at_index sorted (mid - of_Z 1))
                + to_number (at_index sorted mid)) / of_Z 2)
    else Some (to_number (at_index sorted mid)).

(** ** KPI aggregator *)

(** [Object.keys(record).length]: the nineteen raw fields and the derived
    fields that are present. *)
Definition present {A} (o : option A) : nat :=
  match o with Some _ => 1%nat | None => 0%nat end.

Definition count_keys (record : HomeCreditRecord) : nat :=
  (19 + present (AGE_YEARS record) + present (EMPLOYMENT_YEARS record)
   + present (DTI record) + present (LOAN_TO_INCOME record)
   + present (ANNUITY_TO_CREDIT record) + present (INCOME_BRACKET record))%nat.

(** [Number(x?.toFixed(d) || 0)] for [x : number | null]; the string that
    [toFixed] returns is never empty. *)
Definition fixed_or_0 (x : option number) (d : nat) : number :=
  match x with
  | Some v => toFixed v d
  | None => of_Z 0
  end.

(** [null] used as an operand converts to 0. *)
Definition null_to_number (x : option number) : number :=
  match x with Some v => v | None => of_Z 0 end.

(** ToBoolean of an optional numeric field. *)
Definition present_truthy (o : option number) : bool :=
  match o with Some v => truthy v | None => false end.

(** A JavaScript object with numeric values, in insertion order. *)
Definition object := list (string * number).

Definition get (o : object) (key : string) : option number :=
  match find (fun kv => String.eqb (fst kv) key) o with
  | Some kv => Some (snd kv)
  | None => None
  end.

Definition calculateKPIs (data : list HomeCreditRecord) : object :=
  if (List.length data =? 0)%nat then []
  else
    let totalApplicants := of_nat (List.length data) in
    let totalDefaults :=
      of_nat (List.length (filter (fun r => target_eqb (TARGET r) T1) data)) in
    let defaultRate := totalDefaults / totalApplicants * of_Z 100 in
    let repaidRate := of_Z 100 - defaultRate in

    let ages :=
      map (fun r => to_number (AGE_YEARS r))
          (filter (fun r => present_truthy (AGE_YEARS r)) data) in
    let incomes := map AMT_INCOME_TOTAL data in
    let credits := map AMT_CREDIT data in
    let annuities :=
      map AMT_ANNUITY (filter (fun r => truthy (AMT_ANNUITY r)) data) in

    let medianAge := median ages in
    let medianIncome := median incomes in
    let avgCredit := mean credits in
    let avgAnnuity := mean annuities in

    let totalFeatures :=
      of_nat (match data with r :: _ => count_keys r | [] => 0%nat end) in
    let numericalFeatures := of_nat 6 in
    let categoricalFeatures := totalFeatures - numericalFeatures in

    let dtiValues :=
      map (fun r => to_number (DTI r))
          (filter (fun r => present_truthy (DTI r)
                            && (to_number (DTI r) >? of_Z 0)) data) in
    let ltiValues :=
      map (fun r => to_number (LOAN_TO_INCOME r))
          (filter (fun r => present_truthy (LOAN_TO_INCOME r)
                            && (to_number (LOAN_TO_INCOME r) >? of_Z 0))
                  data) in
    let avgDTI := mean dtiValues in
    let avgLTI := mean ltiValues in

    let maleCount :=
      of_nat (List.length
                (filter (fun r => gender_eqb (CODE_GENDER r) GenderM) data)) in
    let femaleCount :=
      of_nat (List.length
                (filter (fun r => gender_eqb (CODE_GENDER r) GenderF) data)) in
    let withChildrenCount :=
      of_nat (List.length
                (filter (fun r => CNT_CHILDREN r >? of_Z 0) data)) in

    let defaulterIncomes :=
      map AMT_INCOME_TOTAL
          (filter (fun r => target_eqb (TARGET r) T1) data) in
    let nonDefaulterIncomes :=
      map AMT_INCOME_TOTAL
          (filter (fun r => target_eqb (TARGET r) T0) data) in
    let avgIncomeDefaulters := mean defaulterIncomes in
    let avgIncomeNonDefaulters := mean nonDefaulterIncomes in
    [ ("totalApplicants", totalApplicants);
      ("defaultRate", toFixed defaultRate 2);
      ("repaidRate", toFixed repaidRate 2);
      ("totalFeatures", totalFeatures);
      ("numericalFeatures", numericalFeatures);
      ("categoricalFeatures", categoricalFeatures);
      ("medianAge", fixed_or_0 medianAge 1);
      ("medianIncome", fixed_or_0 medianIncome 0);
      ("avgCredit", fixed_or_0 avgCredit 0);
      ("totalDefaults", totalDefaults);
      ("avgIncomeDefaulters", fixed_or_0 avgIncomeDefaulters 0);
      ("avgIncomeNonDefaulters", fixed_or_0 avgIncomeNonDefaulters 0);
      ("incomeGap",
        toFixed (null_to_number avgIncomeNonDefaulters
                 - null_to_number avgIncomeDefaulters) 0);
      ("malePercentage",
        toFixed (maleCount / totalApplicants * of_Z 100) 1);
      ("femalePercentage",
        toFixed (femaleCount / totalApplicants * of_Z 100) 1);
      ("withChildrenPercentage",
        toFixed (withChildrenCount / totalApplicants * of_Z 100) 1);
      ("avgFamilySize", fixed_or_0 (mean (map CNT_FAM_MEMBERS data)) 1);
      ("avgIncome", fixed_or_0 (mean incomes) 0);
      ("avgAnnuity", fixed_or_0 avgAnnuity 0);
      ("avgDTI", fixed_or_0 avgDTI 3);
      ("avgLTI", fixed_or_0 avgLTI 2);
      ("highCreditPercentage",
        toFixed
          (of_nat (List.length
                     (filter (fun r => AMT_CREDIT r >? of_Z 1000000) data))
           / totalApplicants * of_Z 100) 1) ].

(** The metric names of the summary built for a non-empty collection. *)
Definition kpi_names : list string :=
  [ "totalApplicants"; "defaultRate"; "repaidRate"; "totalFeatures";
    "numericalFeatures"; "categoricalFeatures"; "medianAge"; "medianIncome";
    "avgCredit"; "totalDefaults"; "avgIncomeDefaulters";
    "avgIncomeNonDefaulters"; "incomeGap"; "malePercentage";
    "femalePercentage"; "withChildrenPercentage"; "avgFamilySize";
    "avgIncome"; "avgAnnuity"; "avgDTI"; "avgLTI"; "highCreditPercentage" ].

(** ** Histogram binning *)

(** A call either returns or throws a [TypeError] (reading a property of
    [undefined]). *)
Inductive result (A : Type) : Type :=
| Ok (a : A)
| TypeError.
Arguments Ok {A} a.
Arguments TypeError {A}.

Record Bin := mkBin {
  bin_range : string;
  bin_count : nat;
  bin_min : number;
  bin_max : number
}.

(** [bins[i].count++] on a defined element. *)
Definition increment (b : Bin) : Bin :=
  {| bin_range := bin_range b; bin_count := S (bin_count b);
     bin_min := bin_min b; bin_max := bin_max b |}.

Fixpoint update_nth {A} (n : nat) (f : A -> A) (l : list A) : list A :=
  match l, n with
  | [], _ => []
  | x :: l', O => f x :: l'
  | x :: l', S n' => x :: update_nth n' f l'
  end.

Section Bins.

(** Conversion of a number to a string in a template literal. *)
Variable number_to_string : number -> string.

Definition make_bin (min binSize : number) (i : nat) : Bin :=
  {| bin_range :=
       number_to_string (Math_round (min + of_nat i * binSize))
       ++ "-"
       ++ number_to_string (Math_round (min + (of_nat i + of_Z 1) * binSize));
     bin_count := 0;
     bin_min := min + of_nat i * binSize;
     bin_max := min + (of_nat i + of_Z 1) * binSize |}.

(** The body of [values.forEach]; an exception ends the loop. *)
Definition count_value (min binSize : number) (numBins : nat)
    (acc : result (list Bin)) (value : number) : result (list Bin) :=
  match acc with
  | TypeError => TypeError
  | Ok bins =>
      let binIndex :=
        min2 (Math_floor ((value - min) / binSize))
             (of_nat numBins - of_Z 1) in
      match as_index binIndex with
      | Some n =>
          if (n <? List.length bins)%nat
          then Ok (update_nth n increment bins)
          else TypeError
      | None => TypeError
      end
  end.

Definition createBins (values : list number) (numBins : nat)
  : result (list Bin) :=
  let min := Math_min values in
  let max := Math_max values in
  let binSize := (max - min) / of_nat numBins in
  let bins := map (make_bin min binSize) (seq 0 numBins) in
  fold_left (count_value min binSize numBins) values (Ok bins).

End Bins.

(** ** Pearson correlation *)

(** The value of [record[field]]. *)
Inductive value :=
| VNumber (n : number)
| VString (s : string)
| VUndefined.

Definition optional_number (o : option number) : value :=
  match o with Some n => VNumber n | None => VUndefined end.

Definition field_value (r : HomeCreditRecord) (field : string) : value :=
  if String.eqb field "SK_ID_CURR" then VNumber (SK_ID_CURR r)
  else if String.eqb field "TARGET" then VNumber (target_number (TARGET r))
  else if String.eqb field "CODE_GENDER"
  then VString (gender_string (CODE_GENDER r))
  else if String.eqb field "DAYS_BIRTH" then VNumber (DAYS_BIRTH r)
  else if String.eqb field "DAYS_EMPLOYED" then VNumber (DAYS_EMPLOYED r)
  else if String.eqb field "NAME_FAMILY_STATUS"
  then VString (NAME_FAMILY_STATUS r)
  else if String.eqb field "CNT_CHILDREN" then VNumber (CNT_CHILDREN r)
  else if String.eqb field "CNT_FAM_MEMBERS" then VNumber (CNT_FAM_MEMBERS r)
  else if String.eqb field "NAME_EDUCATION_TYPE"
  then VString (NAME_EDUCATION_TYPE r)
  else if String.eqb field "OCCUPATION_TYPE" then VString (OCCUPATION_TYPE r)
  else if String.eqb field "NAME_HOUSING_TYPE"
  then VString (NAME_HOUSING_TYPE r)
  else if String.eqb field "AMT_INCOME_TOTAL"
  then VNumber (AMT_INCOME_TOTAL r)
  else if String.eqb field "AMT_CREDIT" then VNumber (AMT_CREDIT r)
  else if String.eqb field "AMT_ANNUITY" then VNumber (AMT_ANNUITY r)
  else if String.eqb field "AMT_GOODS_PRICE" then VNumber (AMT_GOODS_PRICE r)
  else if String.eqb field "NAME_CONTRACT_TYPE"
  then VString (NAME_CONTRACT_TYPE r)
  else if String.eqb field "REGION_RATING_CLIENT"
  then VNumber (REGION_RATING_CLIENT r)
  else if String.eqb field "FLAG_OWN_CAR"
  then VString (flag_string (FLAG_OWN_CAR r))
  else if String.eqb field "FLAG_OWN_REALTY"
  then VString (flag_string (FLAG_OWN_REALTY r))
  else if String.eqb field "AGE_YEARS" then optional_number (AGE_YEARS r)
  else if String.eqb field "EMPLOYMENT_YEARS"
  then optional_number (EMPLOYMENT_YEARS r)
  else if String.eqb field "DTI" then optional_number (DTI r)
  else if String.eqb field "LOAN_TO_INCOME"
  then optional_number (LOAN_TO_INCOME r)
  else if String.eqb field "ANNUITY_TO_CREDIT"
  then optional_number (ANNUITY_TO_CREDIT r)
  else if String.eqb field "INCOME_BRACKET"
  then match INCOME_BRACKET r with
       | Some b => VString (bracket_string b)
       | None => VUndefined
       end
  else VUndefined.

(** [v != null] *)
Definition not_nullish (v : value) : bool :=
  match v with VUndefined => false | _ => true end.

(** The fields [calculateCorrelations] passes to
    [calculatePearsonCorrelation]. *)
Definition numericalFields : list string :=
  [ "AGE_YEARS"; "EMPLOYMENT_YEARS"; "AMT_INCOME_TOTAL"; "AMT_CREDIT";
    "AMT_ANNUITY"; "DTI"; "LOAN_TO_INCOME"; "CNT_CHILDREN";
    "CNT_FAM_MEMBERS"; "TARGET" ].

Section Correlation.

(** [Math.sqrt] and the conversion of a string by [Number(...)] are
    platform functions. *)
Variable Math_sqrt : number -> number.
Variable Number_of_string : string -> number.

Definition Number_ (v : value) : number :=
  match v with
  | VNumber n => n
  | VString s => Number_of_string s
  | VUndefined => NaN
  end.

Definition valid_pairs (data : list HomeCreditRecord) (field1 field2 : string)
  : list (number * number) :=
  map (fun r => (Number_ (field_value r field1),
                 Number_ (field_value r field2)))
      (filter (fun r => not_nullish (field_value r field1)
                        && not_nullish (field_value r field2)) data).

Definition pearson_numerator (pairs : list (number * number)) : number :=
  let n := of_nat (List.length pairs) in
  let sumX := fold_left (fun sum p => sum + fst p) pairs (of_Z 0) in
  let sumY := fold_left (fun sum p => sum + snd p) pairs (of_Z 0) in
  let sumXY := fold_left (fun sum p => sum + fst p * snd p) pairs (of_Z 0) in
  n * sumXY - sumX * sumY.

Definition pearson_denominator (pairs : list (number * number)) : number :=
  let n := of_nat (List.length pairs) in
  let sumX := fold_left (fun sum p => sum + fst p) pairs (of_Z 0) in
  let sumY := fold_left (fun sum p => sum + snd p) pairs (of_Z 0) in
  let sumXX := fold_left (fun sum p => sum + fst p * fst p) pairs (of_Z 0) in
  let sumYY := fold_left (fun sum p => sum + snd p * snd p) pairs (of_Z 0) in
  Math_sqrt ((n * sumXX - sumX * sumX) * (n * sumYY - sumY * sumY)).

Definition calculatePearsonCorrelation
    (data : list HomeCreditRecord) (field1 field2 : string) : number :=
  let pairs := valid_pairs data field1 field2 in
  if (List.length pairs <? 2)%nat then of_Z 0
  else
    let numerator := pearson_numerator pairs in
    let denominator := pearson_denominator pairs in
    if strict_eq denominator (of_Z 0) then of_Z 0
    else numerator / denominator.

(** [calculateCorrelations]: the matrix over [numericalFields], row by
    row. *)
Definition calculateCorrelations (data : list HomeCreditRecord)
  : list (string * list (string * number)) :=
  map (fun field1 =>
         (field1,
          map (fun field2 =>
                 (field2, calculatePearsonCorrelation data field1 field2))
              numericalFields))
      numericalFields.

End Correlation.

(** ** Filter specifications used in the statements *)

(** [{ ...filters, ageRange: range }] and
    [{ ...filters, employmentRange: range }]. *)
Definition with_ageRange (filters : FilterState) (range : number * number)
  : FilterState :=
  {| f_gender := f_gender filters;
     f_education := f_education filters;
     f_familyStatus := f_familyStatus filters;
     f_housingType := f_housingType filters;
     f_ageRange := range;
     f_incomeBracket := f_incomeBracket filters;
     f_employmentRange := f_employmentRange filters |}.

Definition with_employmentRange (filters : FilterState)
    (range : number * number) : FilterState :=
  {| f_gender := f_gender filters;
     f_education := f_education filters;
     f_familyStatus := f_familyStatus filters;
     f_housingType := f_housingType filters;
     f_ageRange := f_ageRange filters;
     f_incomeBracket := f_incomeBracket filters;
     f_employmentRange := range |}.

(** [lo <= v <= hi] *)
Definition in_range (range : number * number) (v : number) : bool :=
  (fst range <=? v) && (v <=? snd range).

(** A range covers an optional field when the value, if present and not
    NaN, lies inside it. *)
Definition covers (range : number * number) (v : option number) : Prop :=
  forall x, v = Some x -> x = NaN \/ in_range range x = true.

(** No constraint at all on the categorical fields and the bracket. *)
Definition unconstrained (filters : FilterState) : Prop :=
  f_gender filters = [] /\ f_education filters = []
  /\ f_familyStatus filters = [] /\ f_housingType filters = []
  /\ f_incomeBracket filters = "all".

(** The initial filter state of the dashboard ([OverviewPage]). *)
Definition default_filters : FilterState :=
  {| f_gender := []; f_education := []; f_familyStatus := [];
     f_housingType := [];
     f_ageRange := (of_Z 18, of_Z 80);
     f_incomeBracket := "all";
     f_employmentRange := (of_Z 0, of_Z 40) |}.

(** ** Sample records *)

(** A raw record as the ingestion path builds it: no derived field. *)
Definition raw_sample (id income : Z) (t : target) : HomeCreditRecord :=
  {| SK_ID_CURR := of_Z id; TARGET := t; CODE_GENDER := GenderF;
     DAYS_BIRTH := of_Z (-14610); DAYS_EMPLOYED := of_Z (-1461);
     NAME_FAMILY_STATUS := "Married"; CNT_CHILDREN := of_Z 1;
     CNT_FAM_MEMBERS := of_Z 3;
     NAME_EDUCATION_TYPE := "Higher education";
     OCCUPATION_TYPE := "Managers";
     NAME_HOUSING_TYPE := "House / apartment";
     AMT_INCOME_TOTAL := of_Z income; AMT_CREDIT := of_Z 500000;
     AMT_ANNUITY := of_Z 25000; AMT_GOODS_PRICE := of_Z 450000;
     NAME_CONTRACT_TYPE := "Cash loans"; REGION_RATING_CLIENT := of_Z 2;
     FLAG_OWN_CAR := FlagY; FLAG_OWN_REALTY := FlagN;
     AGE_YEARS := None; EMPLOYMENT_YEARS := None; DTI := None;
     LOAN_TO_INCOME := None; ANNUITY_TO_CREDIT := None;
     INCOME_BRACKET := None |}.

Definition raw_samples : list HomeCreditRecord :=
  [ raw_sample 100001 90000 T0; raw_sample 100002 250000 T1;
    raw_sample 100003 120000 T0; raw_sample 100004 600000 T0 ].

(** The same records after both derivation passes. *)
Definition derived_samples : list HomeCreditRecord :=
  addIncomeBrackets (preprocessData raw_samples).

(** ** Statement of the KPI summary *)

(** Every named metric can be read from the summary. *)
Definition all_metrics_present (summary : object) : Prop :=
  forall name, In name kpi_names -> exists v, get summary name = Some v.

(** ** The default-risk score as a product of factors *)

Definition age_factor (age : number) : number :=
  if age <? of_Z 25 then dec 15 10
  else if age <? of_Z 35 then dec 12 10
  else if age >? of_Z 65 then dec 13 10
  else of_Z 1.

Definition income_factor (income : number) : number :=
  if income <? of_Z 100000 then dec 20 10
  else if income <? of_Z 200000 then dec 14 10
  else if income >? of_Z 500000 then dec 6 10
  else of_Z 1.

Definition education_factor (education : string) : number :=
  if String.eqb education "Higher education"
     || String.eqb education "Academic degree" then dec 7 10
  else if String.eqb education "Lower secondary" then dec 14 10
  else of_Z 1.

Definition employment_factor (employment : number) : number :=
  if employment <? of_Z 1 then dec 18 10
  else if employment >? of_Z 10 then dec 8 10
  else of_Z 1.

(** Baseline times the four factors, clipped at 0.5. *)
Definition risk_formula
    (age income : number) (education : string) (employment : number)
  : number :=
  min2 (dec 5 10)
       (baseline_risk * age_factor age * income_factor income
        * education_factor education * employment_factor employment).

(** The factor by which the age alone moves the score away from the
    baseline: the other inputs are taken where the code applies no
    adjustment (income 300000, secondary education, 5 years of tenure). *)
Definition age_adjustment (age : number) : number :=
  getDefaultRiskByProfile age (of_Z 300000)
    "Secondary / secondary special" (of_Z 5) / baseline_risk.

(** ** Platform functions used on the sample inputs *)

(** Number to string, on the integers and the three special values (the
    labels of the sample histograms are integers). *)
Definition integer_to_string (x : number) : string :=
  match x with
  | Num q => NilZero.string_of_int (Z.to_int (Qfloor q))
  | PosInf => "Infinity"
  | NegInf => "-Infinity"
  | NaN => "NaN"
  end.

(** ** Statements about sorted values *)

(** Every value of the list is a finite number. *)
Definition all_finite (values : list number) : Prop :=
  Forall (fun v => is_finite v = true) values.

Definition ascending_order (a b : number) : Prop := (a <=? b) = true.

(** The median read off an ascending list: the middle element for an odd
    length, the average of the two middle elements for an even length. *)
Definition median_of_sorted (sorted : list number) : number :=
  let n := List.length sorted in
  if Nat.odd n then nth (n / 2) sorted NaN
  else (nth (n / 2 - 1) sorted NaN + nth (n / 2) sorted NaN) / of_Z 2.

(** Low / High / Mid against the index-based quartiles of an ascending list
    of [n] incomes: Q1 = sorted[floor(n * 0.25)] and
    Q3 = sorted[floor(n * 0.75)]. *)
Definition quartile_label (sorted : list number) (income : number) : bracket :=
  let n := List.length sorted in
  let Q1 := nth (n / 4) sorted NaN in
  let Q3 := nth (3 * n / 4) sorted NaN in
  if income <=? Q1 then Low
  else if income >=? Q3 then High
  else Mid.

(** ** Statement of the correlation *)

Local Open Scope Qc_scope.

Definition Qc_of_nat (n : nat) : Qc := Q2Qc (inject_Z (Z.of_nat n)).

(** The sum of [f] over a list. *)
Fixpoint total {A} (f : A -> Qc) (l : list A) : Qc :=
  match l with
  | [] => 0
  | p :: l' => f p + total f l'
  end.

(** n times the sum of squares minus the square of the sum: n squared times
    the variance of [f] over the list. *)
Definition spread (f : Qc * Qc -> Qc) (l : list (Qc * Qc)) : Qc :=
  Qc_of_nat (List.length l) * total (fun p => f p * f p) l
  - total f l * total f l.

(** n times the sum of products minus the product of the sums: n squared
    times the covariance. *)
Definition cospread (l : list (Qc * Qc)) : Qc :=
  Qc_of_nat (List.length l) * total (fun p => fst p * snd p) l
  - total fst l * total snd l.

Definition lift (p : Qc * Qc) : number * number := (Num (fst p), Num (snd p)).

(** What the code needs of [Math.sqrt]: it maps 0 to 0 and a positive finite
    number to a positive finite number. *)
Definition sqrt_contract (Math_sqrt : number -> number) : Prop :=
  Math_sqrt (Num 0) = Num 0
  /\ forall q, 0 < q -> exists r, Math_sqrt (Num q) = Num r /\ 0 < r.

(** A square root on fractions, exact on squares: the integer square root of
    numerator times denominator, over the denominator. *)
Definition rational_sqrt (x : number) : number :=
  match x with
  | Num q =>
      if Qc_ltb q 0 then NaN
      else Num (Q2Qc (Z.sqrt (Qnum q * Z.pos (Qden q)) # Qden q))
  | PosInf => PosInf
  | _ => NaN
  end.

Local Close Scope Qc_scope.

(** ** Statements about the randomness source *)

(** Two sources return the same values at the calls number [i] to [k - 1]. *)
Definition agree (i k : nat) (s1 s2 : nat -> Qc) : Prop :=
  forall j, (i <= j < k)%nat -> s1 j = s2 j.

(** A computation that, when it returns, has advanced the call counter and
    returns the same from every source that agrees on the calls it made. *)
Definition reads_only_its_draws {A} (m : (nat -> Qc) -> Rand A) : Prop :=
  forall s1 i a k,
    m s1 i = Some (a, k) ->
    (i <= k)%nat /\ forall s2, agree i k s1 s2 -> m s2 i = Some (a, k).

(** [Math.random()] returns a value in [0, 1). *)
Definition in_unit_interval (source : nat -> Qc) : Prop :=
  forall j, (0 <= source j)%Qc /\ (source j < 1)%Qc.

(** A computation that returns from every state. *)
Definition returns {A} (m : Rand A) : Prop :=
  forall i, exists a k, m i = Some (a, k).

(** A source for the sample runs and a polynomial stand-in for [Math.exp]
    (its Taylor polynomial of degree 3). *)
Definition sample_source (i : nat) : Qc :=
  Q2Qc (Z.of_nat ((i * 37 + 11) mod 100) # 100).

Definition exp_polynomial (x : number) : number :=
  of_Z 1 + x + x * x / of_Z 2 + x * x * x / of_Z 6.

(** The number of values counted by a histogram. *)
Definition count_total (bins : list Bin) : nat :=
  fold_right (fun b n => (bin_count b + n)%nat) 0%nat bins.

(** Two applicants with an income of zero, after [preprocessData]: their
    DTI and loan-to-income ratios are divisions by zero. *)
Definition zero_income_samples : list HomeCreditRecord :=
  preprocessData [ raw_sample 100001 0 T0; raw_sample 100002 0 T1 ].

(** ** Objects used as tables *)

(** The own properties of an ordinary object, in the order of their
    creation. *)
Definition table (V : Type) : Type := list (string * V).

(** The own property [key], if there is one. *)
Fixpoint own_property {V} (t : table V) (key : string) : option V :=
  match t with
  | [] => None
  | (k, v) :: t' => if String.eqb k key then Some v else own_property t' key
  end.

(** [t[key] = v] on an own or new property: an existing property keeps its
    place, a new one is created last. *)
Fixpoint set_property {V} (t : table V) (key : string) (v : V) : table V :=
  match t with
  | [] => [(key, v)]
  | (k, w) :: t' =>
      if String.eqb k key then (k, v) :: t'
      else (k, w) :: set_property t' key v
  end.

(** A property name that is an array index: the canonical decimal string of
    an integer below 2^32 - 1. *)
Definition digit_value (c : ascii) : option N :=
  let n := N_of_ascii c in
  if (48 <=? n)%N && (n <=? 57)%N then Some (n - 48)%N else None.

Fixpoint digits_value (s : string) (acc : N) : option N :=
  match s with
  | EmptyString => Some acc
  | String c s' =>
      match digit_value c with
      | Some d => digits_value s' (acc * 10 + d)%N
      | None => None
      end
  end.

Definition array_index (s : string) : option N :=
  match s with
  | EmptyString => None
  | String c s' =>
      if Ascii.eqb c "0"
      then (match s' with EmptyString => Some 0%N | _ => None end)
      else match digits_value s 0 with
           | Some n => if (n <? 4294967295)%N then Some n else None
           | None => None
           end
  end.

Definition is_array_index (s : string) : bool :=
  match array_index s with Some _ => true | None => false end.

Definition index_number (s : string) : number :=
  match array_index s with Some n => of_Z (Z.of_N n) | None => NaN end.

(** [Object.entries(t)]: the array-index keys in ascending numeric order,
    then the other keys in the order of their creation. *)
Definition Object_entries {V} (t : table V) : list (string * V) :=
  (Array_sort (fun p q => index_number (fst p) - index_number (fst q))
     (filter (fun p => is_array_index (fst p)) t)
   ++ filter (fun p => negb (is_array_index (fst p))) t)%list.

(** Whether a key that is not an own property is found on
    [Object.prototype]. *)
Definition inherited (key : string) : bool :=
  includes object_prototype_keys key.

(** ** Categorical grouping *)

(** The value an entry of [groupBy] holds: a count, or the string that
    [(acc[value] || 0) + 1] builds when [acc[value]] is a member inherited
    from [Object.prototype] (a function or an object, concatenated with
    "1"). *)
Inductive tally : Type :=
| Count (n : nat)
| Junk.

(** A tally used as a number: the junk string converts to NaN. *)
Definition tally_number (c : tally) : number :=
  match c with Count n => of_nat n | Junk => NaN end.

Record GroupRow := mkGroupRow {
  group_key : string;
  group_count : tally;
  group_name : string;
  group_value : tally
}.

Record RateRow := mkRateRow {
  rate_category : string;
  rate_defaultRate : number;
  rate_total : nat;
  rate_defaults : nat
}.

Section Grouping.

(** Conversion of a number to a string by [String(...)]. *)
Variable number_to_string : number -> string.

(** [String(record[key])] *)
Definition String_ (v : value) : string :=
  match v with
  | VNumber n => number_to_string n
  | VString s => s
  | VUndefined => "undefined"
  end.

(** The callback of [data.reduce] in [groupBy].  For the key "__proto__"
    the assignment has no effect. *)
Definition groupBy_step (key : string) (acc : table tally)
    (record : HomeCreditRecord) : table tally :=
  let value := String_ (field_value record key) in
  match own_property acc value with
  | Some (Count n) => set_property acc value (Count (S n))
  | Some Junk => set_property acc value Junk
  | None =>
      if String.eqb value "__proto__" then acc
      else if inherited value then set_property acc value Junk
      else set_property acc value (Count 1)
  end.

Definition groupBy (data : list HomeCreditRecord) (key : string)
  : list GroupRow :=
  let groups := fold_left (groupBy_step key) data [] in
  Array_sort
    (fun a b => tally_number (group_count b) - tally_number (group_count a))
    (map (fun kv => {| group_key := fst kv; group_count := snd kv;
                       group_name := fst kv; group_value := snd kv |})
         (Object_entries groups)).

(** The callback of [data.reduce] in [calculateDefaultRateByCategory]; an
    entry holds [(total, defaults)].  For a key inherited from
    [Object.prototype] the counters of the inherited member are touched and
    the table is not. *)
Definition defaultRate_step (category : string) (acc : table (nat * nat))
    (record : HomeCreditRecord) : table (nat * nat) :=
  let key := String_ (field_value record category) in
  let bump (entry : nat * nat) : nat * nat :=
    (S (fst entry),
     if target_eqb (TARGET record) T1 then S (snd entry) else snd entry) in
  match own_property acc key with
  | Some entry => set_property acc key (bump entry)
  | None =>
      if inherited key then acc
      else set_property acc key (bump (0%nat, 0%nat))
  end.

Definition calculateDefaultRateByCategory
    (data : list HomeCreditRecord) (category : string) : list RateRow :=
  let groups := fold_left (defaultRate_step category) data [] in
  Array_sort
    (fun a b => rate_defaultRate b - rate_defaultRate a)
    (map (fun kv =>
            {| rate_category := fst kv;
               rate_defaultRate :=
                 of_nat (snd (snd kv)) / of_nat (fst (snd kv)) * of_Z 100;
               rate_total := fst (snd kv);
               rate_defaults := snd (snd kv) |})
         (Object_entries groups)).

(** *** Chart data *)

Record Slice := mkSlice {
  slice_name : string;
  slice_value : nat;
  slice_color : string
}.

Record NamedValue := mkNamedValue {
  named_name : string;
  named_value : tally
}.

(** The arrays [prepareChartData] returns, by the shape of their elements. *)
Inductive chart : Type :=
| Slices (rows : list Slice)
| Histogram (bins : list Bin)
| NamedValues (rows : list NamedValue)
| Groups (rows : list GroupRow)
| Rates (rows : list RateRow)
| NoRows.

Definition prepareChartData (data : list HomeCreditRecord) (type : string)
  : result chart :=
  if String.eqb type "target_distribution" then
    let defaultCount :=
      List.length (filter (fun r => target_eqb (TARGET r) T1) data) in
    let repaidCount := (List.length data - defaultCount)%nat in
    Ok (Slices
          [ {| slice_name := "Repaid"; slice_value := repaidCount;
               slice_color := "hsl(var(--success))" |};
            {| slice_name := "Default"; slice_value := defaultCount;
               slice_color := "hsl(var(--destructive))" |} ])
  else if String.eqb type "age_distribution" then
    match createBins number_to_string
            (map (fun r => to_number (AGE_YEARS r))
                 (filter (fun r => present_truthy (AGE_YEARS r)) data)) 15
    with
    | Ok ageBins => Ok (Histogram ageBins)
    | TypeError => TypeError
    end
  else if String.eqb type "income_distribution" then
    match createBins number_to_string (map AMT_INCOME_TOTAL data) 20 with
    | Ok incomeBins => Ok (Histogram incomeBins)
    | TypeError => TypeError
    end
  else if String.eqb type "gender_distribution" then
    Ok (NamedValues
          (map (fun row =>
                  {| named_name :=
                       if String.eqb (group_key row) "M" then "Male"
                       else if String.eqb (group_key row) "F" then "Female"
                       else "Not Specified";
                     named_value := group_count row |})
               (groupBy data "CODE_GENDER")))
  else if String.eqb type "education_distribution" then
    Ok (Groups (groupBy data "NAME_EDUCATION_TYPE"))
  else if String.eqb type "family_status_distribution" then
    Ok (Groups (groupBy data "NAME_FAMILY_STATUS"))
  else if String.eqb type "default_by_gender" then
    Ok (Rates (calculateDefaultRateByCategory data "CODE_GENDER"))
  else if String.eqb type "default_by_education" then
    Ok (Rates (calculateDefaultRateByCategory data "NAME_EDUCATION_TYPE"))
  else if String.eqb type "default_by_housing" then
    Ok (Rates (calculateDefaultRateByCategory data "NAME_HOUSING_TYPE"))
  else if String.eqb type "housing_distribution" then
    Ok (Groups (groupBy data "NAME_HOUSING_TYPE"))
  else Ok NoRows.

End Grouping.


(** ** Statements about grouping *)

(** The category of a record: [String(record[key])]. *)
Definition category_of (number_to_string : number -> string) (key : string)
    (record : HomeCreditRecord) : string :=
  String_ number_to_string (field_value record key).

(** No record's category is the name of a member of [Object.prototype]. *)
Definition plain_categories (number_to_string : number -> string)
    (data : list HomeCreditRecord) (key : string) : Prop :=
  forall r, In r data ->
            inherited (category_of number_to_string key r) = false.

(** The number of records of a category. *)
Definition occurrences (number_to_string : number -> string) (key : string)
    (data : list HomeCreditRecord) (category : string) : nat :=
  count_occ string_dec (map (category_of number_to_string key) data) category.

(** The number of defaulted records of a category. *)
Definition defaults_in (number_to_string : number -> string) (key : string)
    (data : list HomeCreditRecord) (category : string) : nat :=
  occurrences number_to_string key
    (filter (fun r => target_eqb (TARGET r) T1) data) category.

Definition tally_nat (c : tally) : nat :=
  match c with Count n => n | Junk => 0%nat end.

Definition sum_nat (l : list nat) : nat := fold_right Nat.add 0%nat l.

(** What the table of [groupBy] holds after the records [seen]. *)
Definition groupBy_table (number_to_string : number -> string)
    (key : string) (acc : table tally) (seen : list HomeCreditRecord)
  : Prop :=
  NoDup (map fst acc)
  /\ forall k,
       own_property acc k
       = match occurrences number_to_string key seen k with
         | O => None
         | S n => Some (Count (S n))
         end.

(** What the table of [calculateDefaultRateByCategory] holds after the
    records [seen]. *)
Definition rate_table (number_to_string : number -> string)
    (key : string) (acc : table (nat * nat)) (seen : list HomeCreditRecord)
  : Prop :=
  NoDup (map fst acc)
  /\ forall k,
       own_property acc k
       = match occurrences number_to_string key seen k with
         | O => None
         | S n => Some (S n, defaults_in number_to_string key seen k)
         end.

(** Rows in the order of descending count, respectively descending rate. *)
Definition descending_count (a b : GroupRow) : Prop :=
  (tally_nat (group_count b) <= tally_nat (group_count a))%nat.

Definition descending_rate (a b : RateRow) : Prop :=
  (rate_defaultRate b <=? rate_defaultRate a) = true.

(** ** Sample applicants *)

(** A raw record with the given gender, education, income and outcome. *)
Definition applicant (id : Z) (g : gender) (education : string) (income : Z)
    (t : target) : HomeCreditRecord :=
  {| SK_ID_CURR := of_Z id; TARGET := t; CODE_GENDER := g;
     DAYS_BIRTH := of_Z (-14610); DAYS_EMPLOYED := of_Z (-1461);
     NAME_FAMILY_STATUS := "Married"; CNT_CHILDREN := of_Z 1;
     CNT_FAM_MEMBERS := of_Z 3;
     NAME_EDUCATION_TYPE := education;
     OCCUPATION_TYPE := "Managers";
     NAME_HOUSING_TYPE := "House / apartment";
     AMT_INCOME_TOTAL := of_Z income; AMT_CREDIT := of_Z 500000;
     AMT_ANNUITY := of_Z 25000; AMT_GOODS_PRICE := of_Z 450000;
     NAME_CONTRACT_TYPE := "Cash loans"; REGION_RATING_CLIENT := of_Z 2;
     FLAG_OWN_CAR := FlagY; FLAG_OWN_REALTY := FlagN;
     AGE_YEARS := None; EMPLOYMENT_YEARS := None; DTI := None;
     LOAN_TO_INCOME := None; ANNUITY_TO_CREDIT := None;
     INCOME_BRACKET := None |}.

Definition applicants : list HomeCreditRecord :=
  [ applicant 100001 GenderM "Higher education" 90000 T0;
    applicant 100002 GenderF "Secondary / secondary special" 250000 T1;
    applicant 100003 GenderM "Higher education" 120000 T1;
    applicant 100004 GenderXNA "Lower secondary" 600000 T0;
    applicant 100005 GenderF "Higher education" 180000 T0 ].

(** [plain_categories], as a check on a given collection. *)
Definition plain_categoriesb (number_to_string : number -> string)
    (data : list HomeCreditRecord) (key : string) : bool :=
  forallb (fun r => negb (inherited (category_of number_to_string key r)))
          data.

(** ** Statements about histograms *)

(** The bin a value is counted in: [Math.min(Math.floor((x - min) /
    binSize), numBins - 1)]. *)
Definition bin_index (min binSize : Qc) (numBins : nat) (x : Qc) : nat :=
  Z.to_nat (Z.min (Qfloor ((x + - min) / binSize)%Qc)
                  (Z.of_nat (numBins - 1))).

Definition bin_index_of (min binSize : Qc) (numBins : nat) (v : number)
  : option nat :=
  match v with
  | Num x => Some (bin_index min binSize numBins x)
  | _ => None
  end.

(** A bin with [c] more values counted. *)
Definition counted (c : nat) (b : Bin) : Bin :=
  {| bin_range := bin_range b; bin_count := (bin_count b + c)%nat;
     bin_min := bin_min b; bin_max := bin_max b |}.

(** The number of values counted in bin [i]. *)
Definition values_in_bin (min binSize : Qc) (numBins : nat)
    (values : list number) (i : nat) : nat :=
  List.length
    (filter (fun v => match bin_index_of min binSize numBins v with
                      | Some k => (k =? i)%nat
                      | None => false
                      end) values).

(** ** Statements about the correlation matrix *)

(** [correlations[field1][field2]] *)
Definition correlation_entry
    (correlations : list (string * list (string * number)))
    (field1 field2 : string) : option number :=
  match find (fun row => String.eqb (fst row) field1) correlations with
  | Some row => get (snd row) field2
  | None => None
  end.

Definition swap_pair (p : number * number) : number * number :=
  (snd p, fst p).

(** ** Filter sidebar ([FilterSidebar]) *)

(** The keys of the four checkbox groups. *)
Inductive array_key := Gender | Education | FamilyStatus | HousingType.

(** [filters[key]] *)
Definition filter_list (filters : FilterState) (key : array_key)
  : list string :=
  match key with
  | Gender => f_gender filters
  | Education => f_education filters
  | FamilyStatus => f_familyStatus filters
  | HousingType => f_housingType filters
  end.

(** [updateFilter(key, value)] for a checkbox group: the state
    [{ ...filters, [key]: value }] handed to [onFiltersChange]. *)
Definition updateFilter (filters : FilterState) (key : array_key)
    (value : list string) : FilterState :=
  {| f_gender := match key with Gender => value | _ => f_gender filters end;
     f_education :=
       match key with Education => value | _ => f_education filters end;
     f_familyStatus :=
       match key with
       | FamilyStatus => value
       | _ => f_familyStatus filters
       end;
     f_housingType :=
       match key with HousingType => value | _ => f_housingType filters end;
     f_ageRange := f_ageRange filters;
     f_incomeBracket := f_incomeBracket filters;
     f_employmentRange := f_employmentRange filters |}.

Definition toggleArrayFilter (filters : FilterState) (key : array_key)
    (value : string) : FilterState :=
  let current := filter_list filters key in
  let updated :=
    if includes current value
    then filter (fun item => negb (String.eqb item value)) current
    else (current ++ [value])%list in
  updateFilter filters key updated.

(** ** A collection whose default rate ends in half a hundredth *)

(** 32 applicants, one of them in default: a default rate of 3.125%. *)
Definition tie_samples : list HomeCreditRecord :=
  raw_sample 100001 90000 T1 :: repeat (raw_sample 100002 90000 T0) 31.

(** ** Statements about the generated records *)

(** Every result of a computation satisfies [P]. *)
Definition ensures {A} (m : Rand A) (P : A -> Prop) : Prop :=
  forall i a k, m i = Some (a, k) -> P a.

(** A whole number from [lo] to [hi]. *)
Definition whole_between (lo hi : Z) (x : number) : Prop :=
  exists z : Z, x = of_Z z /\ (lo <= z <= hi)%Z.

(** A draw of [Math.random()]: a number in [0, 1). *)
Definition unit_draw (x : number) : Prop :=
  exists q : Qc, x = Num q /\ (0 <= q)%Qc /\ (q < 1)%Qc.

(** What the generator writes into the record number [i]. *)
Record well_formed_raw (i : nat) (r : HomeCreditRecord) : Prop := {
  wf_id : SK_ID_CURR r = of_Z (100000 + Z.of_nat i);
  wf_birth :
    exists age : Z,
      (30 <= age <= 54)%Z
      /\ DAYS_BIRTH r = neg (Math_round (of_Z age * dec 36525 100));
  wf_employed :
    DAYS_EMPLOYED r = of_Z 365243
    \/ whole_between (-9131) 0 (DAYS_EMPLOYED r);
  wf_family : In (NAME_FAMILY_STATUS r) familyStatusTypes;
  wf_children : whole_between 0 3 (CNT_CHILDREN r);
  wf_members : whole_between 1 5 (CNT_FAM_MEMBERS r);
  wf_education : In (NAME_EDUCATION_TYPE r) educationTypes;
  wf_occupation :
    OCCUPATION_TYPE r = "" \/ In (OCCUPATION_TYPE r) occupationTypes;
  wf_housing : In (NAME_HOUSING_TYPE r) housingTypes;
  wf_contract : In (NAME_CONTRACT_TYPE r) contractTypes;
  wf_region : whole_between 1 3 (REGION_RATING_CLIENT r);
  wf_derived :
    AGE_YEARS r = None /\ EMPLOYMENT_YEARS r = None /\ DTI r = None
    /\ LOAN_TO_INCOME r = None /\ ANNUITY_TO_CREDIT r = None
    /\ INCOME_BRACKET r = None
}.

(** ** Statements about records without derived fields *)

(** A record as the uploader builds it: none of the derived fields. *)
Definition no_derived_field (r : HomeCreditRecord) : Prop :=
  AGE_YEARS r = None /\ EMPLOYMENT_YEARS r = None /\ DTI r = None
  /\ LOAN_TO_INCOME r = None /\ ANNUITY_TO_CREDIT r = None
  /\ INCOME_BRACKET r = None.

(** Whether a record carries the label [b]. *)
Definition has_bracket (b : bracket) (r : HomeCreditRecord) : bool :=
  match INCOME_BRACKET r with
  | Some x => bracket_eqb x b
  | None => false
  end.

(** ** Risk segmentation page ([RiskSegmentationPage]) *)

(** [data.filter(r => r.TARGET === 1)] *)
Definition defaulters (data : list HomeCreditRecord)
  : list HomeCreditRecord :=
  filter (fun r => target_eqb (TARGET r) T1) data.

Definition avgCreditDefaulters (data : list HomeCreditRecord) : number :=
  fold_left (fun sum r => sum + AMT_CREDIT r) (defaulters data) (of_Z 0)
  / of_nat (List.length (defaulters data)).

Definition avgAnnuityDefaulters (data : list HomeCreditRecord) : number :=
  fold_left (fun sum r => sum + AMT_ANNUITY r) (defaulters data) (of_Z 0)
  / of_nat (List.length (defaulters data)).

Definition avgEmploymentDefaulters (data : list HomeCreditRecord) : number :=
  fold_left (fun sum r => sum + to_number (EMPLOYMENT_YEARS r))
    (filter (fun r => present_truthy (EMPLOYMENT_YEARS r)
                      && (to_number (EMPLOYMENT_YEARS r) >? of_Z 0))
       (defaulters data))
    (of_Z 0)
  / of_nat (List.length
              (filter (fun r => present_truthy (EMPLOYMENT_YEARS r)
                                && (to_number (EMPLOYMENT_YEARS r) >? of_Z 0))
                 (defaulters data))).

(** ** Demographics page ([DemographicsPage]) *)

(** [[0, 1, 2, 3, 4, 5].map(count => ({ children: ..., count: ... }))]: the
    number of records per number of children, with one row for five and
    more. *)
Definition childrenDistribution (data : list HomeCreditRecord)
  : list (string * nat) :=
  map (fun count : Z =>
         (if (count =? 5)%Z then "5+" else integer_to_string (of_Z count),
          if (count =? 5)%Z
          then List.length
                 (filter (fun r => CNT_CHILDREN r >=? of_Z 5) data)
          else List.length
                 (filter (fun r => strict_eq (CNT_CHILDREN r) (of_Z count))
                    data)))
      [0; 1; 2; 3; 4; 5]%Z.

(** ** Statement of the sorted copy *)

(** No value of the list is NaN. *)
Definition no_NaN (values : list number) : Prop :=
  Forall (fun v => v <> NaN) values.

(** A raw record whose income is NaN, which is what [parseFloat] reads in
    a cell that holds no number. *)
Definition income_missing_sample (id : Z) : HomeCreditRecord :=
  {| SK_ID_CURR := of_Z id; TARGET := T0; CODE_GENDER := GenderF;
     DAYS_BIRTH := of_Z (-14610); DAYS_EMPLOYED := of_Z (-1461);
     NAME_FAMILY_STATUS := "Married"; CNT_CHILDREN := of_Z 1;
     CNT_FAM_MEMBERS := of_Z 3;
     NAME_EDUCATION_TYPE := "Higher education";
     OCCUPATION_TYPE := "Managers";
     NAME_HOUSING_TYPE := "House / apartment";
     AMT_INCOME_TOTAL := NaN; AMT_CREDIT := of_Z 500000;
     AMT_ANNUITY := of_Z 25000; AMT_GOODS_PRICE := of_Z 450000;
     NAME_CONTRACT_TYPE := "Cash loans"; REGION_RATING_CLIENT := of_Z 2;
     FLAG_OWN_CAR := FlagY; FLAG_OWN_REALTY := FlagN;
     AGE_YEARS := None; EMPLOYMENT_YEARS := None; DTI := None;
     LOAN_TO_INCOME := None; ANNUITY_TO_CREDIT := None;
     INCOME_BRACKET := None |}.

(** ** Statement of the mean *)

(** The values added one after the other, in their order, onto [acc]. *)
Fixpoint running_sum (acc : number) (values : list number) : number :=
  match values with
  | [] => acc
  | v :: rest => running_sum (acc + v) rest
  end.

(** ** The product-moment formula, as the specification words it *)

(** The samples of two fields: one pair of numbers per record in which both
    fields are present, in the order of the records. *)
Fixpoint paired_samples (Number_of_string : string -> number)
    (data : list HomeCreditRecord) (field1 field2 : string)
  : list (number * number) :=
  match data with
  | [] => []
  | r :: rest =>
      match field_value r field1, field_value r field2 with
      | VUndefined, _ | _, VUndefined =>
          paired_samples Number_of_string rest field1 field2
      | x, y =>
          (Number_ Number_of_string x, Number_ Number_of_string y)
          :: paired_samples Number_of_string rest field1 field2
      end
  end.

(** The sum of [f] over the samples, added one after the other onto
    [acc]. *)
Fixpoint series (f : number * number -> number) (acc : number)
    (samples : list (number * number)) : number :=
  match samples with
  | [] => acc
  | p :: rest => series f (acc + f p) rest
  end.

(** n Sxy - Sx Sy *)
Definition product_moment_numerator (samples : list (number * number))
  : number :=
  let n := of_nat (List.length samples) in
  n * series (fun p => fst p * snd p) (of_Z 0) samples
  - series fst (of_Z 0) samples * series snd (of_Z 0) samples.

(** sqrt((n Sxx - Sx^2) (n Syy - Sy^2)) *)
Definition product_moment_denominator (Math_sqrt : number -> number)
    (samples : list (number * number)) : number :=
  let n := of_nat (List.length samples) in
  Math_sqrt
    ((n * series (fun p => fst p * fst p) (of_Z 0) samples
      - series fst (of_Z 0) samples * series fst (of_Z 0) samples)
     * (n * series (fun p => snd p * snd p) (of_Z 0) samples
        - series snd (of_Z 0) samples * series snd (of_Z 0) samples)).

(** A variable that is the same whole number [c] in every sample, with
    [c] and the number of samples small enough for the sums and products
    of the formula to be whole numbers below 2^53, which binary floating
    point holds without rounding. *)
Definition whole_constant (c : Z) (f : number * number -> number)
    (samples : list (number * number)) : Prop :=
  (Z.abs c <= 1024)%Z
  /\ (Z.of_nat (List.length samples) <= 65535)%Z
  /\ forall p, In p samples -> f p = of_Z c.

(** A variable whose values are finite and at most 10^100 in magnitude:
    its sums of squares stay far from the largest floating-point
    number. *)
Definition moderate (f : number * number -> number)
    (samples : list (number * number)) : Prop :=
  forall p, In p samples ->
    exists y, f p = Num y
              /\ (Q2Qc (inject_Z (- 10 ^ 100)) <= y)%Qc
              /\ (y <= Q2Qc (inject_Z (10 ^ 100)))%Qc.

(** ** Histograms within the range of floating point *)

(** Values and a number of bins on which [createBins] stays within the
    range of binary floating point and of the engine: finite values, at
    most 65535 of them (the spread call [Math.min(...values)] passes one
    argument per value), of at most 10^300 in magnitude (their differences
    do not overflow); at least one and at most 65535 bins; and a spread of
    at least 10^-300 per bin (the bin width does not underflow to 0). *)
Definition in_double_range (values : list number) (numBins : nat) : Prop :=
  all_finite values
  /\ (Z.of_nat (List.length values) <= 65535)%Z
  /\ (forall x, In (Num x) values ->
        (Q2Qc (inject_Z (- 10 ^ 300)) <= x)%Qc
        /\ (x <= Q2Qc (inject_Z (10 ^ 300)))%Qc)
  /\ (0 < Z.of_nat numBins <= 65535)%Z
  /\ (dec 1 (10 ^ 300) * of_nat numBins
      <=? Math_max values - Math_min values) = true.

(** The number of values equal to [x]. *)
Definition copies (x : number) (values : list number) : nat :=
  List.length (filter (strict_eq x) values).

(** * Properties *)

(** ** Comparisons on rationals *)

Lemma Qc_ltb_lt (a b : Qc) : Qc_ltb a b = true <-> (a < b)%Qc.
Proof.
  unfold Qc_ltb. rewrite Qclt_alt. destruct (a ?= b)%Qc; split; congruence.
Qed.

Lemma Qc_leb_le (a b : Qc) : Qc_leb a b = true <-> (a <= b)%Qc.
Proof.
  unfold Qc_leb. rewrite Qcle_alt. destruct (a ?= b)%Qc; split; congruence.
Qed.

Lemma Qc_eqb_eq (a b : Qc) : Qc_eqb a b = true <-> a = b.
Proof.
  unfold Qc_eqb. rewrite Qceq_alt. destruct (a ?= b)%Qc; split; congruence.
Qed.

Lemma Qc_ltb_ge (a b : Qc) : Qc_ltb a b = false <-> (b <= a)%Qc.
Proof.
  split; intro H.
  - apply Qcnot_lt_le. intro L. apply Qc_ltb_lt in L. congruence.
  - destruct (Qc_ltb a b) eqn:E; [|reflexivity].
    apply Qc_ltb_lt in E. exfalso. exact (Qcle_not_lt _ _ H E).
Qed.

Lemma Qc_leb_gt (a b : Qc) : Qc_leb a b = false <-> (b < a)%Qc.
Proof.
  split; intro H.
  - apply Qcnot_le_lt. intro L. apply Qc_leb_le in L. congruence.
  - destruct (Qc_leb a b) eqn:E; [|reflexivity].
    apply Qc_leb_le in E. exfalso. exact (Qclt_not_le _ _ H E).
Qed.

Lemma Qc_eqb_refl (a : Qc) : Qc_eqb a a = true.
Proof. apply Qc_eqb_eq. reflexivity. Qed.

(** Closed equations between finite numbers are decided on their canonical
    fractions. *)
Ltac num_eq :=
  vm_compute;
  repeat match goal with
         | |- Some _ = Some _ => apply f_equal
         | |- Num _ = Num _ => apply f_equal
         end;
  apply Qc_is_canon; vm_compute; reflexivity.

(** [le lo a] rules out [a < lo], and [le a hi] rules out [a > hi]. *)
Lemma le_not_gt (x y : number) : (x <=? y) = true -> (y <? x) = false.
Proof.
  destruct x, y; simpl; try congruence; try reflexivity.
  intro H. apply Qc_ltb_ge. apply Qc_leb_le. exact H.
Qed.

Lemma le_trans (x y z : number) :
  (x <=? y) = true -> (y <=? z) = true -> (x <=? z) = true.
Proof.
  destruct x, y, z; cbn [le]; try congruence; try reflexivity.
  rewrite !Qc_leb_le. apply Qcle_trans.
Qed.

(** ** Feature derivation only adds derived fields (C10) *)

Lemma preprocessRecord_raw (r : HomeCreditRecord) :
  raw_fields (preprocessRecord r) = raw_fields r.
Proof. reflexivity. Qed.

Lemma with_INCOME_BRACKET_raw (r : HomeCreditRecord) (b : bracket) :
  raw_fields (with_INCOME_BRACKET r b) = raw_fields r
  /\ derived_numeric (with_INCOME_BRACKET r b) = derived_numeric r.
Proof. split; reflexivity. Qed.

(** C10.  [preprocessData] and [addIncomeBrackets] return one record per
    input record, in order, with every raw field unchanged.  [preprocessData]
    writes exactly the five derived numeric fields (it leaves
    [INCOME_BRACKET] as it was) and [addIncomeBrackets] writes exactly
    [INCOME_BRACKET] (it leaves the five derived numeric fields as they
    were); after each pass the fields it writes are present. *)
Theorem derivation_passes_frame (records : list HomeCreditRecord) :
  map raw_fields (preprocessData records) = map raw_fields records
  /\ map INCOME_BRACKET (preprocessData records) = map INCOME_BRACKET records
  /\ Forall (fun r => AGE_YEARS r <> None /\ EMPLOYMENT_YEARS r <> None
                      /\ DTI r <> None /\ LOAN_TO_INCOME r <> None
                      /\ ANNUITY_TO_CREDIT r <> None)
            (preprocessData records)
  /\ map raw_fields (addIncomeBrackets records) = map raw_fields records
  /\ map derived_numeric (addIncomeBrackets records)
     = map derived_numeric records
  /\ Forall (fun r => INCOME_BRACKET r <> None) (addIncomeBrackets records)
  /\ map raw_fields (addIncomeBrackets (preprocessData records))
     = map raw_fields records.
Proof.
  assert (P : forall l, map raw_fields (preprocessData l) = map raw_fields l).
  { intro l. unfold preprocessData. rewrite map_map.
    apply map_ext. intro r. apply preprocessRecord_raw. }
  assert (B : forall l,
             map raw_fields (addIncomeBrackets l) = map raw_fields l).
  { intro l. unfold addIncomeBrackets. rewrite map_map.
    apply map_ext. intro r. reflexivity. }
  repeat split.
  - apply P.
  - unfold preprocessData. rewrite map_map. apply map_ext. reflexivity.
  - unfold preprocessData. apply Forall_forall. intros r Hin.
    apply in_map_iff in Hin. destruct Hin as [r0 [<- _]].
    simpl. repeat split; discriminate.
  - apply B.
  - unfold addIncomeBrackets. rewrite map_map. apply map_ext. reflexivity.
  - unfold addIncomeBrackets. apply Forall_forall. intros r Hin.
    apply in_map_iff in Hin. destruct Hin as [r0 [<- _]].
    simpl. discriminate.
  - rewrite B. apply P.
Qed.

(** ** Filter engine *)

Lemma outside_range_absent (range : number * number) :
  outside_range None range = false.
Proof. reflexivity. Qed.

Lemma outside_range_falsy (x : number) (range : number * number) :
  truthy x = false -> outside_range (Some x) range = false.
Proof. intro H. unfold outside_range. rewrite H. reflexivity. Qed.

Lemma outside_range_covered (v : option number) (range : number * number) :
  covers range v -> outside_range v range = false.
Proof.
  intro C. destruct v as [x|]; [|reflexivity].
  destruct (C x eq_refl) as [-> | R]; [reflexivity|].
  unfold in_range in R. apply andb_prop in R. destruct R as [L U].
  unfold outside_range, gt.
  rewrite (le_not_gt _ _ L), (le_not_gt _ _ U).
  apply andb_false_r.
Qed.

(** The callback keeps a record exactly when none of its seven tests
    fires. *)
Lemma keepRecord_spec (filters : FilterState) (r : HomeCreditRecord) :
  keepRecord filters r =
    negb ((0 <? List.length (f_gender filters))%nat
          && negb (includes (f_gender filters) (gender_string (CODE_GENDER r))))
    && negb ((0 <? List.length (f_education filters))%nat
             && negb (includes (f_education filters) (NAME_EDUCATION_TYPE r)))
    && negb ((0 <? List.length (f_familyStatus filters))%nat
             && negb (includes (f_familyStatus filters) (NAME_FAMILY_STATUS r)))
    && negb ((0 <? List.length (f_housingType filters))%nat
             && negb (includes (f_housingType filters) (NAME_HOUSING_TYPE r)))
    && negb (outside_range (AGE_YEARS r) (f_ageRange filters))
    && negb (negb (String.eqb (f_incomeBracket filters) "all")
             && bracket_differs (INCOME_BRACKET r)
                  (bracketMap (f_incomeBracket filters)))
    && negb (outside_range (EMPLOYMENT_YEARS r) (f_employmentRange filters)).
Proof.
  unfold keepRecord.
  repeat match goal with
         | |- context [if ?c then false else _] => destruct c; simpl
         end; reflexivity.
Qed.

(** C4.  With every category list empty, the income bracket set to 'all'
    and age and employment ranges that cover the values of all records of
    the collection, [applyFilters] returns the input sequence unchanged. *)
Theorem applyFilters_unconstrained_identity
    (data : list HomeCreditRecord) (filters : FilterState) :
  unconstrained filters ->
  (forall r, In r data -> covers (f_ageRange filters) (AGE_YEARS r)) ->
  (forall r, In r data ->
             covers (f_employmentRange filters) (EMPLOYMENT_YEARS r)) ->
  applyFilters data filters = data.
Proof.
  intros (G & E & F & H & B) CA CE.
  unfold applyFilters.
  apply forallb_filter_id. apply forallb_forall. intros r Hin.
  rewrite keepRecord_spec, G, E, F, H, B.
  rewrite (outside_range_covered _ _ (CA r Hin)).
  rewrite (outside_range_covered _ _ (CE r Hin)).
  reflexivity.
Qed.

Lemma applyFilters_unconstrained_identity_witness :
  applyFilters derived_samples default_filters = derived_samples.
Proof.
  apply applyFilters_unconstrained_identity.
  - repeat split.
  - intros r Hin x Hx. right.
    repeat (destruct Hin as [<- | Hin];
            [injection Hx as <-; vm_compute; reflexivity|]).
    destruct Hin.
  - intros r Hin x Hx. right.
    repeat (destruct Hin as [<- | Hin];
            [injection Hx as <-; vm_compute; reflexivity|]).
    destruct Hin.
Defined.

(** C9.  A record without a derived age is kept or dropped by
    [applyFilters] regardless of the age range: the age test does not fire
    on it, whatever [lo, hi] is.  Likewise a record whose employment years
    are absent or zero is never dropped by the employment test, whatever the
    employment range is. *)
Theorem missing_values_pass_range_tests
    (filters : FilterState) (record : HomeCreditRecord) (lo hi : number) :
  (AGE_YEARS record = None ->
     outside_range (AGE_YEARS record) (lo, hi) = false
     /\ keepRecord (with_ageRange filters (lo, hi)) record
        = keepRecord filters record)
  /\ (EMPLOYMENT_YEARS record = None
      \/ EMPLOYMENT_YEARS record = Some (of_Z 0) ->
     outside_range (EMPLOYMENT_YEARS record) (lo, hi) = false
     /\ keepRecord (with_employmentRange filters (lo, hi)) record
        = keepRecord filters record).
Proof.
  split.
  - intro A. rewrite !keepRecord_spec. simpl. rewrite A. simpl.
    split; reflexivity.
  - intro Z.
    assert (O : forall range,
               outside_range (EMPLOYMENT_YEARS record) range = false).
    { intro range. destruct Z as [-> | ->]; [reflexivity|].
      apply outside_range_falsy. vm_compute. reflexivity. }
    split; [apply O|].
    rewrite !keepRecord_spec. simpl. rewrite !O. reflexivity.
Qed.

Lemma missing_values_pass_range_tests_witness :
  let record := raw_sample 100001 90000 T0 in
  let filters := default_filters in
  (outside_range (AGE_YEARS record) (of_Z 60, of_Z 70) = false
   /\ keepRecord (with_ageRange filters (of_Z 60, of_Z 70)) record
      = keepRecord filters record)
  /\ (outside_range (EMPLOYMENT_YEARS record) (of_Z 60, of_Z 70) = false
      /\ keepRecord (with_employmentRange filters (of_Z 60, of_Z 70)) record
         = keepRecord filters record).
Proof.
  intros record filters.
  destruct (missing_values_pass_range_tests
              filters record (of_Z 60) (of_Z 70)) as [HA HE].
  split; [apply HA; reflexivity | apply HE; left; reflexivity].
Defined.

(** ** KPI aggregator *)

Lemma calculateKPIs_nonempty_names (data : list HomeCreditRecord) :
  data <> [] -> map fst (calculateKPIs data) = kpi_names.
Proof.
  intro NE. destruct data as [|r data]; [congruence|]. reflexivity.
Qed.

(** C1, as stated, fails on the empty collection: the summary returned for
    it holds none of the named metrics; reading, say, the total count, the
    default rate or the median age finds nothing. *)
Lemma calculateKPIs_empty_has_no_metric :
  get (calculateKPIs []) "totalApplicants" = None
  /\ get (calculateKPIs []) "defaultRate" = None
  /\ get (calculateKPIs []) "medianAge" = None
  /\ map fst (calculateKPIs []) = [].
Proof. repeat split. Qed.

(** C1, amended.  [calculateKPIs] returns a summary for every collection.
    For the empty collection it is the empty object: no metric is present.
    For a non-empty collection the summary holds exactly the twenty-two named
    metrics, each with a value. *)
Theorem calculateKPIs_summary_shape (data : list HomeCreditRecord) :
  (data = [] ->
   calculateKPIs data = []
   /\ forall name, get (calculateKPIs data) name = None)
  /\ (data <> [] ->
      map fst (calculateKPIs data) = kpi_names
      /\ all_metrics_present (calculateKPIs data)).
Proof.
  split.
  - intros ->. split; reflexivity.
  - intro NE. split; [apply calculateKPIs_nonempty_names; exact NE|].
    destruct data as [|r data]; [congruence|].
    intros name Hin. unfold calculateKPIs.
    cbv beta iota zeta delta [List.length Nat.eqb].
    unfold kpi_names in Hin.
    repeat (destruct Hin as [<- | Hin]; [eexists; reflexivity|]).
    destruct Hin.
Qed.

Lemma calculateKPIs_summary_shape_witness :
  (calculateKPIs [] = []
   /\ forall name, get (calculateKPIs []) name = None)
  /\ (map fst (calculateKPIs derived_samples) = kpi_names
      /\ all_metrics_present (calculateKPIs derived_samples)).
Proof.
  split.
  - apply (calculateKPIs_summary_shape []). reflexivity.
  - apply (calculateKPIs_summary_shape derived_samples).
    unfold derived_samples, addIncomeBrackets, preprocessData, raw_samples.
    simpl. discriminate.
Defined.

(** ** Default-risk score *)

Lemma mul_1_r (x : number) : x * of_Z 1 = x.
Proof.
  destruct x; try reflexivity.
  simpl. f_equal. apply Qcmult_1_r.
Qed.

(** C6, as stated, fails in the middle of the age range: between 25 and 65
    the age never lowers the score.  At 40 the age leaves the score at the
    baseline (factor 1, not below 1), and at 30 it raises it (factor 1.2). *)
Lemma age_mid_range_not_reduced :
  age_adjustment (of_Z 40) = of_Z 1
  /\ (age_adjustment (of_Z 40) <? of_Z 1) = false
  /\ age_adjustment (of_Z 30) = dec 12 10
  /\ (age_adjustment (of_Z 30) <? of_Z 1) = false
  /\ getDefaultRiskByProfile (of_Z 40) (of_Z 300000)
       "Secondary / secondary special" (of_Z 5) = baseline_risk.
Proof.
  repeat split; try (vm_compute; reflexivity); num_eq.
Qed.

Lemma below_lower_bound (d c x : number) :
  (d <=? c) = true -> (c <=? x) = true -> (x <? d) = false.
Proof.
  intros DC CX. apply le_not_gt.
  exact (le_trans d c x DC CX).
Qed.

(** The age factor by age range: above 1 below 35 and above 65, exactly 1
    from 35 to 65. *)
Lemma age_factor_ranges (age : number) :
  ((age <? of_Z 25) = true -> age_factor age = dec 15 10)
  /\ ((of_Z 25 <=? age) = true -> (age <? of_Z 35) = true ->
      age_factor age = dec 12 10)
  /\ ((of_Z 35 <=? age) = true -> (age <=? of_Z 65) = true ->
      age_factor age = of_Z 1)
  /\ ((age >? of_Z 65) = true -> age_factor age = dec 13 10).
Proof.
  unfold age_factor. repeat split.
  - intros ->. reflexivity.
  - intros L U. rewrite (le_not_gt _ _ L), U. reflexivity.
  - intros L U.
    rewrite (below_lower_bound (of_Z 25) (of_Z 35) age eq_refl L).
    rewrite (le_not_gt _ _ L). unfold gt. rewrite (le_not_gt _ _ U).
    reflexivity.
  - intro G.
    assert (L : (of_Z 65 <=? age) = true).
    { unfold gt in G. destruct age; try discriminate; cbn [of_Z lt le] in *.
      - apply Qc_leb_le, Qclt_le_weak, Qc_ltb_lt, G.
      - reflexivity. }
    rewrite (below_lower_bound (of_Z 25) (of_Z 65) age eq_refl L).
    rewrite (below_lower_bound (of_Z 35) (of_Z 65) age eq_refl L).
    rewrite G. reflexivity.
Qed.

(** C6, amended.  For every age, income, education and tenure the score is
    the 8% baseline multiplied by four independent factors and clipped at
    0.5, where the age factor is 1.5 under 25, 1.2 from 25 to under 35, 1.3
    over 65 and 1 (no adjustment) from 35 to 65; the income factor is 2.0
    under 100k, 1.4 under 200k, 0.6 over 500k and 1 otherwise; the education
    factor is 0.7 for a higher or academic degree, 1.4 for lower secondary
    and 1 otherwise; the tenure factor is 1.8 under 1 year, 0.8 over 10 years
    and 1 otherwise. *)
Theorem getDefaultRiskByProfile_formula
    (age income : number) (education : string) (employment : number) :
  getDefaultRiskByProfile age income education employment
  = risk_formula age income education employment
  /\ (getDefaultRiskByProfile age income education employment <=? dec 5 10)
     = true
  /\ ((of_Z 35 <=? age) = true -> (age <=? of_Z 65) = true ->
      age_factor age = of_Z 1)
  /\ ((of_Z 25 <=? age) = true -> (age <? of_Z 35) = true ->
      age_factor age = dec 12 10).
Proof.
  split; [|split; [|split; apply age_factor_ranges]];
  unfold getDefaultRiskByProfile, risk_formula,
    age_factor, income_factor, education_factor, employment_factor;
  destruct (age <? of_Z 25), (age <? of_Z 35), (age >? of_Z 65);
    destruct (income <? of_Z 100000), (income <? of_Z 200000),
      (income >? of_Z 500000);
    destruct (String.eqb education "Higher education"
              || String.eqb education "Academic degree"),
      (String.eqb education "Lower secondary");
    destruct (employment <? of_Z 1), (employment >? of_Z 10);
    cbv zeta; rewrite ?mul_1_r;
    first [reflexivity | vm_compute; reflexivity].
Qed.

(** ** Histogram binning *)

Lemma fold_count_value_TypeError
    (min binSize : number) (numBins : nat)
    (values : list number) :
  fold_left (count_value min binSize numBins) values TypeError = TypeError.
Proof. induction values as [|v values IH]; [reflexivity | exact IH]. Qed.

Lemma min2_same (q : Qc) : min2 (Num q) (Num q) = Num q.
Proof. simpl. destruct (Qc_ltb q q); reflexivity. Qed.

Lemma max2_same (q : Qc) : max2 (Num q) (Num q) = Num q.
Proof. simpl. destruct (Qc_ltb q q); reflexivity. Qed.

Lemma fold_min2_identical (q : Qc) (values : list number) :
  Forall (fun v => v = Num q) values ->
  fold_left min2 values (Num q) = Num q
  /\ fold_left max2 values (Num q) = Num q.
Proof.
  induction 1 as [|w values -> _ IH]; [split; reflexivity|].
  cbn [fold_left]. rewrite min2_same, max2_same. exact IH.
Qed.

Lemma Math_min_identical (q : Qc) (values : list number) :
  values <> [] -> Forall (fun v => v = Num q) values ->
  Math_min values = Num q /\ Math_max values = Num q.
Proof.
  intros NE All. destruct values as [|v values]; [congruence|].
  inversion All as [|? ? -> All']; subst.
  unfold Math_min, Math_max. cbn [fold_left].
  change (min2 PosInf (Num q)) with (Num q).
  change (max2 NegInf (Num q)) with (Num q).
  apply fold_min2_identical. exact All'.
Qed.

(** With a zero or NaN bin width the offset of a value equal to the minimum
    has no bin index. *)
Lemma degenerate_index (q : Qc) (numBins : nat) :
  as_index
    (min2 (Math_floor ((Num q - Num q)
                       / ((Num q - Num q) / of_nat numBins)))
          (of_nat numBins - of_Z 1)) = None.
Proof.
  assert (Z0 : Num q - Num q = Num 0).
  { simpl. f_equal. apply Qcplus_opp_r. }
  rewrite Z0.
  assert (B : Num 0 / of_nat numBins = Num 0 \/ Num 0 / of_nat numBins = NaN).
  { unfold of_nat, of_Z. simpl.
    destruct (Qc_eqb (Q2Qc (inject_Z (Z.of_nat numBins))) 0).
    - right. reflexivity.
    - left. f_equal. unfold Qcdiv. apply Qcmult_0_l. }
  destruct B as [-> | ->]; reflexivity.
Qed.

(** C2, at the degenerate input.  When all values of a non-empty collection
    are one and the same finite number, [createBins] does not return: the
    bin index of the first value is NaN, [bins[NaN]] is [undefined], and
    incrementing its count throws. *)
Theorem createBins_identical_values_throw
    (fmt : number -> string) (q : Qc) (values : list number) (numBins : nat) :
  values <> [] -> Forall (fun v => v = Num q) values ->
  createBins fmt values numBins = TypeError.
Proof.
  intros NE All. unfold createBins.
  destruct (Math_min_identical q values NE All) as [-> ->].
  destruct values as [|v values]; [congruence|].
  inversion All as [|? ? -> _]; subst.
  cbn [fold_left].
  assert (first_throws :
            count_value (Num q) ((Num q - Num q) / of_nat numBins) numBins
              (Ok (map (make_bin fmt (Num q)
                          ((Num q - Num q) / of_nat numBins))
                       (seq 0 numBins))) (Num q) = TypeError).
  { unfold count_value. rewrite degenerate_index. reflexivity. }
  rewrite first_throws.
  apply fold_count_value_TypeError.
Qed.

Lemma createBins_identical_values_throw_witness :
  createBins integer_to_string
    (map AMT_INCOME_TOTAL [raw_sample 100001 90000 T0]) 20 = TypeError
  /\ createBins integer_to_string [of_Z 5; of_Z 5; of_Z 5] 3 = TypeError.
Proof.
  split.
  - apply (createBins_identical_values_throw _ (Q2Qc (inject_Z 90000))).
    + discriminate.
    + repeat constructor.
  - apply (createBins_identical_values_throw _ (Q2Qc (inject_Z 5))).
    + discriminate.
    + repeat constructor.
Defined.

(** ** Rationals behind the numbers *)

Lemma this_Q2Qc (q : Q) : (this (Q2Qc q) == q)%Q.
Proof. simpl. apply Qred_correct. Qed.

Lemma this_plus (a b : Qc) : (this (a + b)%Qc == this a + this b)%Q.
Proof. apply this_Q2Qc. Qed.

Lemma this_mult (a b : Qc) : (this (a * b)%Qc == this a * this b)%Q.
Proof. apply this_Q2Qc. Qed.

Lemma this_opp (a : Qc) : (this (- a)%Qc == - this a)%Q.
Proof. apply this_Q2Qc. Qed.

Lemma this_div (a b : Qc) : (this (a / b)%Qc == this a / this b)%Q.
Proof.
  unfold Qcdiv. rewrite this_mult. unfold Qcinv. rewrite this_Q2Qc.
  reflexivity.
Qed.

(** Push a statement on canonical rationals down to plain fractions. *)
Ltac to_Q :=
  repeat first [ rewrite this_plus | rewrite this_mult | rewrite this_opp
               | rewrite this_div | rewrite this_Q2Qc ].

Lemma Qfloor_Q2Qc (q : Q) : Qfloor (Q2Qc q) = Qfloor q.
Proof. apply Qfloor_comp. apply this_Q2Qc. Qed.

Lemma Q2Qc_inject_Z_inj (a b : Z) :
  Q2Qc (inject_Z a) = Q2Qc (inject_Z b) -> a = b.
Proof.
  intro H. apply Q2Qc_eq_iff in H. unfold Qeq in H. simpl in H. lia.
Qed.

Lemma of_nat_eqb_0 (n : nat) :
  Qc_eqb (Q2Qc (inject_Z (Z.of_nat n))) 0 = (n =? 0)%nat.
Proof.
  destruct (Nat.eqb_spec n 0) as [-> | NE].
  - reflexivity.
  - destruct (Qc_eqb _ 0) eqn:E; [|reflexivity].
    apply Qc_eqb_eq in E. apply Q2Qc_inject_Z_inj in E. lia.
Qed.

(** Natural numbers are array indices. *)
Lemma as_index_of_nat (n : nat) : as_index (of_nat n) = Some n.
Proof.
  unfold as_index, of_nat, of_Z.
  rewrite Qfloor_Q2Qc, Qfloor_Z, Qc_eqb_refl.
  replace (0 <=? Z.of_nat n)%Z with true
    by (symmetry; apply Z.leb_le; lia).
  simpl. rewrite Nat2Z.id. reflexivity.
Qed.

Lemma at_index_of_nat {A} (arr : list A) (n : nat) :
  at_index arr (of_nat n) = nth_error arr n.
Proof. unfold at_index. rewrite as_index_of_nat. reflexivity. Qed.

(** [Math.floor(n * p/d)] on a natural number [n]. *)
Lemma floor_of_nat_mul_dec (n : nat) (p : Z) (d : positive) :
  Math_floor (of_nat n * dec p d) = of_Z (Z.of_nat n * p / Z.pos d).
Proof.
  unfold of_nat, of_Z, dec. cbn [mul Math_floor]. unfold of_Z.
  do 3 f_equal.
  transitivity (Qfloor (Z.of_nat n * p # d)); [|reflexivity].
  apply Qfloor_comp. to_Q.
  unfold Qmult, inject_Z, Qeq. cbn [Qnum Qden]. rewrite Pos.mul_1_l.
  reflexivity.
Qed.

(** ** Sorting *)

Section SortFacts.
Context {A : Type} (compare : A -> A -> number).

Lemma sort_insert_perm (x : A) (l : list A) :
  Permutation (sort_insert compare x l) (x :: l).
Proof.
  induction l as [|y l IH]; cbn [sort_insert]; [reflexivity|].
  destruct (compare x y >? of_Z 0); [|reflexivity].
  rewrite IH. apply perm_swap.
Qed.

Lemma Array_sort_perm (l : list A) : Permutation (Array_sort compare l) l.
Proof.
  induction l as [|x l IH]; cbn [Array_sort]; [reflexivity|].
  rewrite sort_insert_perm. constructor. exact IH.
Qed.

Lemma Array_sort_length (l : list A) :
  List.length (Array_sort compare l) = List.length l.
Proof. apply Permutation_length, Array_sort_perm. Qed.
End SortFacts.

Lemma all_finite_perm (l l' : list number) :
  Permutation l l' -> all_finite l -> all_finite l'.
Proof. intros P F. unfold all_finite. rewrite <- P. exact F. Qed.

(** On finite numbers the comparator [(a, b) => a - b] is positive exactly
    when [a] is the larger one. *)
Lemma ascending_positive (a b : Qc) :
  (ascending (Num a) (Num b) >? of_Z 0) = Qc_ltb b a.
Proof.
  unfold ascending, gt, sub. cbn [neg add lt of_Z].
  destruct (Qc_ltb b a) eqn:E.
  - apply Qc_ltb_lt. apply Qc_ltb_lt in E.
    apply Qclt_minus_iff in E. exact E.
  - apply Qc_ltb_ge. apply Qc_ltb_ge in E.
    apply Qcle_minus_iff in E.
    apply Qcopp_le_compat in E.
    replace (- (b + - a))%Qc with (a + - b)%Qc in E by ring.
    exact E.
Qed.

Lemma ascending_order_trans : Transitive ascending_order.
Proof.
  intros x y z. unfold ascending_order. apply le_trans.
Qed.

Lemma sort_insert_sorted (x : number) (l : list number) :
  is_finite x = true -> all_finite l ->
  Sorted ascending_order l ->
  Sorted ascending_order (sort_insert ascending x l).
Proof.
  intros Fx Fl S. destruct x as [a| | |]; try discriminate.
  induction S as [|y l S IH H]; cbn [sort_insert].
  - repeat constructor.
  - inversion Fl as [|? ? Fy Fl']; subst.
    destruct y as [b| | |]; try discriminate.
    rewrite ascending_positive.
    destruct (Qc_ltb b a) eqn:E.
    + constructor; [apply IH; exact Fl'|].
      destruct l as [|z l]; cbn [sort_insert].
      * constructor. unfold ascending_order. cbn [le].
        apply Qc_leb_le, Qclt_le_weak, Qc_ltb_lt, E.
      * inversion Fl' as [|? ? Fz _]; subst.
        destruct z as [c| | |]; try discriminate.
        rewrite ascending_positive.
        destruct (Qc_ltb c a).
        -- constructor. inversion H; subst. assumption.
        -- constructor. unfold ascending_order. cbn [le].
           apply Qc_leb_le, Qclt_le_weak, Qc_ltb_lt, E.
    + constructor; [constructor; assumption|].
      constructor. unfold ascending_order. cbn [le].
      apply Qc_leb_le, Qc_ltb_ge, E.
Qed.

Lemma Array_sort_sorted (l : list number) :
  all_finite l -> StronglySorted ascending_order (Array_sort ascending l).
Proof.
  intro F. apply Sorted_StronglySorted; [exact ascending_order_trans|].
  induction F as [|x l Fx F IH]; cbn [Array_sort]; [constructor|].
  apply sort_insert_sorted; [exact Fx | | exact IH].
  apply (all_finite_perm l); [|exact F].
  symmetry. apply Array_sort_perm.
Qed.

Lemma to_number_nth_error (l : list number) (k : nat) :
  to_number (nth_error l k) = nth k l NaN.
Proof.
  revert k. induction l as [|x l IH]; intros [|k]; cbn; try reflexivity.
  apply IH.
Qed.

Lemma floor_of_nat_div2 (n : nat) :
  Math_floor (of_nat n / of_Z 2) = of_nat (n / 2).
Proof.
  unfold of_nat, of_Z. cbn [div].
  replace (Qc_eqb (Q2Qc (inject_Z 2)) 0) with false by reflexivity.
  cbn [Math_floor]. unfold of_Z. do 3 f_equal.
  rewrite (Nat2Z.inj_div n 2).
  transitivity (Qfloor (Z.of_nat n # 2)); [|reflexivity].
  apply Qfloor_comp. to_Q.
  unfold Qdiv, Qmult, Qinv, inject_Z, Qeq. cbn [Qnum Qden].
  rewrite Pos.mul_1_l, Z.mul_1_r. reflexivity.
Qed.

Lemma of_nat_pred (k : nat) :
  (1 <= k)%nat -> of_nat k - of_Z 1 = of_nat (k - 1).
Proof.
  intro K. unfold of_nat, of_Z, sub. cbn [neg add]. f_equal.
  apply Qc_is_canon. to_Q.
  rewrite Nat2Z.inj_sub by exact K.
  unfold Qplus, Qopp, inject_Z, Qeq. cbn [Qnum Qden]. lia.
Qed.

Lemma quartile_indices (n : nat) :
  Math_floor (of_nat n * dec 25 100) = of_nat (n / 4)
  /\ Math_floor (of_nat n * dec 75 100) = of_nat (3 * n / 4).
Proof.
  rewrite !floor_of_nat_mul_dec. unfold of_nat. split; f_equal.
  - rewrite (Nat2Z.inj_div n 4).
    change (Z.pos 100) with (Z.of_nat 4 * 25)%Z.
    apply Z.div_mul_cancel_r; lia.
  - rewrite (Nat2Z.inj_div (3 * n) 4), Nat2Z.inj_mul.
    change (Z.pos 100) with (Z.of_nat 4 * 25)%Z.
    replace (Z.of_nat n * 75)%Z with (Z.of_nat 3 * Z.of_nat n * 25)%Z by lia.
    apply Z.div_mul_cancel_r; lia.
Qed.

(** ** Income bracketing *)

(** On numbers other than NaN the comparator [(a, b) => a - b] is positive
    exactly when [a] is the larger one. *)
Lemma ascending_positive_numbers (a b : number) :
  a <> NaN -> b <> NaN -> (ascending a b >? of_Z 0) = (b <? a).
Proof.
  intros A B.
  destruct a as [a| | |], b as [b| | |]; try congruence;
    try reflexivity.
  apply ascending_positive.
Qed.

Lemma le_total_numbers (a b : number) :
  a <> NaN -> b <> NaN ->
  (if b <? a then b <=? a else a <=? b) = true.
Proof.
  intros A B.
  destruct a as [a| | |], b as [b| | |]; try congruence;
    try reflexivity.
  cbn [lt le]. destruct (Qc_ltb b a) eqn:E.
  - apply Qc_leb_le, Qclt_le_weak, Qc_ltb_lt, E.
  - apply Qc_leb_le, Qc_ltb_ge, E.
Qed.

Lemma no_NaN_perm (l l' : list number) :
  Permutation l l' -> no_NaN l -> no_NaN l'.
Proof. intros P F. unfold no_NaN. rewrite <- P. exact F. Qed.

Lemma sort_insert_sorted_numbers (x : number) (l : list number) :
  x <> NaN -> no_NaN l ->
  Sorted ascending_order l ->
  Sorted ascending_order (sort_insert ascending x l).
Proof.
  intros Fx Fl S.
  induction S as [|y l S IH H]; cbn [sort_insert].
  - repeat constructor.
  - inversion Fl as [|? ? Fy Fl']; subst.
    rewrite (ascending_positive_numbers x y Fx Fy).
    pose proof (le_total_numbers x y Fx Fy) as T.
    destruct (y <? x) eqn:E.
    + constructor; [apply IH; exact Fl'|].
      destruct l as [|z l]; cbn [sort_insert].
      * constructor. exact T.
      * inversion Fl' as [|? ? Fz _]; subst.
        rewrite (ascending_positive_numbers x z Fx Fz).
        destruct (z <? x).
        -- constructor. inversion H; subst. assumption.
        -- constructor. exact T.
    + constructor; [constructor; assumption|].
      constructor. exact T.
Qed.

Lemma Array_sort_sorted_numbers (l : list number) :
  no_NaN l -> StronglySorted ascending_order (Array_sort ascending l).
Proof.
  intro F. apply Sorted_StronglySorted; [exact ascending_order_trans|].
  induction F as [|x l Fx F IH]; cbn [Array_sort]; [constructor|].
  apply sort_insert_sorted_numbers; [exact Fx | | exact IH].
  apply (no_NaN_perm l); [|exact F].
  symmetry. apply Array_sort_perm.
Qed.

(** C5, as stated, fails when an income is NaN.  The comparator [a - b] is
    NaN against it, which counts as 0, so the sort leaves two such incomes
    as they come: the sorted copy is not in ascending order and the labels
    depend on the order of the records.  With the incomes NaN and 90000, Q1
    is NaN and Q3 is 90000, and the record with 90000 is High; with the same
    two records the other way round Q1 is 90000 and that record is Low. *)
Lemma addIncomeBrackets_NaN_income :
  Array_sort ascending [NaN; of_Z 90000] = [NaN; of_Z 90000]
  /\ (NaN <=? of_Z 90000) = false
  /\ map INCOME_BRACKET
       (addIncomeBrackets
          [income_missing_sample 100001; raw_sample 100002 90000 T0])
     = [Some Mid; Some High]
  /\ map INCOME_BRACKET
       (addIncomeBrackets
          [raw_sample 100002 90000 T0; income_missing_sample 100001])
     = [Some Low; Some Mid].
Proof. repeat split; vm_compute; reflexivity. Qed.

(** C5, amended.  [addIncomeBrackets] works on the whole collection it is
    given.  There is an arrangement [sorted] of the incomes of all records
    (the sorted copy), in ascending order when no income is NaN, such that
    the record at each position comes back with every other field unchanged
    and with [INCOME_BRACKET] set to the label of its income against
    Q1 = sorted[floor(n * 0.25)] and Q3 = sorted[floor(n * 0.75)], elements
    of the sorted copy, nothing interpolated: Low when the income is at most
    Q1, otherwise High when it is at least Q3, otherwise Mid. *)
Theorem addIncomeBrackets_quartiles (records : list HomeCreditRecord) :
  exists sorted,
    Permutation sorted (map AMT_INCOME_TOTAL records)
    /\ (no_NaN (map AMT_INCOME_TOTAL records) ->
        StronglySorted ascending_order sorted)
    /\ List.length (addIncomeBrackets records) = List.length records
    /\ forall i r,
         nth_error records i = Some r ->
         exists labelled,
           nth_error (addIncomeBrackets records) i = Some labelled
           /\ INCOME_BRACKET labelled
              = Some (quartile_label sorted (AMT_INCOME_TOTAL r))
           /\ raw_fields labelled = raw_fields r
           /\ derived_numeric labelled = derived_numeric r.
Proof.
  exists (Array_sort ascending (map AMT_INCOME_TOTAL records)).
  split; [apply Array_sort_perm|].
  split; [apply Array_sort_sorted_numbers|].
  assert (E : addIncomeBrackets records
              = map (fun record =>
                       with_INCOME_BRACKET record
                         (quartile_label
                            (Array_sort ascending
                               (map AMT_INCOME_TOTAL records))
                            (AMT_INCOME_TOTAL record)))
                    records).
  { unfold addIncomeBrackets.
    destruct (quartile_indices
                (List.length
                   (Array_sort ascending (map AMT_INCOME_TOTAL records))))
      as [-> ->].
    rewrite !at_index_of_nat.
    apply map_ext. intro r. f_equal.
    unfold bracket_of, quartile_label.
    rewrite !to_number_nth_error. reflexivity. }
  rewrite E. split; [apply length_map|].
  intros i r H. eexists. split.
  - rewrite nth_error_map, H. reflexivity.
  - repeat split.
Qed.

Lemma addIncomeBrackets_quartiles_witness :
  exists sorted,
    Permutation sorted (map AMT_INCOME_TOTAL raw_samples)
    /\ (no_NaN (map AMT_INCOME_TOTAL raw_samples) ->
        StronglySorted ascending_order sorted)
    /\ List.length (addIncomeBrackets raw_samples)
       = List.length raw_samples
    /\ forall i r,
         nth_error raw_samples i = Some r ->
         exists labelled,
           nth_error (addIncomeBrackets raw_samples) i = Some labelled
           /\ INCOME_BRACKET labelled
              = Some (quartile_label sorted (AMT_INCOME_TOTAL r))
           /\ raw_fields labelled = raw_fields r
           /\ derived_numeric labelled = derived_numeric r.
Proof.
  apply (addIncomeBrackets_quartiles raw_samples).
Defined.

(** The four sample applicants, with incomes 90000, 250000, 120000 and
    600000: Q1 is 120000 and Q3 is 600000, and the labels are Low, Mid, Low
    and High. *)
Lemma addIncomeBrackets_sample_labels :
  map AMT_INCOME_TOTAL raw_samples
  = [of_Z 90000; of_Z 250000; of_Z 120000; of_Z 600000]
  /\ map INCOME_BRACKET (addIncomeBrackets raw_samples)
     = [Some Low; Some Mid; Some Low; Some High].
Proof. split; vm_compute; reflexivity. Qed.

(** ** Mean and median *)

Lemma length_eqb_0 {A} (l : list A) :
  (List.length l =? 0)%nat = true <-> l = [].
Proof.
  destruct l; cbn; split; congruence.
Qed.

Lemma mean_None_iff (values : list number) :
  mean values = None <-> values = [].
Proof.
  unfold mean. destruct values; cbn [List.length Nat.eqb]; split; congruence.
Qed.

Lemma median_None_iff (values : list number) :
  median values = None <-> values = [].
Proof.
  unfold median. destruct values as [|v values];
    cbn [List.length Nat.eqb]; [split; congruence|].
  destruct (Nat.even _); split; congruence.
Qed.

Lemma fold_add_finite (values : list number) (q : Qc) :
  all_finite values -> exists s, fold_left add values (Num q) = Num s.
Proof.
  intro F. revert q.
  induction F as [|v values Fv _ IH]; intro q; cbn [fold_left].
  - exists q. reflexivity.
  - destruct v as [a| | |]; try discriminate. apply IH.
Qed.

Lemma div_of_nat_finite (s : Qc) (n : nat) :
  n <> 0%nat ->
  of_nat n <> Num 0
  /\ Num s / of_nat n = Num (s / Q2Qc (inject_Z (Z.of_nat n))).
Proof.
  intro NZ. unfold of_nat, of_Z. cbn [div].
  rewrite of_nat_eqb_0.
  destruct (Nat.eqb_spec n 0); [contradiction|].
  split; [|reflexivity].
  intro H.
  assert (H' : Q2Qc (inject_Z (Z.of_nat n)) = Q2Qc (inject_Z 0)).
  { change (match Num (Q2Qc (inject_Z (Z.of_nat n))) with
            | Num q => q | _ => Q2Qc (inject_Z 0) end
            = Q2Qc (inject_Z 0)).
    rewrite H. reflexivity. }
  apply Q2Qc_inject_Z_inj in H'. lia.
Qed.

Lemma mean_finite (values : list number) :
  values <> [] -> all_finite values -> exists m, mean values = Some (Num m).
Proof.
  intros NE F. unfold mean.
  destruct (List.length values =? 0)%nat eqn:E.
  - apply length_eqb_0 in E. contradiction.
  - destruct (fold_add_finite values (Q2Qc (inject_Z 0)) F) as [s Hs].
    unfold sum, of_Z at 1. rewrite Hs.
    apply Nat.eqb_neq in E.
    destruct (div_of_nat_finite s _ E) as [_ ->].
    eexists. reflexivity.
Qed.

Lemma nth_finite (l : list number) (k : nat) :
  all_finite l -> (k < List.length l)%nat -> is_finite (nth k l NaN) = true.
Proof.
  intros F K. unfold all_finite in F. rewrite Forall_forall in F.
  apply F. apply nth_In. exact K.
Qed.

(** [median] is [median_of_sorted] of the sorted copy. *)
Lemma median_sorted_copy (values : list number) :
  values <> [] ->
  median values = Some (median_of_sorted (Array_sort ascending values)).
Proof.
  intro NE. unfold median, median_of_sorted.
  destruct (List.length values =? 0)%nat eqn:E.
  { apply length_eqb_0 in E. contradiction. }
  apply Nat.eqb_neq in E. rewrite <- (Array_sort_length ascending) in E.
  set (sorted := Array_sort ascending values) in *.
  rewrite floor_of_nat_div2, <- Nat.negb_even.
  destruct (Nat.even (List.length sorted)) eqn:Ev; cbn [negb].
  - assert (K : (1 <= List.length sorted / 2)%nat).
    { apply Nat.even_spec in Ev. destruct Ev as [k Hk]. rewrite Hk in *.
      rewrite Nat.mul_comm, Nat.div_mul by lia. lia. }
    rewrite (of_nat_pred _ K), !at_index_of_nat, !to_number_nth_error.
    reflexivity.
  - rewrite at_index_of_nat, to_number_nth_error. reflexivity.
Qed.

Lemma median_of_sorted_finite (sorted : list number) :
  sorted <> [] -> all_finite sorted ->
  is_finite (median_of_sorted sorted) = true.
Proof.
  intros NE F. unfold median_of_sorted.
  assert (L : (0 < List.length sorted)%nat).
  { destruct sorted; [congruence | cbn; lia]. }
  assert (H2 : (List.length sorted / 2 < List.length sorted)%nat).
  { apply Nat.div_lt; lia. }
  destruct (Nat.odd (List.length sorted)).
  - apply nth_finite; assumption.
  - pose proof (nth_finite sorted (List.length sorted / 2 - 1) F) as A.
    pose proof (nth_finite sorted (List.length sorted / 2) F H2) as B.
    destruct (nth (List.length sorted / 2 - 1) sorted NaN);
      [|discriminate A; lia ..].
    destruct (nth (List.length sorted / 2) sorted NaN); try discriminate B.
    reflexivity.
Qed.

Lemma running_sum_fold (values : list number) (acc : number) :
  running_sum acc values = fold_left add values acc.
Proof.
  revert acc. induction values as [|v values IH]; intro acc;
    [reflexivity|].
  cbn [running_sum fold_left]. apply IH.
Qed.




(** ** Sums, variance and covariance over rationals *)

Section Sums.
Local Open Scope Qc_scope.

Lemma Qc_square_nonneg (a : Qc) : 0 <= a * a.
Proof. unfold Qcle. to_Q. nra. Qed.

Lemma Qc_sum_nonneg (a b : Qc) : 0 <= a -> 0 <= b -> 0 <= a + b.
Proof. unfold Qcle. to_Q. lra. Qed.

Lemma Qc_mult_nonneg (a b : Qc) : 0 <= a -> 0 <= b -> 0 <= a * b.
Proof. unfold Qcle. to_Q. nra. Qed.

Lemma Qc_of_nat_S (n : nat) : Qc_of_nat (S n) = Qc_of_nat n + 1.
Proof.
  unfold Qc_of_nat. apply Qc_is_canon. to_Q.
  rewrite Nat2Z.inj_succ. unfold Z.succ. rewrite inject_Z_plus.
  reflexivity.
Qed.

Lemma fold_left_total {A} (f : A -> Qc) (l : list A) (a : Qc) :
  fold_left (fun s p => s + f p) l a = a + total f l.
Proof.
  revert a. induction l as [|p l IH]; intro a; cbn [fold_left total].
  - ring.
  - rewrite IH. ring.
Qed.

Lemma total_nonneg {A} (f : A -> Qc) (l : list A) :
  (forall p, 0 <= f p) -> 0 <= total f l.
Proof.
  intro H. induction l; cbn [total]; [apply Qcle_refl|].
  apply Qc_sum_nonneg; auto.
Qed.

(** Adding one pair adds the squared distances to the pairs already
    there. *)
Lemma spread_cons (f : Qc * Qc -> Qc) (p : Qc * Qc) (l : list (Qc * Qc)) :
  spread f (p :: l)
  = spread f l + total (fun r => (f p - f r) * (f p - f r)) l.
Proof.
  unfold spread. cbn [List.length total]. rewrite Qc_of_nat_S.
  assert (E : total (fun r => (f p - f r) * (f p - f r)) l
              = Qc_of_nat (List.length l) * (f p * f p)
                - (1 + 1) * f p * total f l
                + total (fun r => f r * f r) l).
  { induction l as [|r l IH]; cbn [total List.length].
    - change (Qc_of_nat 0) with (Q2Qc 0). ring.
    - rewrite IH, Qc_of_nat_S. ring. }
  rewrite E. ring.
Qed.

Lemma spread_nil (f : Qc * Qc -> Qc) : spread f [] = 0.
Proof.
  unfold spread. cbn [List.length total].
  change (Qc_of_nat 0) with (Q2Qc 0). ring.
Qed.

Lemma spread_nonneg (f : Qc * Qc -> Qc) (l : list (Qc * Qc)) :
  0 <= spread f l.
Proof.
  induction l as [|p l IH].
  - rewrite spread_nil. apply Qcle_refl.
  - rewrite spread_cons. apply Qc_sum_nonneg; [exact IH|].
    apply total_nonneg. intro r. apply Qc_square_nonneg.
Qed.

Lemma spread_constant (f : Qc * Qc -> Qc) (l : list (Qc * Qc)) (c : Qc) :
  (forall p, In p l -> f p = c) -> spread f l = 0.
Proof.
  induction l as [|p l IH]; intro H; [apply spread_nil|].
  rewrite spread_cons, IH by (intros; apply H; right; assumption).
  assert (Hp : f p = c) by (apply H; left; reflexivity).
  assert (Hl : forall r, In r l -> f r = c)
    by (intros; apply H; right; assumption).
  assert (T : total (fun r => (f p - f r) * (f p - f r)) l = 0).
  { clear IH H. induction l as [|r l IH]; cbn [total]; [reflexivity|].
    rewrite IH by (intros; apply Hl; right; assumption).
    rewrite Hp, (Hl r) by (left; reflexivity). ring. }
  rewrite T. ring.
Qed.
End Sums.

(** ** Pearson correlation *)

Lemma Num_inj (a b : Qc) : Num a = Num b -> a = b.
Proof.
  intro H.
  change (match Num a with Num q => q | _ => b end = b).
  rewrite H. reflexivity.
Qed.

Lemma finite_pairs_lift (pairs : list (number * number)) :
  Forall (fun p => is_finite (fst p) = true /\ is_finite (snd p) = true)
         pairs ->
  exists qs, pairs = map lift qs.
Proof.
  induction 1 as [|[x y] pairs [Fx Fy] _ [qs ->]].
  - exists []. reflexivity.
  - cbn [fst snd] in Fx, Fy.
    destruct x as [a| | |]; try discriminate.
    destruct y as [b| | |]; try discriminate.
    exists ((a, b) :: qs). reflexivity.
Qed.

Lemma fold_lift (f : number * number -> number) (g : Qc * Qc -> Qc)
    (qs : list (Qc * Qc)) (a : Qc) :
  (forall p, f (lift p) = Num (g p)) ->
  fold_left (fun sum p => sum + f p) (map lift qs) (Num a)
  = Num (a + total g qs)%Qc.
Proof.
  intro H. rewrite <- fold_left_total. revert a.
  induction qs as [|p qs IH]; intro a; cbn [map fold_left]; [reflexivity|].
  rewrite H. cbn [add]. apply IH.
Qed.

Lemma numerical_field_value (field : string) (r : HomeCreditRecord) :
  In field numericalFields ->
  field_value r field = VUndefined \/ exists v, field_value r field = VNumber v.
Proof.
  unfold numericalFields. intro Hin.
  repeat (destruct Hin as [<- | Hin];
          [cbv [field_value String.eqb Ascii.eqb Bool.eqb optional_number];
           try (right; eexists; reflexivity);
           match goal with
           | |- context [match ?o with Some _ => _ | None => _ end] =>
               destruct o; [right; eexists; reflexivity | left; reflexivity]
           end|]).
  destruct Hin.
Qed.

Lemma pearson_numerator_lift (qs : list (Qc * Qc)) :
  pearson_numerator (map lift qs) = Num (cospread qs).
Proof.
  unfold pearson_numerator. rewrite length_map.
  assert (SX : fold_left (fun sum p => sum + fst p) (map lift qs) (of_Z 0)
               = Num (0 + total fst qs)%Qc)
    by (apply (fold_lift fst fst); reflexivity).
  assert (SY : fold_left (fun sum p => sum + snd p) (map lift qs) (of_Z 0)
               = Num (0 + total snd qs)%Qc)
    by (apply (fold_lift snd snd); reflexivity).
  assert (SXY : fold_left (fun sum p => sum + fst p * snd p)
                  (map lift qs) (of_Z 0)
                = Num (0 + total (fun p => fst p * snd p)%Qc qs)%Qc)
    by (apply (fold_lift (fun p => fst p * snd p)
                 (fun p => fst p * snd p)%Qc); reflexivity).
  rewrite SX, SY, SXY. unfold of_nat, of_Z. cbn [mul sub add neg].
  f_equal. unfold cospread, Qc_of_nat. ring.
Qed.

Lemma pearson_denominator_lift
    (Math_sqrt : number -> number) (qs : list (Qc * Qc)) :
  pearson_denominator Math_sqrt (map lift qs)
  = Math_sqrt (Num (spread fst qs * spread snd qs)%Qc).
Proof.
  unfold pearson_denominator. rewrite length_map.
  assert (SX : fold_left (fun sum p => sum + fst p) (map lift qs) (of_Z 0)
               = Num (0 + total fst qs)%Qc)
    by (apply (fold_lift fst fst); reflexivity).
  assert (SY : fold_left (fun sum p => sum + snd p) (map lift qs) (of_Z 0)
               = Num (0 + total snd qs)%Qc)
    by (apply (fold_lift snd snd); reflexivity).
  assert (SXX : fold_left (fun sum p => sum + fst p * fst p)
                  (map lift qs) (of_Z 0)
                = Num (0 + total (fun p => fst p * fst p)%Qc qs)%Qc)
    by (apply (fold_lift (fun p => fst p * fst p)
                 (fun p => fst p * fst p)%Qc); reflexivity).
  assert (SYY : fold_left (fun sum p => sum + snd p * snd p)
                  (map lift qs) (of_Z 0)
                = Num (0 + total (fun p => snd p * snd p)%Qc qs)%Qc)
    by (apply (fold_lift (fun p => snd p * snd p)
                 (fun p => snd p * snd p)%Qc); reflexivity).
  rewrite SX, SY, SXX, SYY. unfold of_nat, of_Z. cbn [mul sub add neg].
  do 2 f_equal. unfold spread, Qc_of_nat. ring.
Qed.

Lemma rational_sqrt_contract : sqrt_contract rational_sqrt.
Proof.
  split; [num_eq|].
  intros q Hq. unfold rational_sqrt.
  replace (Qc_ltb q 0) with false
    by (symmetry; apply Qc_ltb_ge, Qclt_le_weak, Hq).
  eexists. split; [reflexivity|].
  unfold Qclt in *.
  change (this (Q2Qc 0)) with 0%Q in *. rewrite this_Q2Qc.
  destruct q as [[n d] c]. cbn [this Qnum Qden] in *.
  unfold Qlt in *. cbn [Qnum Qden] in *.
  rewrite Z.mul_1_r in *. cbn [Z.mul] in *.
  apply Z.sqrt_pos. lia.
Qed.

(** ** The correlation against the product-moment formula *)

Lemma series_fold (f : number * number -> number)
    (samples : list (number * number)) (acc : number) :
  series f acc samples = fold_left (fun sum p => sum + f p) samples acc.
Proof.
  revert acc. induction samples as [|p samples IH]; intro acc;
    [reflexivity|].
  cbn [series fold_left]. apply IH.
Qed.

Lemma product_moment_numerator_code (samples : list (number * number)) :
  product_moment_numerator samples = pearson_numerator samples.
Proof.
  unfold product_moment_numerator, pearson_numerator.
  rewrite !series_fold. reflexivity.
Qed.

Lemma product_moment_denominator_code
    (Math_sqrt : number -> number) (samples : list (number * number)) :
  product_moment_denominator Math_sqrt samples
  = pearson_denominator Math_sqrt samples.
Proof.
  unfold product_moment_denominator, pearson_denominator.
  rewrite !series_fold. reflexivity.
Qed.

Lemma paired_samples_code (Number_of_string : string -> number)
    (data : list HomeCreditRecord) (field1 field2 : string) :
  paired_samples Number_of_string data field1 field2
  = valid_pairs Number_of_string data field1 field2.
Proof.
  unfold valid_pairs.
  induction data as [|r data IH]; [reflexivity|].
  cbn [paired_samples filter].
  destruct (field_value r field1) eqn:E1, (field_value r field2) eqn:E2;
    cbn [not_nullish andb map]; rewrite ?E1, ?E2, IH; reflexivity.
Qed.

Section CorrelationContract.

Variable Math_sqrt : number -> number.
Variable Number_of_string : string -> number.
Hypothesis sqrt_ok : sqrt_contract Math_sqrt.

(** With a variable that is constant at a whole number and another that is
    finite, the denominator is 0. *)
Lemma constant_variable_denominator
    (samples : list (number * number)) (c : Z) :
  ((forall p, In p samples -> fst p = of_Z c)
   /\ (forall p, In p samples -> exists y, snd p = Num y))
  \/ ((forall p, In p samples -> snd p = of_Z c)
      /\ (forall p, In p samples -> exists x, fst p = Num x)) ->
  pearson_denominator Math_sqrt samples = Num 0.
Proof.
  intro H.
  assert (Fin : Forall (fun p => is_finite (fst p) = true
                                 /\ is_finite (snd p) = true) samples).
  { apply Forall_forall. intros p Hp.
    destruct H as [[C O] | [C O]]; rewrite (C p Hp);
      destruct (O p Hp) as [y ->]; split; reflexivity. }
  destruct (finite_pairs_lift samples Fin) as [qs ->].
  rewrite pearson_denominator_lift.
  assert (Z : (spread fst qs * spread snd qs)%Qc = 0%Qc).
  { destruct H as [[C _] | [C _]].
    - rewrite (spread_constant fst qs (Q2Qc (inject_Z c))); [ring|].
      intros p Hp. apply Num_inj.
      exact (C (lift p) (in_map lift _ _ Hp)).
    - rewrite (spread_constant snd qs (Q2Qc (inject_Z c))); [ring|].
      intros p Hp. apply Num_inj.
      exact (C (lift p) (in_map lift _ _ Hp)). }
  rewrite Z. apply sqrt_ok.
Qed.


End CorrelationContract.



(** ** The generator reads nothing but its draws *)

Lemma det_ret {A} (a : A) : reads_only_its_draws (fun _ => ret a).
Proof.
  intros s1 i a' k H. unfold ret in *. injection H as <- <-.
  split; [lia | reflexivity].
Qed.

Lemma det_random : reads_only_its_draws Math_random.
Proof.
  intros s1 i a k H. unfold Math_random in *. injection H as <- <-.
  split; [lia|]. intros s2 Ag. rewrite (Ag i) by lia. reflexivity.
Qed.

Lemma det_diverge {A} : reads_only_its_draws (fun _ => @diverge A).
Proof. intros s1 i a k H. discriminate. Qed.

Lemma det_bind {A B}
    (m : (nat -> Qc) -> Rand A) (f : A -> (nat -> Qc) -> Rand B) :
  reads_only_its_draws m -> (forall a, reads_only_its_draws (f a)) ->
  reads_only_its_draws (fun s => bind (m s) (fun a => f a s)).
Proof.
  intros Hm Hf s1 i b k H. unfold bind in *.
  destruct (m s1 i) as [[a j]|] eqn:E; [|discriminate].
  destruct (Hm _ _ _ _ E) as [L1 D1].
  destruct (Hf a _ _ _ _ H) as [L2 D2].
  split; [lia|]. intros s2 Ag.
  rewrite (D1 s2) by (intros x X; apply Ag; lia).
  apply D2. intros x X; apply Ag; lia.
Qed.

Ltac det_step :=
  match goal with
  | |- reads_only_its_draws (fun s => if ?c then _ else _) => destruct c
  | |- reads_only_its_draws (fun s => bind _ _) =>
      apply (det_bind _ (fun a s => _)); [|intro]
  end.

Ltac det := repeat first [ apply det_ret | apply det_random
                         | apply det_diverge | det_step ].

Lemma det_randomIncome exp : reads_only_its_draws (randomIncome exp).
Proof. unfold randomIncome. cbv zeta. det. Qed.

Lemma det_randomAge_loop fuel :
  reads_only_its_draws (fun s => randomAge_loop s fuel).
Proof.
  induction fuel as [|fuel IH]; cbn [randomAge_loop]; [det|].
  cbv zeta. det. exact IH.
Qed.

Lemma det_randomAge fuel : reads_only_its_draws (fun s => randomAge s fuel).
Proof.
  unfold randomAge.
  apply (det_bind _ (fun a s => _)); [apply det_randomAge_loop|intro]. det.
Qed.

Lemma det_randomCredit income :
  reads_only_its_draws (fun s => randomCredit s income).
Proof. unfold randomCredit. cbv zeta. det. Qed.

Lemma det_pick arr : reads_only_its_draws (fun s => pick s arr).
Proof. unfold pick. det. Qed.

Ltac det_record :=
  repeat first [ apply det_ret | apply det_random | apply det_randomIncome
               | apply det_randomAge | apply det_randomCredit
               | apply det_pick | det_step ].

Lemma det_generateRecord exp fuel i :
  reads_only_its_draws (fun s => generateRecord exp s fuel i).
Proof. unfold generateRecord. cbv zeta. det_record. Qed.

Lemma det_generateLoop exp fuel todo : forall i records,
  reads_only_its_draws (fun s => generateLoop exp s fuel todo i records).
Proof.
  induction todo as [|todo IH]; intros i records; cbn [generateLoop]; [det|].
  apply (det_bind _ (fun a s => _)); [apply det_generateRecord|intro].
  apply IH.
Qed.

Lemma det_generateCompleteDataset exp fuel n :
  reads_only_its_draws (fun s => generateCompleteDataset exp s fuel n).
Proof.
  unfold generateCompleteDataset, generateSyntheticData. cbv zeta.
  apply (det_bind _ (fun a s => _)); [apply det_generateLoop|intro]. det.
Qed.

(** ** The generator returns *)

Lemma returns_ret {A} (a : A) : returns (ret a).
Proof. intro i. exists a, i. reflexivity. Qed.

Lemma returns_random (source : nat -> Qc) : returns (Math_random source).
Proof. intro i. eexists _, _. reflexivity. Qed.

Lemma returns_bind {A B} (m : Rand A) (f : A -> Rand B) :
  returns m -> (forall a, returns (f a)) -> returns (bind m f).
Proof.
  intros Hm Hf i. unfold bind.
  destruct (Hm i) as [a [j ->]]. apply Hf.
Qed.

Ltac returns_step :=
  match goal with
  | |- returns (if ?c then _ else _) => destruct c
  | |- returns (bind _ _) => apply returns_bind; [|intro]
  end.

Section Termination.

Variable Math_exp : number -> number.
Variable source : nat -> Qc.
Hypothesis source_range : in_unit_interval source.

(** With draws in [0, 1) the first candidate age lies in [30, 54): the
    rejection loop of [randomAge] runs its body once. *)
Lemma randomAge_loop_once (fuel i : nat) :
  randomAge_loop source (S fuel) i
  = Some (of_Z 42 + of_Z 12 * (Num (source i) + Num (source (S i)) - of_Z 1),
          S (S i)).
Proof.
  cbn [randomAge_loop]. unfold bind, Math_random. cbv zeta.
  destruct (source_range i) as [L1 U1].
  destruct (source_range (S i)) as [L2 U2].
  set (age := of_Z 42 + of_Z 12
                        * (Num (source i) + Num (source (S i)) - of_Z 1)).
  assert (R : (age <? of_Z 18) = false /\ (age >? of_Z 80) = false).
  { subst age. unfold of_Z, gt, sub. cbn [neg add mul lt].
    unfold Qcle, Qclt in *. change (this (Q2Qc 0)) with 0%Q in *.
    change (this (Q2Qc 1)) with 1%Q in *.
    split; apply Qc_ltb_ge; unfold Qcle; to_Q; unfold inject_Z; lra. }
  destruct R as [-> ->]. reflexivity.
Qed.

Lemma randomAge_fuel (fuel fuel' i : nat) :
  randomAge source (S fuel) i = randomAge source (S fuel') i.
Proof.
  unfold randomAge, bind. rewrite !randomAge_loop_once. reflexivity.
Qed.

Lemma returns_randomAge (fuel : nat) : returns (randomAge source (S fuel)).
Proof.
  intro i. unfold randomAge, bind. rewrite randomAge_loop_once.
  eexists _, _. reflexivity.
Qed.

Lemma returns_randomIncome : returns (randomIncome Math_exp source).
Proof.
  unfold randomIncome. cbv zeta.
  repeat first [ apply returns_ret | apply returns_random | returns_step ].
Qed.

Lemma returns_randomCredit (income : number) :
  returns (randomCredit source income).
Proof.
  unfold randomCredit. cbv zeta.
  repeat first [ apply returns_ret | apply returns_random | returns_step ].
Qed.

Lemma returns_pick (arr : list string) : returns (pick source arr).
Proof.
  unfold pick.
  repeat first [ apply returns_ret | apply returns_random | returns_step ].
Qed.

Lemma returns_generateRecord (fuel i : nat) :
  returns (generateRecord Math_exp source (S fuel) i).
Proof.
  unfold generateRecord. cbv zeta.
  repeat first [ apply returns_ret | apply returns_random
               | apply returns_randomAge | apply returns_randomIncome
               | apply returns_randomCredit | apply returns_pick
               | returns_step ].
Qed.

Lemma generateRecord_fuel (fuel fuel' idx i : nat) :
  generateRecord Math_exp source (S fuel) idx i
  = generateRecord Math_exp source (S fuel') idx i.
Proof.
  unfold generateRecord. unfold bind at 1. symmetry. unfold bind at 1.
  rewrite (randomAge_fuel fuel' fuel). reflexivity.
Qed.

Lemma generateLoop_fuel (fuel fuel' todo : nat) :
  forall idx records i,
    generateLoop Math_exp source (S fuel) todo idx records i
    = generateLoop Math_exp source (S fuel') todo idx records i.
Proof.
  induction todo as [|todo IH]; intros idx records i;
    cbn [generateLoop]; [reflexivity|].
  unfold bind. rewrite (generateRecord_fuel fuel fuel').
  destruct (generateRecord Math_exp source (S fuel') idx i) as [[r j]|];
    [apply IH | reflexivity].
Qed.

(** The loop returns, with one record more per iteration. *)
Lemma generateLoop_returns (fuel todo : nat) :
  forall idx records i,
  exists out k,
    generateLoop Math_exp source (S fuel) todo idx records i = Some (out, k)
    /\ List.length out = (List.length records + todo)%nat.
Proof.
  induction todo as [|todo IH]; intros idx records i; cbn [generateLoop].
  - exists records, i. split; [reflexivity | lia].
  - unfold bind.
    destruct (returns_generateRecord fuel idx i) as [r [j ->]].
    destruct (IH (S idx) (records ++ [r])%list j) as [out [k [-> L]]].
    exists out, k. split; [reflexivity|].
    rewrite L, length_app. cbn. lia.
Qed.

End Termination.

Lemma generateCompleteDataset_fuel
    (Math_exp : number -> number) (source : nat -> Qc)
    (fuel fuel' numRecords i : nat) :
  in_unit_interval source ->
  generateCompleteDataset Math_exp source (S fuel) numRecords i
  = generateCompleteDataset Math_exp source (S fuel') numRecords i.
Proof.
  intro R. unfold generateCompleteDataset, generateSyntheticData, bind.
  rewrite (generateLoop_fuel Math_exp source R fuel fuel'). reflexivity.
Qed.

Lemma addIncomeBrackets_length (records : list HomeCreditRecord) :
  List.length (addIncomeBrackets (preprocessData records))
  = List.length records.
Proof.
  unfold addIncomeBrackets, preprocessData. rewrite !length_map. reflexivity.
Qed.

(** C3.  A run of the full pipeline is determined by the record count and
    the values its calls of [Math.random()] return, which is what a seed
    fixes.  With draws in [0, 1) the run returns [numRecords] records after
    [k] calls, and every other run with the same record count whose first
    [k] draws are the same returns the identical record sequence, hence the
    identical target sequence. *)
Theorem generateCompleteDataset_deterministic
    (Math_exp : number -> number) (seeded : nat -> Qc)
    (fuel numRecords : nat) :
  in_unit_interval seeded ->
  exists records k,
    generateCompleteDataset Math_exp seeded (S fuel) numRecords 0%nat
    = Some (records, k)
    /\ List.length records = numRecords
    /\ forall rerun fuel',
         agree 0 k seeded rerun ->
         generateCompleteDataset Math_exp rerun (S fuel') numRecords 0%nat
         = Some (records, k)
         /\ forall records' k',
              generateCompleteDataset Math_exp rerun (S fuel') numRecords 0%nat
              = Some (records', k') ->
              records' = records
              /\ map TARGET records' = map TARGET records.
Proof.
  intro R.
  destruct (generateLoop_returns
              Math_exp seeded R fuel numRecords 0%nat [] 0%nat)
    as [raw [k [G L]]].
  exists (addIncomeBrackets (preprocessData raw)), k.
  assert (Run : forall fuel0,
             generateCompleteDataset Math_exp seeded (S fuel0) numRecords 0%nat
             = Some (addIncomeBrackets (preprocessData raw), k)).
  { intro fuel0.
    rewrite (generateCompleteDataset_fuel Math_exp seeded fuel0 fuel _ _ R).
    unfold generateCompleteDataset, generateSyntheticData, bind.
    rewrite G. reflexivity. }
  split; [apply Run|].
  split; [rewrite addIncomeBrackets_length; exact L|].
  intros rerun fuel' Ag.
  destruct (det_generateCompleteDataset Math_exp (S fuel') numRecords
              seeded 0%nat _ k (Run fuel')) as [_ Same].
  specialize (Same rerun Ag).
  split; [exact Same|].
  intros records' k' H. rewrite Same in H.
  assert (E : records' = addIncomeBrackets (preprocessData raw)).
  { change (fst (records', k')
            = fst (addIncomeBrackets (preprocessData raw), k)).
    assert (P : Some (records', k')
                = Some (addIncomeBrackets (preprocessData raw), k))
      by (symmetry; exact H).
    change (match Some (records', k') with
            | Some p => fst p
            | None => records'
            end = fst (addIncomeBrackets (preprocessData raw), k)).
    rewrite P. reflexivity. }
  split; [exact E | rewrite E; reflexivity].
Qed.

Lemma sample_source_range : in_unit_interval sample_source.
Proof.
  intro j. unfold sample_source, Qcle, Qclt.
  change (this (Q2Qc 0)) with 0%Q. change (this (Q2Qc 1)) with 1%Q.
  rewrite !this_Q2Qc. unfold Qle, Qlt. cbn [Qnum Qden].
  pose proof (Nat.mod_upper_bound (j * 37 + 11) 100). lia.
Qed.

Lemma generateCompleteDataset_deterministic_witness :
  exists records k,
    generateCompleteDataset exp_polynomial sample_source 1%nat 3%nat 0%nat
    = Some (records, k)
    /\ List.length records = 3%nat
    /\ forall rerun fuel',
         agree 0 k sample_source rerun ->
         generateCompleteDataset exp_polynomial rerun (S fuel') 3%nat 0%nat
         = Some (records, k)
         /\ forall records' k',
              generateCompleteDataset exp_polynomial rerun (S fuel') 3%nat 0%nat
              = Some (records', k') ->
              records' = records
              /\ map TARGET records' = map TARGET records.
Proof.
  apply (generateCompleteDataset_deterministic
           exp_polynomial sample_source 0%nat 3%nat).
  exact sample_source_range.
Defined.

(** ** Uniform picks stay inside the array *)

Lemma as_index_of_Z (z : Z) :
  (0 <= z)%Z -> as_index (of_Z z) = Some (Z.to_nat z).
Proof.
  intro P. unfold as_index, of_Z.
  rewrite Qfloor_Q2Qc, Qfloor_Z, Qc_eqb_refl.
  replace (0 <=? z)%Z with true by (symmetry; apply Z.leb_le; exact P).
  reflexivity.
Qed.

(** [Math.floor(r * n)] for [r] in [0, 1) is one of 0, ..., n - 1. *)
Lemma floor_scaled_draw (r : Qc) (n : nat) :
  (0 <= r)%Qc -> (r < 1)%Qc -> (0 < n)%nat ->
  exists k, (k < n)%nat /\ Math_floor (Num r * of_nat n) = of_nat k.
Proof.
  intros L U N. unfold of_nat at 1, of_Z. cbn [mul Math_floor].
  set (y := (r * Q2Qc (inject_Z (Z.of_nat n)))%Qc).
  unfold Qcle, Qclt in L, U.
  change (this (Q2Qc 0)) with 0%Q in L. change (this (Q2Qc 1)) with 1%Q in U.
  assert (Y : (this y == this r * inject_Z (Z.of_nat n))%Q)
    by (subst y; to_Q; reflexivity).
  assert (Npos : (0 < inject_Z (Z.of_nat n))%Q)
    by (change 0%Q with (inject_Z 0); rewrite <- Zlt_Qlt; lia).
  assert (Y0 : (0 <= this y)%Q) by (rewrite Y; nra).
  assert (Y1 : (this y < inject_Z (Z.of_nat n))%Q) by (rewrite Y; nra).
  assert (F0 : (0 <= Qfloor y)%Z).
  { change 0%Z with (Qfloor 0). apply Qfloor_resp_le. exact Y0. }
  assert (F1 : (Qfloor y < Z.of_nat n)%Z).
  { rewrite Zlt_Qlt. apply Qle_lt_trans with (this y); [apply Qfloor_le|].
    exact Y1. }
  exists (Z.to_nat (Qfloor y)). split; [lia|].
  unfold of_nat. rewrite Z2Nat.id by exact F0. reflexivity.
Qed.

Lemma pick_in_range (source : nat -> Qc) (arr : list string) (i : nat) :
  in_unit_interval source -> arr <> [] ->
  exists s, pick source arr i = Some (s, S i) /\ In s arr.
Proof.
  intros R NE. unfold pick, bind, Math_random, ret.
  destruct (R i) as [L U].
  assert (N : (0 < List.length arr)%nat)
    by (destruct arr; [congruence | cbn; lia]).
  destruct (floor_scaled_draw _ _ L U N) as [k [K ->]].
  rewrite at_index_of_nat.
  destruct (nth_error arr k) as [s|] eqn:E.
  - exists s. split; [reflexivity|]. apply (nth_error_In _ _ E).
  - apply nth_error_None in E. lia.
Qed.

(** ** Histogram binning away from the degenerate case *)

Lemma fold_min2_finite (l : list number) :
  all_finite l ->
  forall a, exists m,
    fold_left min2 l (Num a) = Num m
    /\ (m <= a)%Qc
    /\ forall x, In (Num x) l -> (m <= x)%Qc.
Proof.
  induction 1 as [|v l Fv _ IH]; intro a; cbn [fold_left].
  - exists a. split; [reflexivity|]. split; [apply Qcle_refl|].
    intros x [].
  - destruct v as [x| | |]; try discriminate.
    assert (S : exists a', min2 (Num a) (Num x) = Num a'
                           /\ (a' <= a)%Qc /\ (a' <= x)%Qc).
    { cbn [min2 lt]. destruct (Qc_ltb x a) eqn:E.
      - exists x. split; [reflexivity|].
        split; [apply Qclt_le_weak, Qc_ltb_lt, E | apply Qcle_refl].
      - exists a. split; [reflexivity|].
        split; [apply Qcle_refl | apply Qc_ltb_ge, E]. }
    destruct S as [a' [-> [A1 A2]]].
    destruct (IH a') as [m [-> [M1 M2]]].
    exists m. split; [reflexivity|].
    split; [apply Qcle_trans with a'; assumption|].
    intros y [Hy | Hy]; [|apply M2; exact Hy].
    apply Num_inj in Hy. subst y. apply Qcle_trans with a'; assumption.
Qed.

Lemma fold_max2_finite (l : list number) :
  all_finite l -> forall a, exists M, fold_left max2 l (Num a) = Num M.
Proof.
  induction 1 as [|v l Fv _ IH]; intro a; cbn [fold_left].
  - exists a. reflexivity.
  - destruct v as [x| | |]; try discriminate.
    cbn [max2 lt]. destruct (Qc_ltb a x); apply IH.
Qed.

Lemma lt_of_Z (a b : Z) : (of_Z a <? of_Z b) = (a <? b)%Z.
Proof.
  unfold of_Z. cbn [lt].
  destruct (Z.ltb_spec a b) as [L | G].
  - apply Qc_ltb_lt. unfold Qclt. rewrite !this_Q2Qc, <- Zlt_Qlt. exact L.
  - apply Qc_ltb_ge. unfold Qcle. rewrite !this_Q2Qc, <- Zle_Qle. exact G.
Qed.

(** The clamped bin index of a value at or above the minimum, for a positive
    bin width, is one of 0, ..., numBins - 1. *)
Lemma bin_index_in_range (x m b : Qc) (numBins : nat) :
  (m <= x)%Qc -> (0 < b)%Qc -> (0 < numBins)%nat ->
  exists k, (k < numBins)%nat
            /\ as_index (min2 (Math_floor ((Num x - Num m) / Num b))
                              (of_nat numBins - of_Z 1)) = Some k.
Proof.
  intros MX B N.
  assert (NZ : Qc_eqb b 0 = false).
  { destruct (Qc_eqb b 0) eqn:E; [|reflexivity].
    apply Qc_eqb_eq in E. subst b. exfalso.
    exact (Qclt_not_eq _ _ B eq_refl). }
  unfold sub at 1. cbn [neg add div]. rewrite NZ. cbn [Math_floor].
  set (y := ((x + - m) / b)%Qc).
  assert (F0 : (0 <= Qfloor y)%Z).
  { change 0%Z with (Qfloor 0). apply Qfloor_resp_le.
    subst y. unfold Qcle, Qclt in *.
    change (this (Q2Qc 0)) with 0%Q in *. to_Q.
    apply Qle_shift_div_l; [exact B|]. lra. }
  rewrite (of_nat_pred numBins) by lia.
  unfold of_nat.
  assert (M : min2 (of_Z (Qfloor y)) (of_Z (Z.of_nat (numBins - 1)))
              = of_Z (Z.min (Qfloor y) (Z.of_nat (numBins - 1)))).
  { change (min2 (of_Z (Qfloor y)) (of_Z (Z.of_nat (numBins - 1))))
      with (if of_Z (Z.of_nat (numBins - 1)) <? of_Z (Qfloor y)
            then of_Z (Z.of_nat (numBins - 1)) else of_Z (Qfloor y)).
    rewrite lt_of_Z.
    destruct (Z.ltb_spec (Z.of_nat (numBins - 1)) (Qfloor y));
      f_equal; lia. }
  rewrite M.
  exists (Z.to_nat (Z.min (Qfloor y) (Z.of_nat (numBins - 1)))).
  split; [lia|]. apply as_index_of_Z. lia.
Qed.

Lemma update_nth_length {A} (f : A -> A) (l : list A) (n : nat) :
  List.length (update_nth n f l) = List.length l.
Proof.
  revert n. induction l as [|x l IH]; intros [|n]; cbn; try reflexivity.
  rewrite IH. reflexivity.
Qed.

Lemma count_total_increment (bins : list Bin) (n : nat) :
  (n < List.length bins)%nat ->
  count_total (update_nth n increment bins) = S (count_total bins).
Proof.
  revert n. induction bins as [|b bins IH]; intros [|n] L;
    cbn [List.length update_nth] in *; try lia.
  - unfold count_total. cbn [fold_right increment bin_count]. lia.
  - unfold count_total in *. cbn [fold_right].
    rewrite IH by lia. lia.
Qed.

Lemma count_total_fresh
    (fmt : number -> string) (min binSize : number) (indices : list nat) :
  count_total (map (make_bin fmt min binSize) indices) = 0%nat.
Proof. induction indices as [|i l IH]; cbn; [reflexivity | exact IH]. Qed.

(** Counting values that are finite and at or above the minimum keeps the
    number of bins and adds one count per value. *)
Lemma fold_count_value_total (m b : Qc) (numBins : nat) (values : list number) :
  (0 < b)%Qc -> (0 < numBins)%nat ->
  all_finite values ->
  (forall x, In (Num x) values -> (m <= x)%Qc) ->
  forall bins,
    List.length bins = numBins ->
    exists bins',
      fold_left (count_value (Num m) (Num b) numBins) values (Ok bins)
      = Ok bins'
      /\ List.length bins' = numBins
      /\ count_total bins' = (count_total bins + List.length values)%nat.
Proof.
  intros B N F. induction F as [|v values Fv _ IH]; intros LB bins L.
  - exists bins. cbn. repeat split; [exact L | lia].
  - destruct v as [x| | |]; try discriminate.
    cbn [fold_left]. unfold count_value at 2.
    destruct (bin_index_in_range x m b numBins) as [k [K ->]];
      [apply LB; left; reflexivity | exact B | exact N |].
    replace (k <? List.length bins)%nat with true
      by (symmetry; apply Nat.ltb_lt; lia).
    destruct (IH (fun y Hy => LB y (or_intror Hy))
                 (update_nth k increment bins))
      as [bins' [-> [L' C']]];
      [rewrite update_nth_length; exact L|].
    exists bins'. repeat split; [exact L'|].
    rewrite C', count_total_increment by lia. cbn [List.length]. lia.
Qed.

Lemma fold_min2_member (l : list number) :
  all_finite l ->
  forall a m, fold_left min2 l (Num a) = Num m -> m = a \/ In (Num m) l.
Proof.
  induction 1 as [|v l Fv _ IH]; intros a m E; cbn [fold_left] in E.
  - left. symmetry. apply Num_inj. exact E.
  - destruct v as [x| | |]; try discriminate.
    cbn [min2 lt] in E. destruct (Qc_ltb x a).
    + destruct (IH x m E) as [-> | H]; right; [left; reflexivity|].
      right. exact H.
    + destruct (IH a m E) as [-> | H]; [left; reflexivity|].
      right. right. exact H.
Qed.

Lemma fold_max2_member (l : list number) :
  all_finite l ->
  forall a M, fold_left max2 l (Num a) = Num M -> M = a \/ In (Num M) l.
Proof.
  induction 1 as [|v l Fv _ IH]; intros a M E; cbn [fold_left] in E.
  - left. symmetry. apply Num_inj. exact E.
  - destruct v as [x| | |]; try discriminate.
    cbn [max2 lt] in E. destruct (Qc_ltb a x).
    + destruct (IH x M E) as [-> | H]; right; [left; reflexivity|].
      right. exact H.
    + destruct (IH a M E) as [-> | H]; [left; reflexivity|].
      right. right. exact H.
Qed.

(** Within the range of floating point the minimum and the maximum are
    values of the collection, the minimum is below the maximum, and the bin
    width is their difference divided by the number of bins. *)
Lemma in_double_range_spread (values : list number) (numBins : nat) :
  in_double_range values numBins ->
  exists m M,
    Math_min values = Num m /\ Math_max values = Num M
    /\ In (Num m) values /\ In (Num M) values
    /\ (m < M)%Qc
    /\ (forall y, In (Num y) values -> (m <= y)%Qc)
    /\ (Math_max values - Math_min values) / of_nat numBins
       = Num ((M + - m) / Q2Qc (inject_Z (Z.of_nat numBins)))
    /\ (0 < (M + - m) / Q2Qc (inject_Z (Z.of_nat numBins)))%Qc.
Proof.
  intros [F [_ [_ [N S]]]].
  destruct values as [|v values]; [discriminate S|].
  inversion F as [|? ? Fv F']; subst.
  destruct v as [x| | |]; try discriminate.
  unfold Math_min, Math_max in *. cbn [fold_left] in *.
  change (min2 PosInf (Num x)) with (Num x) in *.
  change (max2 NegInf (Num x)) with (Num x) in *.
  destruct (fold_min2_finite values F' x) as [m [Em [m1 m2]]].
  destruct (fold_max2_finite values F' x) as [M EM].
  pose proof (fold_min2_member values F' x m Em) as Hm.
  pose proof (fold_max2_member values F' x M EM) as HM.
  rewrite Em, EM in *.
  assert (Lt : (m < M)%Qc).
  { unfold dec, of_nat, of_Z, sub in S. cbn [neg add mul le] in S.
    apply Qc_leb_le in S. unfold Qcle, Qclt in *.
    revert S. to_Q. intro S.
    assert (P : (0 < (1 # 10 ^ 300) * inject_Z (Z.of_nat numBins))%Q).
    { apply Qmult_lt_0_compat; [reflexivity|].
      change 0%Q with (inject_Z 0). rewrite <- Zlt_Qlt. lia. }
    lra. }
  exists m, M. split; [reflexivity|]. split; [reflexivity|].
  split; [destruct Hm as [-> | H]; [left; reflexivity | right; exact H]|].
  split; [destruct HM as [-> | H]; [left; reflexivity | right; exact H]|].
  split; [exact Lt|].
  split.
  { intros y [Hy | Hy]; [|apply m2; exact Hy].
    apply Num_inj in Hy. subst y. exact m1. }
  unfold sub. cbn [neg add].
  destruct (div_of_nat_finite (M + - m)%Qc numBins) as [_ ->]; [lia|].
  split; [reflexivity|].
  unfold Qclt in *. change (this (Q2Qc 0)) with 0%Q. to_Q.
  apply Qlt_shift_div_l.
  - change 0%Q with (inject_Z 0). rewrite <- Zlt_Qlt. lia.
  - lra.
Qed.

(** Within the range of floating point, [createBins] returns [numBins]
    bins without throwing and counts every value once: the counts of the
    bins add up to the number of values (the maximum is clamped into the
    last bin). *)
Theorem createBins_counts_every_value
    (fmt : number -> string) (values : list number) (numBins : nat) :
  in_double_range values numBins ->
  exists bins,
    createBins fmt values numBins = Ok bins
    /\ List.length bins = numBins
    /\ count_total bins = List.length values.
Proof.
  intro R.
  destruct (in_double_range_spread values numBins R)
    as [m [M [Em [EM [_ [_ [_ [LB [Eb B]]]]]]]]].
  destruct R as [F [_ [_ [N _]]]].
  unfold createBins. rewrite Eb, Em.
  destruct (fold_count_value_total m _ numBins values B ltac:(lia) F LB
              (map (make_bin fmt (Num m)
                      (Num ((M + - m) / Q2Qc (inject_Z (Z.of_nat numBins)))))
                 (seq 0 numBins)))
    as [bins [-> [L C]]].
  { rewrite length_map, length_seq. reflexivity. }
  exists bins. repeat split; [exact L|].
  rewrite C, count_total_fresh. reflexivity.
Qed.

Lemma sample_values_in_double_range :
  in_double_range [of_Z 5; of_Z 7; of_Z 9; of_Z 6] 3.
Proof.
  split; [repeat constructor|]. split; [cbn; lia|].
  split.
  { intros x Hx.
    repeat (destruct Hx as [Hx | Hx];
            [apply Num_inj in Hx; subst x;
             split; unfold Qcle; rewrite !this_Q2Qc, <- Zle_Qle; lia|]).
    destruct Hx. }
  split; [cbn; lia|]. vm_compute. reflexivity.
Qed.

Lemma createBins_counts_every_value_witness :
  exists bins,
    createBins integer_to_string [of_Z 5; of_Z 7; of_Z 9; of_Z 6] 3 = Ok bins
    /\ List.length bins = 3%nat
    /\ count_total bins = 4%nat.
Proof.
  apply (createBins_counts_every_value integer_to_string
           [of_Z 5; of_Z 7; of_Z 9; of_Z 6] 3).
  exact sample_values_in_double_range.
Defined.

(** ** Further properties of the deriver and the filter *)

(** Employment years are never negative, and the 'unemployed' code 365243
    maps to zero years. *)
Theorem employment_years_floor (record : HomeCreditRecord) :
  is_finite (DAYS_EMPLOYED record) = true ->
  (exists v, EMPLOYMENT_YEARS (preprocessRecord record) = Some v
             /\ (of_Z 0 <=? v) = true)
  /\ (DAYS_EMPLOYED record = of_Z 365243 ->
      EMPLOYMENT_YEARS (preprocessRecord record) = Some (of_Z 0)).
Proof.
  intro F. split.
  - cbn [preprocessRecord EMPLOYMENT_YEARS].
    set (years := if strict_eq (DAYS_EMPLOYED record) (of_Z 365243)
                  then of_Z 0
                  else neg (DAYS_EMPLOYED record) / dec 36525 100).
    assert (Y : exists y, Math_round (years * of_Z 10) / of_Z 10 = Num y).
    { assert (Fy : exists q, years = Num q).
      { subst years. destruct (DAYS_EMPLOYED record) as [d| | |];
          try discriminate.
        destruct (strict_eq _ _); eexists; reflexivity. }
      destruct Fy as [q ->]. eexists. reflexivity. }
    destruct Y as [y ->]. eexists. split; [reflexivity|].
    cbn [max2 of_Z lt]. destruct (Qc_ltb (Q2Qc (inject_Z 0)) y) eqn:E.
    + cbn [le]. apply Qc_leb_le, Qclt_le_weak, Qc_ltb_lt, E.
    + reflexivity.
  - intro U. cbn [preprocessRecord EMPLOYMENT_YEARS]. rewrite U.
    num_eq.
Qed.

Lemma employment_years_floor_witness :
  (exists v,
      EMPLOYMENT_YEARS (preprocessRecord (raw_sample 100001 90000 T0)) = Some v
      /\ (of_Z 0 <=? v) = true).
Proof.
  apply (employment_years_floor (raw_sample 100001 90000 T0)).
  reflexivity.
Defined.

(** A filter that selects a single gender returns only records of that
    gender, all of them taken from the input. *)
Theorem applyFilters_single_gender
    (data : list HomeCreditRecord) (filters : FilterState) (g : string) :
  f_gender filters = [g] ->
  forall r, In r (applyFilters data filters) ->
            gender_string (CODE_GENDER r) = g /\ In r data.
Proof.
  intros G r Hin. unfold applyFilters in Hin.
  apply filter_In in Hin. destruct Hin as [Hin K].
  split; [|exact Hin].
  rewrite keepRecord_spec, G in K.
  cbn [List.length Nat.ltb Nat.leb includes existsb] in K.
  destruct (String.eqb_spec (gender_string (CODE_GENDER r)) g) as [E | NE];
    [exact E | discriminate K].
Qed.

Lemma applyFilters_single_gender_witness :
  gender_string (CODE_GENDER (preprocessRecord (raw_sample 100001 90000 T0)))
  = "F".
Proof.
  apply (applyFilters_single_gender
           (preprocessData raw_samples)
           (mkFilter ["F"] [] [] [] (of_Z 18, of_Z 80) "all"
              (of_Z 0, of_Z 40)) "F").
  - reflexivity.
  - unfold applyFilters. apply filter_In. split.
    + left. reflexivity.
    + vm_compute. reflexivity.
Defined.

(** ** Tables *)

Section TableFacts.
Context {V : Type}.
Implicit Types (t : table V) (k : string) (v : V).

Lemma own_property_None t k :
  own_property t k = None <-> ~ In k (map fst t).
Proof.
  induction t as [|[k0 w] t IH]; cbn [own_property map fst In].
  - tauto.
  - destruct (String.eqb_spec k0 k) as [-> | NE].
    + split; [discriminate | intro H; exfalso; apply H; left; reflexivity].
    + rewrite IH. tauto.
Qed.

Lemma own_property_In t k v :
  own_property t k = Some v -> In (k, v) t.
Proof.
  induction t as [|[k0 w] t IH]; cbn [own_property]; [discriminate|].
  destruct (String.eqb_spec k0 k) as [-> | NE].
  - intro H. injection H as ->. left. reflexivity.
  - intro H. right. apply IH, H.
Qed.

Lemma In_own_property t k v :
  NoDup (map fst t) -> In (k, v) t -> own_property t k = Some v.
Proof.
  induction t as [|[k0 w] t IH]; cbn [own_property map fst];
    intros ND Hin; [destruct Hin|].
  inversion ND as [|? ? Hk ND']; subst.
  destruct Hin as [E | Hin].
  - injection E as -> ->. rewrite String.eqb_refl. reflexivity.
  - destruct (String.eqb_spec k0 k) as [-> | NE]; [|apply IH; assumption].
    exfalso. apply Hk. apply (in_map fst) in Hin. exact Hin.
Qed.

Lemma own_set_same t k v : own_property (set_property t k v) k = Some v.
Proof.
  induction t as [|[k0 w] t IH]; cbn [set_property own_property].
  - rewrite String.eqb_refl. reflexivity.
  - destruct (String.eqb_spec k0 k) as [-> | NE]; cbn [own_property].
    + rewrite String.eqb_refl. reflexivity.
    + destruct (String.eqb_spec k0 k); [contradiction | exact IH].
Qed.

Lemma own_set_other t k k' v :
  k <> k' -> own_property (set_property t k v) k' = own_property t k'.
Proof.
  intro NE. induction t as [|[k0 w] t IH]; cbn [set_property own_property].
  - destruct (String.eqb_spec k k'); [contradiction | reflexivity].
  - destruct (String.eqb_spec k0 k) as [-> | NE0]; cbn [own_property].
    + destruct (String.eqb_spec k k'); [contradiction | reflexivity].
    + destruct (String.eqb k0 k'); [reflexivity | exact IH].
Qed.

(** Setting a property keeps the keys, or adds the new key last. *)
Lemma keys_set_property t k v :
  map fst (set_property t k v)
  = match own_property t k with
    | Some _ => map fst t
    | None => (map fst t ++ [k])%list
    end.
Proof.
  induction t as [|[k0 w] t IH]; cbn [set_property own_property map fst app].
  - reflexivity.
  - destruct (String.eqb_spec k0 k) as [-> | NE]; cbn [map fst].
    + reflexivity.
    + rewrite IH. destruct (own_property t k); reflexivity.
Qed.

Lemma NoDup_set_property t k v :
  NoDup (map fst t) -> NoDup (map fst (set_property t k v)).
Proof.
  intro ND. rewrite keys_set_property.
  destruct (own_property t k) eqn:E; [exact ND|].
  apply own_property_None in E.
  apply NoDup_app; [exact ND | repeat constructor; intros [] |].
  intros x Hx [<- | []]. exact (E Hx).
Qed.

Lemma filter_partition_perm {A} (f : A -> bool) (l : list A) :
  Permutation (filter f l ++ filter (fun x => negb (f x)) l) l.
Proof.
  induction l as [|x l IH]; cbn [filter app]; [constructor|].
  destruct (f x); cbn [negb app].
  - constructor. exact IH.
  - symmetry. etransitivity; [|apply Permutation_middle].
    constructor. symmetry. exact IH.
Qed.

Lemma Object_entries_perm t : Permutation (Object_entries t) t.
Proof.
  unfold Object_entries.
  etransitivity; [|apply (filter_partition_perm
                            (fun p => is_array_index (fst p)))].
  apply Permutation_app_tail. apply Array_sort_perm.
Qed.

End TableFacts.

(** ** Sorting with a comparator that follows an order *)

Section SortBy.
Context {A : Type} (compare : A -> A -> number).
Context (P : A -> Prop) (R : A -> A -> Prop).
Hypothesis swap_when_positive :
  forall x y, P x -> P y -> (compare x y >? of_Z 0) = true -> R y x.
Hypothesis keep_otherwise :
  forall x y, P x -> P y -> (compare x y >? of_Z 0) = false -> R x y.
Hypothesis R_trans : Transitive R.

Lemma sort_insert_sorted_by (x : A) (l : list A) :
  P x -> Forall P l -> Sorted R l -> Sorted R (sort_insert compare x l).
Proof.
  intros Px Pl S.
  induction S as [|y l S IH H]; cbn [sort_insert].
  - repeat constructor.
  - inversion Pl as [|? ? Py Pl']; subst.
    destruct (compare x y >? of_Z 0) eqn:E.
    + constructor; [apply IH; exact Pl'|].
      destruct l as [|z l]; cbn [sort_insert].
      * constructor. apply swap_when_positive; assumption.
      * destruct (compare x z >? of_Z 0).
        -- constructor. inversion H; subst. assumption.
        -- constructor. apply swap_when_positive; assumption.
    + constructor; [constructor; assumption|].
      constructor. apply keep_otherwise; assumption.
Qed.

Lemma Array_sort_sorted_by (l : list A) :
  Forall P l -> StronglySorted R (Array_sort compare l).
Proof.
  intro F. apply Sorted_StronglySorted; [exact R_trans|].
  induction F as [|x l Px F IH]; cbn [Array_sort]; [constructor|].
  apply sort_insert_sorted_by; [exact Px | | exact IH].
  rewrite Forall_forall in *. intros y Hy. apply F.
  apply (Permutation_in _ (Array_sort_perm compare l)). exact Hy.
Qed.

End SortBy.

(** ** Categorical grouping *)

Lemma inherited_proto (s : string) :
  inherited s = false -> String.eqb s "__proto__" = false.
Proof.
  intro H. destruct (String.eqb_spec s "__proto__") as [-> | NE];
    [discriminate H | reflexivity].
Qed.

Lemma sum_nat_perm (l l' : list nat) :
  Permutation l l' -> sum_nat l = sum_nat l'.
Proof.
  induction 1; unfold sum_nat in *; cbn [fold_right] in *; lia.
Qed.

Lemma sum_nat_app (l l' : list nat) :
  sum_nat (l ++ l') = (sum_nat l + sum_nat l')%nat.
Proof.
  induction l; unfold sum_nat in *; cbn [fold_right app] in *; lia.
Qed.

(** Replacing a value changes the sum of a table by the difference. *)
Lemma sum_set_property {V} (f : V -> nat) (t : table V) (k : string) (v : V) :
  sum_nat (map (fun kv => f (snd kv)) (set_property t k v))
  = match own_property t k with
    | Some w => (sum_nat (map (fun kv => f (snd kv)) t) + f v - f w)%nat
    | None => (sum_nat (map (fun kv => f (snd kv)) t) + f v)%nat
    end.
Proof.
  induction t as [|[k0 w] t IH];
    cbn [set_property own_property map snd sum_nat fold_right].
  - lia.
  - destruct (String.eqb k0 k); cbn [map snd sum_nat fold_right].
    + fold (sum_nat (map (fun kv => f (snd kv)) t)). lia.
    + fold (sum_nat (map (fun kv => f (snd kv)) (set_property t k v))).
      fold (sum_nat (map (fun kv => f (snd kv)) t)).
      rewrite IH. destruct (own_property t k) eqn:E; [|lia].
      assert (f v0 <= sum_nat (map (fun kv => f (snd kv)) t))%nat; [|lia].
      clear IH. apply own_property_In in E.
      induction t as [|p t IHt]; [destruct E|].
      cbn [map sum_nat fold_right].
      fold (sum_nat (map (fun kv => f (snd kv)) t)).
      destruct E as [-> | E]; [cbn [snd]; lia|]. specialize (IHt E). lia.
Qed.

Section GroupingFacts.

Variable number_to_string : number -> string.
Variable key : string.

Lemma occurrences_snoc (seen : list HomeCreditRecord) (r : HomeCreditRecord)
    (k : string) :
  occurrences number_to_string key (seen ++ [r]) k
  = (occurrences number_to_string key seen k
     + if string_dec (category_of number_to_string key r) k then 1 else 0)%nat.
Proof.
  unfold occurrences. rewrite map_app, count_occ_app. cbn [map count_occ].
  fold (category_of number_to_string key r). destruct (string_dec (category_of number_to_string key r) k); reflexivity.
Qed.

Lemma groupBy_step_table (acc : table tally) (seen : list HomeCreditRecord)
    (r : HomeCreditRecord) :
  inherited (category_of number_to_string key r) = false ->
  groupBy_table number_to_string key acc seen ->
  groupBy_table number_to_string key (groupBy_step number_to_string key acc r) (seen ++ [r]).
Proof.
  intros Plain [ND Own].
  assert (Step : exists n,
             groupBy_step number_to_string key acc r
             = set_property acc (category_of number_to_string key r) (Count (S n))
             /\ occurrences number_to_string key seen (category_of number_to_string key r) = n).
  { unfold groupBy_step. fold (category_of number_to_string key r). rewrite (Own (category_of number_to_string key r)).
    destruct (occurrences number_to_string key seen (category_of number_to_string key r)) as [|n].
    - rewrite (inherited_proto _ Plain), Plain. exists 0%nat. split; reflexivity.
    - exists (S n). split; reflexivity. }
  destruct Step as [n [-> On]]. split; [apply NoDup_set_property; exact ND|].
  intro k. rewrite occurrences_snoc.
  destruct (string_dec (category_of number_to_string key r) k) as [<- | NE].
  - rewrite own_set_same, On. replace (n + 1)%nat with (S n) by lia.
    reflexivity.
  - rewrite own_set_other by exact NE. rewrite Own, Nat.add_0_r. reflexivity.
Qed.

Lemma groupBy_fold_table (data seen : list HomeCreditRecord)
    (acc : table tally) :
  (forall r, In r data -> inherited (category_of number_to_string key r) = false) ->
  groupBy_table number_to_string key acc seen ->
  groupBy_table number_to_string key (fold_left (groupBy_step number_to_string key) data acc)
                (seen ++ data).
Proof.
  revert seen acc. induction data as [|r data IH]; intros seen acc Plain T.
  - rewrite app_nil_r. exact T.
  - cbn [fold_left].
    replace (seen ++ r :: data)%list with ((seen ++ [r]) ++ data)%list
      by (rewrite <- app_assoc; reflexivity).
    apply IH; [intros x Hx; apply Plain; right; exact Hx|].
    apply groupBy_step_table; [apply Plain; left; reflexivity | exact T].
Qed.

Lemma groupBy_step_sum (acc : table tally) (seen : list HomeCreditRecord)
    (r : HomeCreditRecord) :
  inherited (category_of number_to_string key r) = false ->
  groupBy_table number_to_string key acc seen ->
  sum_nat (map (fun kv => tally_nat (snd kv))
             (groupBy_step number_to_string key acc r))
  = S (sum_nat (map (fun kv => tally_nat (snd kv)) acc)).
Proof.
  intros Plain [ND Own]. unfold groupBy_step.
  fold (category_of number_to_string key r). cbv zeta.
  rewrite (Own (category_of number_to_string key r)).
  destruct (occurrences number_to_string key seen
              (category_of number_to_string key r)) as [|n] eqn:E.
  - rewrite (inherited_proto _ Plain), Plain, sum_set_property.
    rewrite (Own (category_of number_to_string key r)), E. cbn [tally_nat].
    lia.
  - rewrite sum_set_property.
    rewrite (Own (category_of number_to_string key r)), E. cbn [tally_nat].
    lia.
Qed.

Lemma groupBy_fold_sum (data seen : list HomeCreditRecord)
    (acc : table tally) :
  (forall r, In r data ->
             inherited (category_of number_to_string key r) = false) ->
  groupBy_table number_to_string key acc seen ->
  sum_nat (map (fun kv => tally_nat (snd kv))
             (fold_left (groupBy_step number_to_string key) data acc))
  = (sum_nat (map (fun kv => tally_nat (snd kv)) acc)
     + List.length data)%nat.
Proof.
  revert seen acc. induction data as [|r data IH]; intros seen acc Plain T.
  - cbn [fold_left List.length]. lia.
  - cbn [fold_left List.length].
    rewrite (IH (seen ++ [r])%list).
    + rewrite (groupBy_step_sum acc seen); [lia | | exact T].
      apply Plain. left. reflexivity.
    + intros x Hx. apply Plain. right. exact Hx.
    + apply groupBy_step_table; [apply Plain; left; reflexivity | exact T].
Qed.

Lemma groupBy_table_nil : groupBy_table number_to_string key [] [].
Proof. split; [constructor | reflexivity]. Qed.

(** The rows of [groupBy] are the entries of its table, in some order. *)
Lemma groupBy_rows_perm (data : list HomeCreditRecord) :
  Permutation
    (groupBy number_to_string data key)
    (map (fun kv => {| group_key := fst kv; group_count := snd kv;
                       group_name := fst kv; group_value := snd kv |})
         (fold_left (groupBy_step number_to_string key) data [])).
Proof.
  unfold groupBy. etransitivity; [apply Array_sort_perm|].
  apply Permutation_map. apply Object_entries_perm.
Qed.

End GroupingFacts.

(** [groupBy] returns one row per category that occurs, holding the number
    of records of that category; the counts add up to the number of
    records.  This needs that no category is named like a member of
    [Object.prototype] ("constructor", "toString", ...). *)
Theorem groupBy_counts
    (number_to_string : number -> string)
    (data : list HomeCreditRecord) (key : string) :
  plain_categories number_to_string data key ->
  NoDup (map group_key (groupBy number_to_string data key))
  /\ (forall row, In row (groupBy number_to_string data key) ->
        group_count row
        = Count (occurrences number_to_string key data (group_key row))
        /\ (1 <= occurrences number_to_string key data (group_key row))%nat
        /\ group_name row = group_key row
        /\ group_value row = group_count row)
  /\ (forall r, In r data ->
        In (category_of number_to_string key r)
           (map group_key (groupBy number_to_string data key)))
  /\ sum_nat (map (fun row => tally_nat (group_count row))
                 (groupBy number_to_string data key))
     = List.length data.
Proof.
  intro Plain.
  pose proof (groupBy_fold_table number_to_string key data [] [] Plain
                (groupBy_table_nil number_to_string key)) as [ND Own].
  pose proof (groupBy_fold_sum number_to_string key data [] [] Plain
                (groupBy_table_nil number_to_string key)) as Sum.
  pose proof (groupBy_rows_perm number_to_string key data) as Perm.
  cbn [app] in ND, Own.
  set (acc := fold_left (groupBy_step number_to_string key) data []) in *.
  set (rows := groupBy number_to_string data key) in *.
  assert (Keys : Permutation (map group_key rows) (map fst acc)).
  { rewrite (Permutation_map group_key Perm), map_map. cbn [group_key].
    reflexivity. }
  split; [|split; [|split]].
  - apply (Permutation_NoDup (Permutation_sym Keys)). exact ND.
  - intros row Hrow.
    apply (Permutation_in _ Perm) in Hrow. apply in_map_iff in Hrow.
    destruct Hrow as [[k c] [<- Hkc]]. cbn [group_key group_count
      group_name group_value fst snd].
    apply (In_own_property _ _ _ ND) in Hkc. rewrite Own in Hkc.
    destruct (occurrences number_to_string key data k) as [|n];
      [discriminate|].
    injection Hkc as <-. repeat split. lia.
  - intros r Hr. apply (Permutation_in _ (Permutation_sym Keys)).
    destruct (own_property acc (category_of number_to_string key r))
      as [c|] eqn:E.
    + apply own_property_In in E. apply (in_map fst) in E. exact E.
    + rewrite Own in E. exfalso.
      assert (O : (1 <= occurrences number_to_string key data
                          (category_of number_to_string key r))%nat).
      { unfold occurrences. apply count_occ_In. apply in_map. exact Hr. }
      destruct (occurrences number_to_string key data
                  (category_of number_to_string key r));
        [lia | discriminate].
  - rewrite (sum_nat_perm _ _
               (Permutation_map (fun row => tally_nat (group_count row))
                  Perm)).
    rewrite map_map. cbn [group_count]. rewrite Sum. reflexivity.
Qed.

Lemma of_nat_sub_positive (m n : nat) :
  (of_nat m - of_nat n >? of_Z 0) = (n <? m)%nat.
Proof.
  unfold of_nat, of_Z at 1 2.
  change (Num (Q2Qc (inject_Z (Z.of_nat m))) - Num (Q2Qc (inject_Z (Z.of_nat n))))
    with (ascending (Num (Q2Qc (inject_Z (Z.of_nat m))))
                    (Num (Q2Qc (inject_Z (Z.of_nat n))))).
  rewrite ascending_positive.
  change (Qc_ltb (Q2Qc (inject_Z (Z.of_nat n))) (Q2Qc (inject_Z (Z.of_nat m))))
    with (of_Z (Z.of_nat n) <? of_Z (Z.of_nat m)).
  rewrite lt_of_Z.
  destruct (Nat.ltb_spec n m); [apply Z.ltb_lt | apply Z.ltb_ge]; lia.
Qed.

(** The rows of [groupBy] come in the order of descending count. *)
Theorem groupBy_descending
    (number_to_string : number -> string)
    (data : list HomeCreditRecord) (key : string) :
  plain_categories number_to_string data key ->
  StronglySorted descending_count (groupBy number_to_string data key).
Proof.
  intro Plain. unfold groupBy.
  apply (Array_sort_sorted_by _
           (fun row => exists n, group_count row = Count n)).
  - intros x y [n Hx] [m Hy]. unfold descending_count.
    rewrite Hx, Hy. cbn [tally_number tally_nat].
    rewrite of_nat_sub_positive. intro L. apply Nat.ltb_lt in L. lia.
  - intros x y [n Hx] [m Hy]. unfold descending_count.
    rewrite Hx, Hy. cbn [tally_number tally_nat].
    rewrite of_nat_sub_positive. intro L. apply Nat.ltb_ge in L. exact L.
  - intros a b c. unfold descending_count. lia.
  - pose proof (groupBy_fold_table number_to_string key data [] [] Plain
                  (groupBy_table_nil number_to_string key)) as [ND Own].
    cbn [app] in ND, Own.
    apply Forall_forall. intros row Hrow. apply in_map_iff in Hrow.
    destruct Hrow as [[k c] [<- Hkc]]. cbn [group_count snd].
    apply (Permutation_in _ (Object_entries_perm _)) in Hkc.
    apply (In_own_property _ _ _ ND) in Hkc. rewrite Own in Hkc.
    destruct (occurrences number_to_string key data k); [discriminate|].
    injection Hkc as <-. eexists. reflexivity.
Qed.

(** ** Default rate by category *)

Section RateFacts.

Variable number_to_string : number -> string.
Variable key : string.

Lemma defaults_in_snoc (seen : list HomeCreditRecord) (r : HomeCreditRecord)
    (k : string) :
  defaults_in number_to_string key (seen ++ [r]) k
  = (defaults_in number_to_string key seen k
     + if target_eqb (TARGET r) T1
       then (if string_dec (category_of number_to_string key r) k
             then 1 else 0)
       else 0)%nat.
Proof.
  unfold defaults_in. rewrite filter_app. cbn [filter].
  destruct (target_eqb (TARGET r) T1).
  - apply occurrences_snoc.
  - rewrite app_nil_r. lia.
Qed.

Lemma defaults_in_le (seen : list HomeCreditRecord) (k : string) :
  (defaults_in number_to_string key seen k
   <= occurrences number_to_string key seen k)%nat.
Proof.
  unfold defaults_in, occurrences.
  induction seen as [|r seen IH]; cbn [filter map count_occ]; [lia|].
  destruct (target_eqb (TARGET r) T1); cbn [map count_occ];
    destruct (string_dec (category_of number_to_string key r) k); lia.
Qed.

Lemma rate_step_table (acc : table (nat * nat))
    (seen : list HomeCreditRecord) (r : HomeCreditRecord) :
  inherited (category_of number_to_string key r) = false ->
  rate_table number_to_string key acc seen ->
  rate_table number_to_string key
    (defaultRate_step number_to_string key acc r) (seen ++ [r])
  /\ sum_nat (map (fun kv => fst (snd kv))
                 (defaultRate_step number_to_string key acc r))
     = S (sum_nat (map (fun kv => fst (snd kv)) acc))
  /\ sum_nat (map (fun kv => snd (snd kv))
                 (defaultRate_step number_to_string key acc r))
     = (sum_nat (map (fun kv => snd (snd kv)) acc)
        + if target_eqb (TARGET r) T1 then 1 else 0)%nat.
Proof.
  intros Plain [ND Own].
  set (c := category_of number_to_string key r) in *.
  set (d := if target_eqb (TARGET r) T1 then 1%nat else 0%nat).
  assert (Step : exists n m,
             own_property acc c
             = match n with O => None | S _ => Some (n, m) end
             /\ occurrences number_to_string key seen c = n
             /\ defaults_in number_to_string key seen c = m
             /\ defaultRate_step number_to_string key acc r
                = set_property acc c (S n, (m + d)%nat)).
  { exists (occurrences number_to_string key seen c),
           (defaults_in number_to_string key seen c).
    split; [rewrite Own;
            destruct (occurrences number_to_string key seen c); reflexivity|].
    split; [reflexivity|]. split; [reflexivity|].
    unfold defaultRate_step. fold (category_of number_to_string key r).
    fold c. cbv zeta. rewrite (Own c).
    pose proof (defaults_in_le seen c) as LE.
    destruct (occurrences number_to_string key seen c) as [|n].
    - rewrite Plain. cbn [fst snd].
      replace (defaults_in number_to_string key seen c) with 0%nat by lia.
      subst d. destruct (target_eqb (TARGET r) T1); reflexivity.
    - cbn [fst snd]. subst d.
      destruct (target_eqb (TARGET r) T1); f_equal; f_equal; lia. }
  destruct Step as [n [m [O [On [Om ->]]]]].
  split; [split|split].
  - apply NoDup_set_property. exact ND.
  - intro k. rewrite occurrences_snoc, defaults_in_snoc. fold c.
    destruct (string_dec c k) as [<- | NE].
    + rewrite own_set_same, On, Om. replace (n + 1)%nat with (S n) by lia.
      subst d. destruct (target_eqb (TARGET r) T1); reflexivity.
    + rewrite own_set_other by exact NE. rewrite Own, !Nat.add_0_r.
      destruct (target_eqb (TARGET r) T1); rewrite ?Nat.add_0_r;
        reflexivity.
  - rewrite (sum_set_property (fun e => fst e)), O.
    destruct n; cbn [fst]; lia.
  - rewrite (sum_set_property (fun e => snd e)), O. subst d.
    pose proof (defaults_in_le seen c) as LE. rewrite On, Om in LE.
    destruct n, (target_eqb (TARGET r) T1); cbn [snd]; lia.
Qed.

Lemma rate_fold_table (data seen : list HomeCreditRecord)
    (acc : table (nat * nat)) :
  (forall r, In r data ->
             inherited (category_of number_to_string key r) = false) ->
  rate_table number_to_string key acc seen ->
  rate_table number_to_string key
    (fold_left (defaultRate_step number_to_string key) data acc)
    (seen ++ data)
  /\ sum_nat (map (fun kv => fst (snd kv))
                 (fold_left (defaultRate_step number_to_string key) data acc))
     = (sum_nat (map (fun kv => fst (snd kv)) acc) + List.length data)%nat
  /\ sum_nat (map (fun kv => snd (snd kv))
                 (fold_left (defaultRate_step number_to_string key) data acc))
     = (sum_nat (map (fun kv => snd (snd kv)) acc)
        + List.length (filter (fun r => target_eqb (TARGET r) T1) data))%nat.
Proof.
  revert seen acc. induction data as [|r data IH]; intros seen acc Plain T.
  - rewrite app_nil_r. cbn [fold_left List.length filter].
    repeat split; try apply T; lia.
  - cbn [fold_left].
    replace (seen ++ r :: data)%list with ((seen ++ [r]) ++ data)%list
      by (rewrite <- app_assoc; reflexivity).
    destruct (rate_step_table acc seen r) as [T1' [S1 S2]];
      [apply Plain; left; reflexivity | exact T |].
    destruct (IH (seen ++ [r])%list
                 (defaultRate_step number_to_string key acc r))
      as [T2 [S3 S4]];
      [intros x Hx; apply Plain; right; exact Hx | exact T1' |].
    split; [exact T2|]. rewrite S3, S4, S1, S2. cbn [List.length filter].
    destruct (target_eqb (TARGET r) T1); cbn [List.length]; lia.
Qed.

Lemma rate_table_nil : rate_table number_to_string key [] [].
Proof. split; [constructor | reflexivity]. Qed.

(** The rows of [calculateDefaultRateByCategory] are the entries of its
    table, in some order. *)
Lemma rate_rows_perm (data : list HomeCreditRecord) :
  Permutation
    (calculateDefaultRateByCategory number_to_string data key)
    (map (fun kv =>
            {| rate_category := fst kv;
               rate_defaultRate :=
                 of_nat (snd (snd kv)) / of_nat (fst (snd kv)) * of_Z 100;
               rate_total := fst (snd kv);
               rate_defaults := snd (snd kv) |})
         (fold_left (defaultRate_step number_to_string key) data [])).
Proof.
  unfold calculateDefaultRateByCategory.
  etransitivity; [apply Array_sort_perm|].
  apply Permutation_map. apply Object_entries_perm.
Qed.

(** What an entry of the finished table holds. *)
Lemma rate_entry (data : list HomeCreditRecord) (k : string) (e : nat * nat) :
  (forall r, In r data ->
             inherited (category_of number_to_string key r) = false) ->
  In (k, e) (fold_left (defaultRate_step number_to_string key) data []) ->
  fst e = occurrences number_to_string key data k
  /\ snd e = defaults_in number_to_string key data k
  /\ (1 <= fst e)%nat /\ (snd e <= fst e)%nat.
Proof.
  intros Plain Hin.
  destruct (rate_fold_table data [] [] Plain rate_table_nil)
    as [[ND Own] _]. cbn [app] in ND, Own.
  apply (In_own_property _ _ _ ND) in Hin. rewrite Own in Hin.
  pose proof (defaults_in_le data k) as LE.
  destruct (occurrences number_to_string key data k) as [|n];
    [discriminate|].
  injection Hin as <-. cbn [fst snd]. repeat split; lia.
Qed.

End RateFacts.

(** A part of a whole as a percentage lies between 0 and 100. *)
Lemma percent_of_part (d t : nat) :
  (1 <= t)%nat -> (d <= t)%nat ->
  exists q, of_nat d / of_nat t * of_Z 100 = Num q
            /\ (0 <= q)%Qc /\ (q <= Q2Qc (inject_Z 100))%Qc
            /\ (d = t -> q = Q2Qc (inject_Z 100))
            /\ (d = 0%nat -> q = Q2Qc (inject_Z 0)).
Proof.
  intros T D. unfold of_nat at 1, of_Z at 1.
  destruct (div_of_nat_finite (Q2Qc (inject_Z (Z.of_nat d))) t) as [_ ->];
    [lia|].
  unfold of_Z. cbn [mul]. eexists. split; [reflexivity|].
  assert (Tpos : (0 < inject_Z (Z.of_nat t))%Q)
    by (change 0%Q with (inject_Z 0); rewrite <- Zlt_Qlt; lia).
  assert (D0 : (0 <= inject_Z (Z.of_nat d))%Q)
    by (change 0%Q with (inject_Z 0); rewrite <- Zle_Qle; lia).
  assert (DT : (inject_Z (Z.of_nat d) <= inject_Z (Z.of_nat t))%Q)
    by (rewrite <- Zle_Qle; lia).
  assert (X0 : (0 <= inject_Z (Z.of_nat d) / inject_Z (Z.of_nat t))%Q)
    by (apply Qle_shift_div_l; [exact Tpos | lra]).
  assert (X1 : (inject_Z (Z.of_nat d) / inject_Z (Z.of_nat t) <= 1)%Q)
    by (apply Qle_shift_div_r; [exact Tpos | lra]).
  repeat split.
  - unfold Qcle. change (this (Q2Qc 0)) with 0%Q. to_Q.
    unfold inject_Z at 3. lra.
  - unfold Qcle. to_Q. unfold inject_Z at 3 4. lra.
  - intros ->. apply Qc_is_canon. to_Q. field.
    intro Z. rewrite Z in Tpos. exact (Qlt_irrefl _ Tpos).
  - intros ->. apply Qc_is_canon. to_Q. cbn [Z.of_nat]. field.
    intro Z. rewrite Z in Tpos. exact (Qlt_irrefl _ Tpos).
Qed.

(** [calculateDefaultRateByCategory] returns one row per category that
    occurs, with the number of its records and of its defaulted records: no
    row is empty, defaults never exceed the total, the totals add up to the
    number of records and the defaults to the number of defaulted records.
    This needs that no category is named like a member of
    [Object.prototype]. *)
Theorem calculateDefaultRateByCategory_rows
    (number_to_string : number -> string)
    (data : list HomeCreditRecord) (category : string) :
  plain_categories number_to_string data category ->
  let rows := calculateDefaultRateByCategory number_to_string data category in
  NoDup (map rate_category rows)
  /\ (forall row, In row rows ->
        rate_total row
        = occurrences number_to_string category data (rate_category row)
        /\ rate_defaults row
           = defaults_in number_to_string category data (rate_category row)
        /\ (1 <= rate_total row)%nat
        /\ (rate_defaults row <= rate_total row)%nat
        /\ rate_defaultRate row
           = of_nat (rate_defaults row) / of_nat (rate_total row) * of_Z 100)
  /\ (forall r, In r data ->
        In (category_of number_to_string category r) (map rate_category rows))
  /\ sum_nat (map rate_total rows) = List.length data
  /\ sum_nat (map rate_defaults rows)
     = List.length (filter (fun r => target_eqb (TARGET r) T1) data).
Proof.
  intros Plain rows.
  pose proof (rate_fold_table number_to_string category data [] [] Plain
                (rate_table_nil number_to_string category))
    as [[ND Own] [St Sd]].
  pose proof (rate_rows_perm number_to_string category data) as Perm.
  fold rows in Perm. cbn [app] in ND, Own.
  pose proof (rate_entry number_to_string category data) as Entry.
  set (acc := fold_left (defaultRate_step number_to_string category) data [])
    in *.
  assert (Keys : Permutation (map rate_category rows) (map fst acc)).
  { rewrite (Permutation_map rate_category Perm), map_map.
    cbn [rate_category]. reflexivity. }
  split; [|split; [|split; [|split]]].
  - apply (Permutation_NoDup (Permutation_sym Keys)). exact ND.
  - intros row Hrow.
    apply (Permutation_in _ Perm) in Hrow. apply in_map_iff in Hrow.
    destruct Hrow as [[k e] [<- Hke]].
    cbn [rate_category rate_total rate_defaults rate_defaultRate fst snd].
    destruct (Entry k e Plain Hke) as [E1 [E2 [E3 E4]]].
    repeat split; assumption.
  - intros r Hr. apply (Permutation_in _ (Permutation_sym Keys)).
    destruct (own_property acc (category_of number_to_string category r))
      as [e|] eqn:E.
    + apply own_property_In in E. apply (in_map fst) in E. exact E.
    + rewrite Own in E. exfalso.
      assert (O : (1 <= occurrences number_to_string category data
                          (category_of number_to_string category r))%nat).
      { unfold occurrences. apply count_occ_In. apply in_map. exact Hr. }
      destruct (occurrences number_to_string category data
                  (category_of number_to_string category r));
        [lia | discriminate].
  - rewrite (sum_nat_perm _ _ (Permutation_map rate_total Perm)).
    rewrite map_map. cbn [rate_total]. rewrite St. reflexivity.
  - rewrite (sum_nat_perm _ _ (Permutation_map rate_defaults Perm)).
    rewrite map_map. cbn [rate_defaults]. rewrite Sd. reflexivity.
Qed.

(** Every rate [calculateDefaultRateByCategory] returns is a finite
    percentage between 0 and 100 (no division by zero occurs), the rows come
    in the order of descending rate, and when every record has defaulted
    every rate is 100. *)
Theorem calculateDefaultRateByCategory_rates
    (number_to_string : number -> string)
    (data : list HomeCreditRecord) (category : string) :
  plain_categories number_to_string data category ->
  let rows := calculateDefaultRateByCategory number_to_string data category in
  (forall row, In row rows ->
     (of_Z 0 <=? rate_defaultRate row) = true
     /\ (rate_defaultRate row <=? of_Z 100) = true)
  /\ StronglySorted descending_rate rows
  /\ ((forall r, In r data -> TARGET r = T1) ->
      forall row, In row rows -> rate_defaultRate row = of_Z 100).
Proof.
  intros Plain rows.
  pose proof (rate_rows_perm number_to_string category data) as Perm.
  fold rows in Perm.
  pose proof (rate_entry number_to_string category data) as Entry.
  assert (Shape : forall row,
             In row (map (fun kv =>
                            {| rate_category := fst kv;
                               rate_defaultRate :=
                                 of_nat (snd (snd kv)) / of_nat (fst (snd kv))
                                 * of_Z 100;
                               rate_total := fst (snd kv);
                               rate_defaults := snd (snd kv) |})
                         (fold_left
                            (defaultRate_step number_to_string category)
                            data [])) ->
             exists q, rate_defaultRate row = Num q
                       /\ (0 <= q)%Qc /\ (q <= Q2Qc (inject_Z 100))%Qc
                       /\ (rate_defaults row = rate_total row ->
                           q = Q2Qc (inject_Z 100))
                       /\ rate_total row
                          = occurrences number_to_string category data
                              (rate_category row)
                       /\ rate_defaults row
                          = defaults_in number_to_string category data
                              (rate_category row)).
  { intros row Hrow. apply in_map_iff in Hrow.
    destruct Hrow as [[k e] [<- Hke]].
    cbn [rate_category rate_total rate_defaults rate_defaultRate fst snd].
    destruct (Entry k e Plain Hke) as [E1 [E2 [E3 E4]]].
    destruct (percent_of_part (snd e) (fst e) E3 E4) as [q [Q [Q0 [Q1 [Q2 _]]]]].
    exists q. repeat split; assumption. }
  split; [|split].
  - intros row Hrow. apply (Permutation_in _ Perm) in Hrow.
    destruct (Shape row Hrow) as [q [-> [Q0 [Q1 _]]]].
    unfold of_Z. cbn [le]. split; apply Qc_leb_le; assumption.
  - unfold rows, calculateDefaultRateByCategory.
    apply (Array_sort_sorted_by _
             (fun row => is_finite (rate_defaultRate row) = true)).
    + intros x y Fx Fy. unfold descending_rate.
      destruct (rate_defaultRate x) as [a| | |]; try discriminate.
      destruct (rate_defaultRate y) as [b| | |]; try discriminate.
      change (Num b - Num a) with (ascending (Num b) (Num a)).
      rewrite ascending_positive. intro L. cbn [le].
      apply Qc_leb_le, Qclt_le_weak, Qc_ltb_lt, L.
    + intros x y Fx Fy. unfold descending_rate.
      destruct (rate_defaultRate x) as [a| | |]; try discriminate.
      destruct (rate_defaultRate y) as [b| | |]; try discriminate.
      change (Num b - Num a) with (ascending (Num b) (Num a)).
      rewrite ascending_positive. intro L. cbn [le].
      apply Qc_leb_le, Qc_ltb_ge, L.
    + intros a b c. unfold descending_rate. intros H1 H2.
      exact (le_trans _ _ _ H2 H1).
    + apply Forall_forall. intros row Hrow.
      assert (Hrow' : In row
                (map (fun kv =>
                        {| rate_category := fst kv;
                           rate_defaultRate :=
                             of_nat (snd (snd kv)) / of_nat (fst (snd kv))
                             * of_Z 100;
                           rate_total := fst (snd kv);
                           rate_defaults := snd (snd kv) |})
                     (fold_left (defaultRate_step number_to_string category)
                        data []))).
      { apply in_map_iff in Hrow. destruct Hrow as [kv [<- Hkv]].
        apply in_map_iff. exists kv. split; [reflexivity|].
        apply (Permutation_in _ (Object_entries_perm _)). exact Hkv. }
      destruct (Shape row Hrow') as [q [-> _]]. reflexivity.
  - intros All row Hrow. apply (Permutation_in _ Perm) in Hrow.
    destruct (Shape row Hrow) as [q [-> [_ [_ [Full [Et Ed]]]]]].
    unfold of_Z. f_equal. apply Full. rewrite Et, Ed.
    unfold defaults_in. f_equal.
    apply forallb_filter_id. apply forallb_forall. intros r Hr.
    rewrite (All r Hr). reflexivity.
Qed.

Lemma plain_categoriesb_correct
    (number_to_string : number -> string)
    (data : list HomeCreditRecord) (key : string) :
  plain_categoriesb number_to_string data key = true ->
  plain_categories number_to_string data key.
Proof.
  unfold plain_categoriesb, plain_categories. rewrite forallb_forall.
  intros H r Hr. specialize (H r Hr).
  destruct (inherited (category_of number_to_string key r));
    [discriminate | reflexivity].
Qed.

Lemma groupBy_counts_witness :
  sum_nat (map (fun row => tally_nat (group_count row))
             (groupBy integer_to_string applicants "NAME_EDUCATION_TYPE"))
  = 5%nat.
Proof.
  apply (groupBy_counts integer_to_string applicants "NAME_EDUCATION_TYPE").
  apply plain_categoriesb_correct. vm_compute. reflexivity.
Defined.

Lemma groupBy_descending_witness :
  StronglySorted descending_count
    (groupBy integer_to_string applicants "NAME_EDUCATION_TYPE").
Proof.
  apply (groupBy_descending integer_to_string applicants
           "NAME_EDUCATION_TYPE").
  apply plain_categoriesb_correct. vm_compute. reflexivity.
Defined.

Lemma calculateDefaultRateByCategory_rows_witness :
  sum_nat (map rate_defaults
             (calculateDefaultRateByCategory integer_to_string applicants
                "NAME_EDUCATION_TYPE"))
  = 2%nat.
Proof.
  apply (calculateDefaultRateByCategory_rows integer_to_string applicants
           "NAME_EDUCATION_TYPE").
  apply plain_categoriesb_correct. vm_compute. reflexivity.
Defined.

Lemma calculateDefaultRateByCategory_rates_witness :
  StronglySorted descending_rate
    (calculateDefaultRateByCategory integer_to_string applicants
       "NAME_EDUCATION_TYPE").
Proof.
  apply (calculateDefaultRateByCategory_rates integer_to_string applicants
           "NAME_EDUCATION_TYPE").
  apply plain_categoriesb_correct. vm_compute. reflexivity.
Defined.

(** ** Chart data *)

Lemma category_of_gender (number_to_string : number -> string)
    (r : HomeCreditRecord) :
  category_of number_to_string "CODE_GENDER" r
  = gender_string (CODE_GENDER r).
Proof. reflexivity. Qed.

Lemma gender_categories_plain (number_to_string : number -> string)
    (data : list HomeCreditRecord) :
  plain_categories number_to_string data "CODE_GENDER".
Proof.
  intros r _. rewrite category_of_gender.
  destruct (CODE_GENDER r); reflexivity.
Qed.

(** The gender chart accounts for every record: it has at most three rows,
    named "Male", "Female" and "Not Specified", each with a positive count,
    no name twice, and the counts add up to the number of records. *)
Theorem gender_distribution_conserves
    (number_to_string : number -> string) (data : list HomeCreditRecord) :
  exists rows,
    prepareChartData number_to_string data "gender_distribution"
    = Ok (NamedValues rows)
    /\ sum_nat (map (fun row => tally_nat (named_value row)) rows)
       = List.length data
    /\ (forall row, In row rows ->
          In (named_name row) ["Male"; "Female"; "Not Specified"]
          /\ exists n, named_value row = Count n /\ (1 <= n)%nat)
    /\ NoDup (map named_name rows)
    /\ (List.length rows <= 3)%nat.
Proof.
  pose proof (gender_categories_plain number_to_string data) as Plain.
  pose proof (groupBy_fold_table number_to_string "CODE_GENDER" data [] []
                Plain (groupBy_table_nil number_to_string "CODE_GENDER"))
    as [ND Own].
  pose proof (groupBy_fold_sum number_to_string "CODE_GENDER" data [] []
                Plain (groupBy_table_nil number_to_string "CODE_GENDER"))
    as Sum.
  pose proof (groupBy_rows_perm number_to_string "CODE_GENDER" data) as Perm.
  cbn [app] in ND, Own.
  set (acc := fold_left (groupBy_step number_to_string "CODE_GENDER") data [])
    in *.
  set (groups := groupBy number_to_string data "CODE_GENDER") in *.
  set (label := fun row : GroupRow =>
         {| named_name :=
              if String.eqb (group_key row) "M" then "Male"
              else if String.eqb (group_key row) "F" then "Female"
              else "Not Specified";
            named_value := group_count row |}).
  exists (map label groups).
  (* every entry of the table is one of the three genders, with its count *)
  assert (Entry : forall k c, In (k, c) acc ->
             In k ["M"; "F"; "XNA"] /\ exists n, c = Count (S n)).
  { intros k c Hkc. apply (In_own_property _ _ _ ND) in Hkc.
    rewrite Own in Hkc.
    destruct (occurrences number_to_string "CODE_GENDER" data k) as [|n] eqn:O;
      [discriminate|].
    injection Hkc as <-. split; [|exists n; reflexivity].
    assert (Hin : In k (map (category_of number_to_string "CODE_GENDER") data)).
    { apply (count_occ_In string_dec). unfold occurrences in O. lia. }
    apply in_map_iff in Hin. destruct Hin as [r [<- _]].
    rewrite category_of_gender. destruct (CODE_GENDER r); cbn; tauto. }
  assert (Row : forall row, In row groups ->
             In (group_key row) ["M"; "F"; "XNA"]
             /\ exists n, group_count row = Count (S n)).
  { intros row Hrow. apply (Permutation_in _ Perm) in Hrow.
    apply in_map_iff in Hrow. destruct Hrow as [[k c] [<- Hkc]].
    cbn [group_key group_count fst snd]. apply Entry. exact Hkc. }
  assert (Keys : Permutation (map group_key groups) (map fst acc)).
  { rewrite (Permutation_map group_key Perm), map_map. cbn [group_key].
    reflexivity. }
  assert (NDk : NoDup (map group_key groups))
    by (apply (Permutation_NoDup (Permutation_sym Keys)); exact ND).
  split; [reflexivity|]. split; [|split; [|split]].
  - rewrite map_map. cbn [named_value label].
    rewrite (sum_nat_perm _ _
               (Permutation_map (fun row => tally_nat (group_count row))
                  Perm)).
    rewrite map_map. cbn [group_count]. rewrite Sum. reflexivity.
  - intros row Hrow. apply in_map_iff in Hrow.
    destruct Hrow as [g [<- Hg]]. destruct (Row g Hg) as [K [n C]].
    cbn [label named_name named_value]. split.
    + destruct K as [<- | [<- | [<- | []]]]; cbn; tauto.
    + exists (S n). split; [exact C | lia].
  - rewrite map_map. cbn [label named_name].
    assert (Inj : forall a b, In a groups -> In b groups ->
               (if String.eqb (group_key a) "M" then "Male"
                else if String.eqb (group_key a) "F" then "Female"
                else "Not Specified")
               = (if String.eqb (group_key b) "M" then "Male"
                  else if String.eqb (group_key b) "F" then "Female"
                  else "Not Specified") ->
               group_key a = group_key b).
    { intros a b Ha Hb.
      destruct (Row a Ha) as [[<- | [<- | [<- | []]]] _];
        destruct (Row b Hb) as [[<- | [<- | [<- | []]]] _];
        cbn; congruence. }
    clear - NDk Inj. induction groups as [|g groups IH];
      cbn [map]; [constructor|].
    inversion NDk as [|? ? Hg NDk']; subst.
    constructor.
    + intro Hin. apply in_map_iff in Hin. destruct Hin as [h [E Hh]].
      apply Hg. apply in_map_iff. exists h. split; [|exact Hh].
      apply Inj; [right; exact Hh | left; reflexivity | exact E].
    + apply IH; [exact NDk'|].
      intros a b Ha Hb. apply Inj; right; assumption.
  - rewrite length_map, <- (length_map group_key).
    change 3%nat with (List.length ["M"; "F"; "XNA"]).
    apply NoDup_incl_length; [exact NDk|].
    intros k Hk. apply in_map_iff in Hk. destruct Hk as [row [<- Hrow]].
    apply Row. exact Hrow.
Qed.

(** ** What each bin of a histogram holds *)

Lemma floor_ge_iff (y : Q) (k : Z) :
  (k <= Qfloor y)%Z <-> (inject_Z k <= y)%Q.
Proof.
  split; intro H.
  - apply Qle_trans with (inject_Z (Qfloor y)); [|apply Qfloor_le].
    rewrite <- Zle_Qle. exact H.
  - rewrite <- (Qfloor_Z k). apply Qfloor_resp_le. exact H.
Qed.

Lemma offset_quotient (x m b : Qc) (k : Z) :
  (0 < b)%Qc ->
  (inject_Z k <= this ((x + - m) / b)%Qc)%Q
  <-> (m + Q2Qc (inject_Z k) * b <= x)%Qc.
Proof.
  intro B. unfold Qcle, Qclt in *. change (this (Q2Qc 0)) with 0%Q in B.
  to_Q.
  assert (NZ : ~ (this b == 0)%Q) by (intro E; rewrite E in B; lra).
  pose proof (Qmult_div_r (this x + - this m) (this b) NZ) as E.
  set (y := ((this x + - this m) / this b)%Q) in *.
  split; intro H; nra.
Qed.

(** The index [count_value] computes for a value at or above the minimum. *)
Lemma as_index_bin_index (x m b : Qc) (numBins : nat) :
  (m <= x)%Qc -> (0 < b)%Qc -> (0 < numBins)%nat ->
  as_index (min2 (Math_floor ((Num x - Num m) / Num b))
                 (of_nat numBins - of_Z 1))
  = Some (bin_index m b numBins x)
  /\ (bin_index m b numBins x < numBins)%nat.
Proof.
  intros MX B N.
  assert (NZ : Qc_eqb b 0 = false).
  { destruct (Qc_eqb b 0) eqn:E; [|reflexivity].
    apply Qc_eqb_eq in E. subst b. exfalso.
    exact (Qclt_not_eq _ _ B eq_refl). }
  unfold sub at 1. cbn [neg add div]. rewrite NZ. cbn [Math_floor].
  unfold bin_index. set (y := ((x + - m) / b)%Qc).
  assert (F0 : (0 <= Qfloor y)%Z).
  { apply floor_ge_iff. subst y. apply offset_quotient; [exact B|].
    replace (m + Q2Qc (inject_Z 0) * b)%Qc with m; [exact MX|].
    apply Qc_is_canon. to_Q. change (inject_Z 0) with 0%Q.
    lra. }
  rewrite (of_nat_pred numBins) by lia.
  unfold of_nat.
  assert (M : min2 (of_Z (Qfloor y)) (of_Z (Z.of_nat (numBins - 1)))
              = of_Z (Z.min (Qfloor y) (Z.of_nat (numBins - 1)))).
  { change (min2 (of_Z (Qfloor y)) (of_Z (Z.of_nat (numBins - 1))))
      with (if of_Z (Z.of_nat (numBins - 1)) <? of_Z (Qfloor y)
            then of_Z (Z.of_nat (numBins - 1)) else of_Z (Qfloor y)).
    rewrite lt_of_Z.
    destruct (Z.ltb_spec (Z.of_nat (numBins - 1)) (Qfloor y));
      f_equal; lia. }
  rewrite M. split; [apply as_index_of_Z; lia | lia].
Qed.

Lemma nth_error_update_nth {A} (f : A -> A) (l : list A) (k i : nat) :
  nth_error (update_nth k f l) i
  = if (i =? k)%nat then option_map f (nth_error l i) else nth_error l i.
Proof.
  revert k i. induction l as [|x l IH]; intros k i.
  - destruct k, i; cbn [update_nth nth_error option_map];
      destruct (_ =? _)%nat; reflexivity.
  - destruct k as [|k], i as [|i];
      cbn [update_nth nth_error Nat.eqb option_map]; try reflexivity.
    apply IH.
Qed.

Lemma counted_0 (b : Bin) : counted 0 b = b.
Proof.
  destruct b. unfold counted. cbn. f_equal. lia.
Qed.

Lemma counted_increment (c : nat) (b : Bin) :
  counted c (increment b) = counted (S c) b.
Proof. unfold counted, increment. cbn. f_equal. lia. Qed.

Lemma values_in_bin_cons (m b : Qc) (numBins : nat) (x : Qc)
    (values : list number) (i : nat) :
  values_in_bin m b numBins (Num x :: values) i
  = ((if (bin_index m b numBins x =? i)%nat then 1 else 0)
     + values_in_bin m b numBins values i)%nat.
Proof.
  unfold values_in_bin. cbn [filter bin_index_of].
  destruct (bin_index m b numBins x =? i)%nat; reflexivity.
Qed.

(** Counting values that are finite and at or above the minimum adds to
    each bin the number of values with its index. *)
Lemma fold_count_value_bins (m b : Qc) (numBins : nat)
    (values : list number) :
  (0 < b)%Qc -> (0 < numBins)%nat ->
  all_finite values ->
  (forall x, In (Num x) values -> (m <= x)%Qc) ->
  forall bins,
    List.length bins = numBins ->
    exists bins',
      fold_left (count_value (Num m) (Num b) numBins) values (Ok bins)
      = Ok bins'
      /\ List.length bins' = numBins
      /\ forall i,
           nth_error bins' i
           = option_map (counted (values_in_bin m b numBins values i))
                        (nth_error bins i).
Proof.
  intros B N F. induction F as [|v values Fv _ IH]; intros LB bins L.
  - exists bins. cbn [fold_left]. repeat split; [exact L|].
    intro i. unfold values_in_bin. cbn [filter List.length].
    destruct (nth_error bins i); cbn [option_map];
      [rewrite counted_0|]; reflexivity.
  - destruct v as [x| | |]; try discriminate.
    cbn [fold_left]. unfold count_value at 2.
    destruct (as_index_bin_index x m b numBins) as [-> K];
      [apply LB; left; reflexivity | exact B | exact N |].
    set (k := bin_index m b numBins x) in *.
    replace (k <? List.length bins)%nat with true
      by (symmetry; apply Nat.ltb_lt; lia).
    destruct (IH (fun y Hy => LB y (or_intror Hy))
                 (update_nth k increment bins))
      as [bins' [-> [L' C']]];
      [rewrite update_nth_length; exact L|].
    exists bins'. repeat split; [exact L'|].
    intro i. rewrite C', nth_error_update_nth, values_in_bin_cons.
    fold k. rewrite (Nat.eqb_sym k i).
    destruct (i =? k)%nat.
    + destruct (nth_error bins i); cbn [option_map]; [|reflexivity].
      rewrite counted_increment. reflexivity.
    + reflexivity.
Qed.

(** ** The ends of a histogram *)

Lemma filter_length_incl {A} (f g : A -> bool) (l : list A) :
  (forall x, In x l -> f x = true -> g x = true) ->
  (List.length (filter f l) <= List.length (filter g l))%nat.
Proof.
  intro H. induction l as [|x l IH]; [reflexivity|].
  cbn [filter].
  assert (IH' := IH (fun y Hy => H y (or_intror Hy))).
  destruct (f x) eqn:Fx.
  - rewrite (H x (or_introl eq_refl) Fx). cbn [List.length]. lia.
  - destruct (g x); cbn [List.length]; lia.
Qed.

Lemma strict_eq_Num (m : Qc) (v : number) :
  strict_eq (Num m) v = true -> v = Num m.
Proof.
  destruct v as [x| | |]; cbn [strict_eq]; try discriminate.
  intro E. apply Qc_eqb_eq in E. subst x. reflexivity.
Qed.

Lemma copies_member (x : Qc) (values : list number) :
  In (Num x) values -> (1 <= copies (Num x) values)%nat.
Proof.
  intro H. unfold copies. induction values as [|v values IH];
    [destruct H|].
  cbn [filter]. destruct H as [-> | H].
  - cbn [strict_eq]. rewrite Qc_eqb_refl. cbn [List.length]. lia.
  - specialize (IH H). destruct (strict_eq (Num x) v);
      cbn [List.length]; lia.
Qed.

(** The minimum has the index 0, and the maximum the index of the last
    bin. *)
Lemma bin_index_ends (m M : Qc) (numBins : nat) :
  (m < M)%Qc -> (0 < numBins)%nat ->
  bin_index m ((M + - m) / Q2Qc (inject_Z (Z.of_nat numBins))) numBins m
  = 0%nat
  /\ bin_index m ((M + - m) / Q2Qc (inject_Z (Z.of_nat numBins))) numBins M
     = (numBins - 1)%nat.
Proof.
  intros Lt N. unfold bin_index.
  assert (NQ : (0 < inject_Z (Z.of_nat numBins))%Q)
    by (change 0%Q with (inject_Z 0); rewrite <- Zlt_Qlt; lia).
  unfold Qclt in Lt.
  split.
  - replace (Qfloor ((m + - m)
                     / ((M + - m) / Q2Qc (inject_Z (Z.of_nat numBins))))%Qc)
      with 0%Z; [lia|].
    symmetry.
    assert (E : (this ((m + - m)
                       / ((M + - m) / Q2Qc (inject_Z (Z.of_nat numBins))))%Qc
                 == inject_Z 0)%Q).
    { to_Q. change (inject_Z 0) with 0%Q. field. split; lra. }
    rewrite (Qfloor_comp _ _ E). apply Qfloor_Z.
  - replace (Qfloor ((M + - m)
                     / ((M + - m) / Q2Qc (inject_Z (Z.of_nat numBins))))%Qc)
      with (Z.of_nat numBins); [lia|].
    symmetry.
    assert (E : (this ((M + - m)
                       / ((M + - m) / Q2Qc (inject_Z (Z.of_nat numBins))))%Qc
                 == inject_Z (Z.of_nat numBins))%Q).
    { to_Q. field. split; lra. }
    rewrite (Qfloor_comp _ _ E). apply Qfloor_Z.
Qed.

(** Within the range of floating point the first bin starts at the
    minimum and counts every value equal to it, and the last bin counts
    every value equal to the maximum; neither is empty. *)
Theorem createBins_end_bins
    (fmt : number -> string) (values : list number) (numBins : nat) :
  in_double_range values numBins ->
  exists bins first last,
    createBins fmt values numBins = Ok bins
    /\ nth_error bins 0 = Some first
    /\ nth_error bins (numBins - 1) = Some last
    /\ bin_min first = Math_min values
    /\ (copies (Math_min values) values <= bin_count first)%nat
    /\ (copies (Math_max values) values <= bin_count last)%nat
    /\ (1 <= bin_count first)%nat
    /\ (1 <= bin_count last)%nat.
Proof.
  intro R.
  destruct (in_double_range_spread values numBins R)
    as [m [M [Em [EM [Hm [HM [Lt [LB [Eb B]]]]]]]]].
  destruct R as [F [_ [_ [N _]]]].
  assert (N' : (0 < numBins)%nat) by lia.
  set (b := ((M + - m) / Q2Qc (inject_Z (Z.of_nat numBins)))%Qc) in *.
  unfold createBins. rewrite Eb, Em, EM.
  destruct (fold_count_value_bins m b numBins values B N' F LB
              (map (make_bin fmt (Num m) (Num b)) (seq 0 numBins)))
    as [bins [-> [L C]]].
  { rewrite length_map, length_seq. reflexivity. }
  assert (Fresh : forall i, (i < numBins)%nat ->
             nth_error bins i
             = Some (counted (values_in_bin m b numBins values i)
                       (make_bin fmt (Num m) (Num b) i))).
  { intros i I. rewrite C, nth_error_map.
    rewrite (nth_error_nth' _ 0%nat) by (rewrite length_seq; exact I).
    rewrite seq_nth by exact I. reflexivity. }
  destruct (bin_index_ends m M numBins Lt N') as [I0 I1]. fold b in I0, I1.
  assert (Count : forall (x : Qc) i,
             bin_index m b numBins x = i ->
             (copies (Num x) values
              <= values_in_bin m b numBins values i)%nat).
  { intros x i Hi. unfold copies, values_in_bin.
    apply filter_length_incl. intros v _ E.
    apply strict_eq_Num in E. subst v. cbn [bin_index_of].
    apply Nat.eqb_eq. exact Hi. }
  exists bins, (counted (values_in_bin m b numBins values 0)
                  (make_bin fmt (Num m) (Num b) 0)),
    (counted (values_in_bin m b numBins values (numBins - 1))
       (make_bin fmt (Num m) (Num b) (numBins - 1))).
  split; [reflexivity|].
  split; [apply Fresh; exact N'|].
  split; [apply Fresh; lia|].
  pose proof (Count m 0%nat I0) as C0.
  pose proof (Count M (numBins - 1)%nat I1) as C1.
  pose proof (copies_member m values Hm) as P0.
  pose proof (copies_member M values HM) as P1.
  cbn [counted make_bin bin_min bin_count].
  split.
  { unfold of_nat, of_Z. cbn [mul add]. f_equal. apply Qc_is_canon. to_Q.
    change (inject_Z (Z.of_nat 0)) with 0%Q. lra. }
  repeat split; lia.
Qed.

Lemma createBins_end_bins_witness :
  exists bins first last,
    createBins integer_to_string [of_Z 5; of_Z 7; of_Z 9; of_Z 6] 3 = Ok bins
    /\ nth_error bins 0 = Some first
    /\ nth_error bins (3 - 1) = Some last
    /\ bin_min first = Math_min [of_Z 5; of_Z 7; of_Z 9; of_Z 6]
    /\ (copies (Math_min [of_Z 5; of_Z 7; of_Z 9; of_Z 6])
          [of_Z 5; of_Z 7; of_Z 9; of_Z 6] <= bin_count first)%nat
    /\ (copies (Math_max [of_Z 5; of_Z 7; of_Z 9; of_Z 6])
          [of_Z 5; of_Z 7; of_Z 9; of_Z 6] <= bin_count last)%nat
    /\ (1 <= bin_count first)%nat
    /\ (1 <= bin_count last)%nat.
Proof.
  apply (createBins_end_bins integer_to_string
           [of_Z 5; of_Z 7; of_Z 9; of_Z 6] 3).
  exact sample_values_in_double_range.
Defined.

(** ** The income histogram of the dashboard *)

(** The income histogram.  Without records it has 20 bins that count
    nothing.  With at least one record (and at most 65535, one argument of
    the spread call each) and all incomes the same number it throws a
    TypeError; a single record is enough.  With incomes within the range of
    floating point for 20 bins (finite, of at most 10^300 in magnitude, not
    more than 65535 of them, spread by at least 20 * 10^-300) it has 20 bins
    whose counts add up to the number of records. *)
Theorem income_distribution_outcome
    (fmt : number -> string) (data : list HomeCreditRecord) :
  (data = [] ->
   exists bins,
     prepareChartData fmt data "income_distribution" = Ok (Histogram bins)
     /\ List.length bins = 20%nat
     /\ count_total bins = 0%nat)
  /\ (data <> [] ->
      (Z.of_nat (List.length data) <= 65535)%Z ->
      (exists q, forall r, In r data -> AMT_INCOME_TOTAL r = Num q) ->
      prepareChartData fmt data "income_distribution" = TypeError)
  /\ (in_double_range (map AMT_INCOME_TOTAL data) 20 ->
      exists bins,
        prepareChartData fmt data "income_distribution" = Ok (Histogram bins)
        /\ List.length bins = 20%nat
        /\ count_total bins = List.length data).
Proof.
  change (prepareChartData fmt data "income_distribution")
    with (match createBins fmt (map AMT_INCOME_TOTAL data) 20 with
          | Ok incomeBins => Ok (Histogram incomeBins)
          | TypeError => TypeError
          end).
  split; [|split].
  - intros ->. eexists. split; [reflexivity|].
    split; [reflexivity | apply count_total_fresh].
  - intros NE _ [q Same].
    assert (All : Forall (fun v => v = Num q) (map AMT_INCOME_TOTAL data)).
    { apply Forall_forall. intros v Hv. apply in_map_iff in Hv.
      destruct Hv as [r [<- Hr]]. apply Same. exact Hr. }
    assert (NE' : map AMT_INCOME_TOTAL data <> [])
      by (destruct data; [congruence | discriminate]).
    unfold createBins.
    destruct (Math_min_identical q _ NE' All) as [-> ->].
    destruct (map AMT_INCOME_TOTAL data) as [|v values]; [congruence|].
    inversion All as [|? ? -> _]; subst.
    cbn [fold_left]. unfold count_value at 2.
    rewrite degenerate_index, fold_count_value_TypeError. reflexivity.
  - intro R.
    destruct (in_double_range_spread _ _ R)
      as [m [M [Em [EM [_ [_ [_ [LB [Eb B]]]]]]]]].
    destruct R as [F _].
    unfold createBins. rewrite Eb, Em.
    destruct (fold_count_value_total m _ 20 (map AMT_INCOME_TOTAL data)
                B ltac:(lia) F LB
                (map (make_bin fmt (Num m)
                        (Num ((M + - m) / Q2Qc (inject_Z (Z.of_nat 20)))))
                   (seq 0 20)))
      as [bins [-> [L C]]].
    { rewrite length_map, length_seq. reflexivity. }
    exists bins. split; [reflexivity|]. split; [exact L|].
    rewrite C, count_total_fresh, length_map. reflexivity.
Qed.

Lemma income_distribution_outcome_witness :
  prepareChartData integer_to_string
    [applicant 100001 GenderM "Higher education" 90000 T0]
    "income_distribution" = TypeError
  /\ exists bins,
       prepareChartData integer_to_string applicants "income_distribution"
       = Ok (Histogram bins)
       /\ List.length bins = 20%nat
       /\ count_total bins = List.length applicants.
Proof.
  split.
  - apply (income_distribution_outcome integer_to_string
             [applicant 100001 GenderM "Higher education" 90000 T0]).
    + discriminate.
    + cbn. lia.
    + exists (Q2Qc (inject_Z 90000)).
      intros r [<- | []]. reflexivity.
  - apply (income_distribution_outcome integer_to_string applicants).
    split; [repeat constructor|]. split; [cbn; lia|].
    split.
    { intros x Hx.
      repeat (destruct Hx as [Hx | Hx];
              [apply Num_inj in Hx; subst x;
               split; unfold Qcle; rewrite !this_Q2Qc, <- Zle_Qle; lia|]).
      destruct Hx. }
    split; [cbn; lia|]. vm_compute. reflexivity.
Defined.

(** ** The correlation matrix is symmetric *)

Lemma add_comm (x y : number) : x + y = y + x.
Proof.
  destruct x as [a| | |], y as [b| | |]; cbn [add]; try reflexivity.
  f_equal. apply Qcplus_comm.
Qed.

Lemma inf_of_sign_comm (s t : comparison) :
  inf_of_sign s t = inf_of_sign t s.
Proof. destruct s, t; reflexivity. Qed.

Lemma mul_comm (x y : number) : x * y = y * x.
Proof.
  destruct x as [a| | |], y as [b| | |]; cbn [mul]; try reflexivity;
    try apply inf_of_sign_comm.
  f_equal. apply Qcmult_comm.
Qed.

Lemma fold_left_map_ext {A B C} (f : A -> B -> A) (g : C -> B)
    (h : A -> C -> A) (l : list C) (a : A) :
  (forall s p, f s (g p) = h s p) ->
  fold_left f (map g l) a = fold_left h l a.
Proof.
  intro E. revert a. induction l as [|p l IH]; intro a; cbn [map fold_left];
    [reflexivity|].
  rewrite E. apply IH.
Qed.

Section CorrelationSymmetry.

Variable Math_sqrt : number -> number.
Variable Number_of_string : string -> number.

Lemma valid_pairs_swap (data : list HomeCreditRecord)
    (field1 field2 : string) :
  valid_pairs Number_of_string data field2 field1
  = map swap_pair (valid_pairs Number_of_string data field1 field2).
Proof.
  unfold valid_pairs. rewrite map_map. cbn [swap_pair fst snd].
  f_equal. apply filter_ext. intro r. apply andb_comm.
Qed.

Lemma pearson_numerator_swap (pairs : list (number * number)) :
  pearson_numerator (map swap_pair pairs) = pearson_numerator pairs.
Proof.
  unfold pearson_numerator. rewrite length_map.
  rewrite (fold_left_map_ext (fun sum p => sum + fst p) swap_pair
             (fun sum p => sum + snd p)) by reflexivity.
  rewrite (fold_left_map_ext (fun sum p => sum + snd p) swap_pair
             (fun sum p => sum + fst p)) by reflexivity.
  rewrite (fold_left_map_ext (fun sum p => sum + fst p * snd p) swap_pair
             (fun sum p => sum + fst p * snd p))
    by (intros s p; cbn [swap_pair fst snd]; rewrite mul_comm; reflexivity).
  cbv zeta.
  rewrite (mul_comm (fold_left (fun sum p => sum + snd p) pairs (of_Z 0))).
  reflexivity.
Qed.

Lemma pearson_denominator_swap (pairs : list (number * number)) :
  pearson_denominator Math_sqrt (map swap_pair pairs)
  = pearson_denominator Math_sqrt pairs.
Proof.
  unfold pearson_denominator. rewrite length_map.
  rewrite (fold_left_map_ext (fun sum p => sum + fst p) swap_pair
             (fun sum p => sum + snd p)) by reflexivity.
  rewrite (fold_left_map_ext (fun sum p => sum + snd p) swap_pair
             (fun sum p => sum + fst p)) by reflexivity.
  rewrite (fold_left_map_ext (fun sum p => sum + fst p * fst p) swap_pair
             (fun sum p => sum + snd p * snd p)) by reflexivity.
  rewrite (fold_left_map_ext (fun sum p => sum + snd p * snd p) swap_pair
             (fun sum p => sum + fst p * fst p)) by reflexivity.
  cbv zeta. f_equal. apply mul_comm.
Qed.

Lemma calculatePearsonCorrelation_swap (data : list HomeCreditRecord)
    (field1 field2 : string) :
  calculatePearsonCorrelation Math_sqrt Number_of_string data field1 field2
  = calculatePearsonCorrelation Math_sqrt Number_of_string data field2 field1.
Proof.
  unfold calculatePearsonCorrelation.
  rewrite (valid_pairs_swap data field1 field2). cbv zeta.
  rewrite length_map, pearson_numerator_swap, pearson_denominator_swap.
  reflexivity.
Qed.

Lemma find_row {V} (g : string -> V) (fields : list string) (field : string) :
  find (fun row => String.eqb (fst row) field)
       (map (fun f => (f, g f)) fields)
  = if includes fields field then Some (field, g field) else None.
Proof.
  unfold includes. induction fields as [|f fields IH];
    cbn [map find existsb fst]; [reflexivity|].
  rewrite (String.eqb_sym field f).
  destruct (String.eqb_spec f field) as [-> | NE]; [reflexivity|].
  cbn [orb]. exact IH.
Qed.

Lemma correlation_entry_value (data : list HomeCreditRecord)
    (field1 field2 : string) :
  correlation_entry
    (calculateCorrelations Math_sqrt Number_of_string data) field1 field2
  = if includes numericalFields field1 && includes numericalFields field2
    then Some (calculatePearsonCorrelation Math_sqrt Number_of_string
                 data field1 field2)
    else None.
Proof.
  unfold correlation_entry, calculateCorrelations.
  rewrite (find_row
             (fun field1 =>
                map (fun field2 =>
                       (field2,
                        calculatePearsonCorrelation Math_sqrt Number_of_string
                          data field1 field2)) numericalFields)).
  destruct (includes numericalFields field1); [|reflexivity].
  cbn [snd andb]. unfold get.
  rewrite (find_row
             (fun field2 =>
                calculatePearsonCorrelation Math_sqrt Number_of_string
                  data field1 field2)).
  destruct (includes numericalFields field2); reflexivity.
Qed.

(** The correlation of two fields does not depend on their order, whatever
    values the records hold, and the matrix of [calculateCorrelations] is
    symmetric: it holds [calculatePearsonCorrelation data field1 field2] at
    row [field1] and column [field2] for the ten numerical fields, and no
    other entry. *)
Theorem correlation_matrix_symmetric (data : list HomeCreditRecord)
    (field1 field2 : string) :
  let correlations := calculateCorrelations Math_sqrt Number_of_string data in
  calculatePearsonCorrelation Math_sqrt Number_of_string data field1 field2
  = calculatePearsonCorrelation Math_sqrt Number_of_string data field2 field1
  /\ correlation_entry correlations field1 field2
     = correlation_entry correlations field2 field1
  /\ correlation_entry correlations field1 field2
     = if includes numericalFields field1 && includes numericalFields field2
       then Some (calculatePearsonCorrelation Math_sqrt Number_of_string
                    data field1 field2)
       else None.
Proof.
  cbv zeta. split; [apply calculatePearsonCorrelation_swap|].
  split; [|apply correlation_entry_value].
  rewrite !correlation_entry_value.
  rewrite (andb_comm (includes numericalFields field2)).
  rewrite (calculatePearsonCorrelation_swap data field2 field1).
  reflexivity.
Qed.

End CorrelationSymmetry.

(** ** The default-risk score is a probability *)

(** Whatever the inputs (NaN and the infinities included), the score is a
    finite number between 0.02688 (the baseline with every discount) and the
    cap 0.5. *)
Theorem getDefaultRiskByProfile_bounds
    (age income : number) (education : string) (employment : number) :
  is_finite (getDefaultRiskByProfile age income education employment) = true
  /\ (dec 2688 100000
      <=? getDefaultRiskByProfile age income education employment) = true
  /\ (getDefaultRiskByProfile age income education employment <=? dec 5 10)
     = true.
Proof.
  unfold getDefaultRiskByProfile;
  destruct (age <? of_Z 25), (age <? of_Z 35), (age >? of_Z 65);
    destruct (income <? of_Z 100000), (income <? of_Z 200000),
      (income >? of_Z 500000);
    destruct (String.eqb education "Higher education"
              || String.eqb education "Academic degree"),
      (String.eqb education "Lower secondary");
    destruct (employment <? of_Z 1), (employment >? of_Z 10);
    cbv zeta; vm_compute; repeat split.
Qed.

(** ** The derivation passes can be repeated and swapped *)

Lemma addIncomeBrackets_incomes (records : list HomeCreditRecord) :
  map AMT_INCOME_TOTAL (addIncomeBrackets records)
  = map AMT_INCOME_TOTAL records.
Proof.
  unfold addIncomeBrackets. cbv zeta. rewrite map_map. apply map_ext.
  reflexivity.
Qed.

Lemma preprocessData_incomes (records : list HomeCreditRecord) :
  map AMT_INCOME_TOTAL (preprocessData records)
  = map AMT_INCOME_TOTAL records.
Proof.
  unfold preprocessData. rewrite map_map. apply map_ext. reflexivity.
Qed.

(** Running [preprocessData] or [addIncomeBrackets] a second time changes
    nothing, and the two passes give the same records in either order: each
    reads raw fields only, which no pass writes. *)
Theorem derivation_passes_commute (records : list HomeCreditRecord) :
  preprocessData (preprocessData records) = preprocessData records
  /\ addIncomeBrackets (addIncomeBrackets records)
     = addIncomeBrackets records
  /\ preprocessData (addIncomeBrackets records)
     = addIncomeBrackets (preprocessData records).
Proof.
  split; [|split].
  - unfold preprocessData. rewrite map_map. apply map_ext. reflexivity.
  - unfold addIncomeBrackets at 1. rewrite addIncomeBrackets_incomes.
    cbv zeta. unfold addIncomeBrackets. cbv zeta. rewrite map_map.
    apply map_ext. reflexivity.
  - unfold addIncomeBrackets at 2. rewrite preprocessData_incomes.
    unfold addIncomeBrackets, preprocessData. cbv zeta. rewrite !map_map.
    apply map_ext. reflexivity.
Qed.

(** ** Ages survive the encoding in days *)

Lemma Qfloor_unique (y : Q) (k : Z) :
  (inject_Z k <= y)%Q -> (y < inject_Z (k + 1))%Q -> Qfloor y = k.
Proof.
  intros L U. apply floor_ge_iff in L.
  destruct (Z.lt_ge_cases (Qfloor y) (k + 1)) as [H | H]; [lia|].
  apply floor_ge_iff in H. exfalso. exact (Qle_not_lt _ _ H U).
Qed.

Lemma days_to_years (a : Z) :
  Math_round (neg (neg (Math_round (of_Z a * dec 36525 100)))
              / dec 36525 100 * of_Z 10) / of_Z 10
  = of_Z a.
Proof.
  unfold of_Z at 1, dec at 1. cbn [mul Math_round].
  match goal with
  | |- context [of_Z (Qfloor ?y)] => remember (Qfloor y) as n eqn:En
  end.
  assert (Nlo : (inject_Z n <= inject_Z a * (36525 # 100) + (1 # 2))%Q).
  { subst n. eapply Qle_trans; [apply Qfloor_le|]. to_Q. apply Qle_refl. }
  assert (Nhi : (inject_Z a * (36525 # 100) + (1 # 2) < inject_Z (n + 1))%Q).
  { subst n. eapply Qle_lt_trans; [|apply Qlt_floor]. to_Q.
    apply Qle_refl. }
  rewrite inject_Z_plus in Nhi. clear En.
  unfold of_Z at 1. cbn [neg]. unfold dec, of_Z at 1. cbn [div].
  replace (Qc_eqb (Q2Qc (36525 # 100)) 0) with false
    by (vm_compute; reflexivity).
  cbn [mul Math_round].
  match goal with
  | |- context [of_Z (Qfloor ?y)] =>
      assert (F : Qfloor y = (10 * a)%Z)
  end.
  { apply Qfloor_unique; to_Q; rewrite ?inject_Z_plus, ?inject_Z_mult;
      unfold Qdiv; change (/ (36525 # 100))%Q with (100 # 36525)%Q;
      change (inject_Z 10) with 10%Q; change (inject_Z 1) with 1%Q;
      change (inject_Z 1) with 1%Q in Nhi; lra. }
  rewrite F. unfold of_Z. cbn [div].
  replace (Qc_eqb (Q2Qc (inject_Z 10)) 0) with false
    by (vm_compute; reflexivity).
  f_equal. apply Qc_is_canon. to_Q. rewrite inject_Z_mult.
  change (inject_Z 10) with 10%Q. field.
Qed.

(** A birth date written as [-Math.round(age * 365.25)] days, as the
    generator writes it, is read back by [preprocessData] as the same age,
    for every whole number of years. *)
Theorem age_round_trip (record : HomeCreditRecord) (a : Z) :
  DAYS_BIRTH record = neg (Math_round (of_Z a * dec 36525 100)) ->
  AGE_YEARS (preprocessRecord record) = Some (of_Z a).
Proof.
  intro E. cbn [preprocessRecord AGE_YEARS]. rewrite E.
  f_equal. apply days_to_years.
Qed.

Lemma age_round_trip_witness :
  AGE_YEARS (preprocessRecord (raw_sample 100001 90000 T0))
  = Some (of_Z 40).
Proof.
  apply (age_round_trip (raw_sample 100001 90000 T0) 40).
  num_eq.
Defined.

(** ** Rates and percentages of the KPI summary *)

Lemma pow10_pos (d : nat) : (0 < pow10 d)%Z.
Proof. unfold pow10. apply Z.pow_pos_nonneg; lia. Qed.

(** [toFixed] on a number between 0 and 100: the nearest decimal, given by
    its numerator over [10 ^ d]. *)
Lemma toFixed_small (q : Qc) (d : nat) :
  (0 <= q)%Qc -> (q <= Q2Qc (inject_Z 100))%Qc ->
  exists n : Z,
    toFixed (Num q) d = Num (Q2Qc (n # Z.to_pos (pow10 d)))
    /\ (inject_Z n <= this q * inject_Z (pow10 d) + (1 # 2))%Q
    /\ (this q * inject_Z (pow10 d) + (1 # 2) < inject_Z n + 1)%Q.
Proof.
  intros Q0 Q100. pose proof (pow10_pos d) as P.
  assert (PQ : (0 < inject_Z (pow10 d))%Q)
    by (change 0%Q with (inject_Z 0); rewrite <- Zlt_Qlt; exact P).
  unfold Qcle in Q0, Q100. change (this (Q2Qc 0)) with 0%Q in Q0.
  rewrite this_Q2Qc in Q100. change (inject_Z 100) with 100%Q in Q100.
  cbn [toFixed].
  replace (Qc_leb (Q2Qc (inject_Z (pow10 21))) q) with false.
  2:{ symmetry. apply Qc_leb_gt. unfold Qclt. rewrite this_Q2Qc.
      eapply Qle_lt_trans; [exact Q100|]. vm_compute. reflexivity. }
  replace (Qc_leb q (Q2Qc (inject_Z (- pow10 21)))) with false.
  2:{ symmetry. apply Qc_leb_gt. unfold Qclt. rewrite this_Q2Qc.
      eapply Qlt_le_trans; [|exact Q0]. vm_compute. reflexivity. }
  cbn [orb]. unfold round_half_away.
  replace (Qc_ltb (q * Q2Qc (inject_Z (pow10 d))) 0) with false.
  2:{ symmetry. apply Qc_ltb_ge. unfold Qcle.
      change (this (Q2Qc 0)) with 0%Q. to_Q. nra. }
  eexists. split; [reflexivity|]. split.
  - eapply Qle_trans; [apply Qfloor_le|]. to_Q. apply Qle_refl.
  - change 1%Q with (inject_Z 1). rewrite <- inject_Z_plus.
    eapply Qle_lt_trans; [|apply Qlt_floor]. to_Q. apply Qle_refl.
Qed.

Lemma Qlt_inject_Z_succ (a b : Z) :
  (inject_Z a < inject_Z b + 1)%Q -> (a <= b)%Z.
Proof.
  intro H. change 1%Q with (inject_Z 1) in H.
  rewrite <- inject_Z_plus, <- Zlt_Qlt in H. lia.
Qed.

(** A percentage of a part, printed with [d] decimals, lies between 0 and
    100. *)
Lemma toFixed_percent (p t d : nat) :
  (1 <= t)%nat -> (p <= t)%nat ->
  exists q, toFixed (of_nat p / of_nat t * of_Z 100) d = Num q
            /\ (0 <= q)%Qc /\ (q <= Q2Qc (inject_Z 100))%Qc.
Proof.
  intros T PT.
  destruct (percent_of_part p t T PT) as [x [-> [X0 [X100 _]]]].
  destruct (toFixed_small x d X0 X100) as [n [-> [Lo Hi]]].
  pose proof (pow10_pos d) as P.
  assert (PQ : (0 < inject_Z (pow10 d))%Q)
    by (change 0%Q with (inject_Z 0); rewrite <- Zlt_Qlt; exact P).
  unfold Qcle in X0, X100. change (this (Q2Qc 0)) with 0%Q in X0.
  rewrite this_Q2Qc in X100. change (inject_Z 100) with 100%Q in X100.
  assert (N0 : (0 <= n)%Z).
  { apply Qlt_inject_Z_succ. change (inject_Z 0) with 0%Q. nra. }
  assert (N100 : (n <= 100 * pow10 d)%Z).
  { apply Qlt_inject_Z_succ. rewrite inject_Z_mult.
    change (inject_Z 100) with 100%Q. nra. }
  eexists. split; [reflexivity|].
  unfold Qcle. change (this (Q2Qc 0)) with 0%Q. rewrite !this_Q2Qc.
  unfold Qle, inject_Z. cbn [Qnum Qden].
  rewrite Z2Pos.id by exact P. lia.
Qed.

Lemma filter_length_le {A} (f : A -> bool) (l : list A) :
  (List.length (filter f l) <= List.length l)%nat.
Proof.
  induction l as [|x l IH]; cbn [filter List.length]; [lia|].
  destruct (f x); cbn [List.length]; lia.
Qed.

(** The default rate and the repaid rate, both printed with two decimals,
    add up to 100 or, when the unrounded rate ends in exactly half a
    hundredth, to 100.01. *)
Lemma rates_total (p t : nat) :
  (1 <= t)%nat -> (p <= t)%nat ->
  exists d r : Qc,
    toFixed (of_nat p / of_nat t * of_Z 100) 2 = Num d
    /\ toFixed (of_Z 100 - of_nat p / of_nat t * of_Z 100) 2 = Num r
    /\ (0 <= d)%Qc /\ (d <= Q2Qc (inject_Z 100))%Qc
    /\ (0 <= r)%Qc /\ (r <= Q2Qc (inject_Z 100))%Qc
    /\ (Q2Qc (9998 # 100) < d + r)%Qc
    /\ (d + r < Q2Qc (10002 # 100))%Qc.
Proof.
  intros T PT.
  destruct (percent_of_part p t T PT) as [x [E [X0 [X100 _]]]].
  rewrite E. unfold of_Z at 1, sub. cbn [neg add].
  set (y := (Q2Qc (inject_Z 100) + - x)%Qc).
  assert (Y : (this y == 100 - this x)%Q).
  { subst y. to_Q. change (inject_Z 100) with 100%Q. lra. }
  assert (X0' := X0). assert (X100' := X100).
  unfold Qcle in X0', X100'. change (this (Q2Qc 0)) with 0%Q in X0'.
  rewrite this_Q2Qc in X100'. change (inject_Z 100) with 100%Q in X100'.
  assert (Y0 : (0 <= y)%Qc).
  { unfold Qcle. change (this (Q2Qc 0)) with 0%Q. rewrite Y. lra. }
  assert (Y100 : (y <= Q2Qc (inject_Z 100))%Qc).
  { unfold Qcle. rewrite this_Q2Qc, Y. change (inject_Z 100) with 100%Q.
    lra. }
  destruct (toFixed_small x 2 X0 X100) as [n1 [-> [Lo1 Hi1]]].
  destruct (toFixed_small y 2 Y0 Y100) as [n2 [-> [Lo2 Hi2]]].
  change (pow10 2) with 100%Z in *. change (Z.to_pos 100) with 100%positive.
  change (inject_Z 100) with 100%Q in Lo1, Hi1, Lo2, Hi2.
  rewrite Y in Lo2, Hi2.
  assert (N1 : (0 <= n1 <= 10000)%Z).
  { split; apply Qlt_inject_Z_succ;
      [change (inject_Z 0) with 0%Q | change (inject_Z 10000) with 10000%Q];
      lra. }
  assert (N2 : (0 <= n2 <= 10000)%Z).
  { split; apply Qlt_inject_Z_succ;
      [change (inject_Z 0) with 0%Q | change (inject_Z 10000) with 10000%Q];
      lra. }
  assert (S : (10000 <= n1 + n2 <= 10001)%Z).
  { split.
    - apply Qlt_inject_Z_succ. rewrite inject_Z_plus.
      change (inject_Z 10000) with 10000%Q. lra.
    - apply Qlt_inject_Z_succ. rewrite inject_Z_plus.
      change (inject_Z 10001) with 10001%Q. lra. }
  exists (Q2Qc (n1 # 100)), (Q2Qc (n2 # 100)).
  split; [reflexivity|]. split; [reflexivity|].
  repeat split.
  - unfold Qcle. change (this (Q2Qc 0)) with 0%Q. rewrite this_Q2Qc.
    unfold Qle. cbn [Qnum Qden]. lia.
  - unfold Qcle. rewrite !this_Q2Qc. unfold Qle, inject_Z. cbn [Qnum Qden].
    lia.
  - unfold Qcle. change (this (Q2Qc 0)) with 0%Q. rewrite this_Q2Qc.
    unfold Qle. cbn [Qnum Qden]. lia.
  - unfold Qcle. rewrite !this_Q2Qc. unfold Qle, inject_Z. cbn [Qnum Qden].
    lia.
  - unfold Qclt. to_Q. unfold Qlt, Qplus. cbn [Qnum Qden]. lia.
  - unfold Qclt. to_Q. unfold Qlt, Qplus. cbn [Qnum Qden]. lia.
Qed.

(** For a non-empty collection the summary holds the number of records and
    of defaults; the default and repaid rates lie between 0 and 100 and add
    up to 100 give or take a hundredth (each is rounded to two decimals on
    its own): their sum lies strictly between 99.98 and 100.02; the gender,
    children and high-credit percentages lie between 0 and 100. *)
Theorem calculateKPIs_rates (data : list HomeCreditRecord) :
  data <> [] ->
  let kpis := calculateKPIs data in
  get kpis "totalApplicants" = Some (of_nat (List.length data))
  /\ get kpis "totalDefaults"
     = Some (of_nat (List.length
                       (filter (fun r => target_eqb (TARGET r) T1) data)))
  /\ (exists d r : Qc,
        get kpis "defaultRate" = Some (Num d)
        /\ get kpis "repaidRate" = Some (Num r)
        /\ (0 <= d)%Qc /\ (d <= Q2Qc (inject_Z 100))%Qc
        /\ (0 <= r)%Qc /\ (r <= Q2Qc (inject_Z 100))%Qc
        /\ (Q2Qc (9998 # 100) < d + r)%Qc
        /\ (d + r < Q2Qc (10002 # 100))%Qc)
  /\ (forall name,
        In name ["malePercentage"; "femalePercentage";
                 "withChildrenPercentage"; "highCreditPercentage"] ->
        exists p, get kpis name = Some (Num p)
                  /\ (0 <= p)%Qc /\ (p <= Q2Qc (inject_Z 100))%Qc).
Proof.
  intro NE. cbv zeta.
  assert (T : (1 <= List.length data)%nat)
    by (destruct data; [congruence | cbn [List.length]; lia]).
  split; [destruct data; [congruence | reflexivity]|].
  split; [destruct data; [congruence | reflexivity]|].
  split.
  - destruct (rates_total
                (List.length (filter (fun r => target_eqb (TARGET r) T1) data))
                (List.length data) T (filter_length_le _ _))
      as [d [r [Ed [Er H]]]].
    exists d, r. rewrite <- Ed, <- Er.
    split; [destruct data; [congruence | reflexivity]|].
    split; [destruct data; [congruence | reflexivity]|].
    exact H.
  - intros name Hname.
    repeat (destruct Hname as [<- | Hname];
            [match goal with
             | |- exists p, get _ ?n = _ /\ _ => idtac
             end|]); [| | | |destruct Hname].
    + destruct (toFixed_percent
                  (List.length
                     (filter (fun r => gender_eqb (CODE_GENDER r) GenderM)
                        data))
                  (List.length data) 1 T (filter_length_le _ _))
        as [p [E H]].
      exists p. rewrite <- E.
      split; [destruct data; [congruence | reflexivity] | exact H].
    + destruct (toFixed_percent
                  (List.length
                     (filter (fun r => gender_eqb (CODE_GENDER r) GenderF)
                        data))
                  (List.length data) 1 T (filter_length_le _ _))
        as [p [E H]].
      exists p. rewrite <- E.
      split; [destruct data; [congruence | reflexivity] | exact H].
    + destruct (toFixed_percent
                  (List.length
                     (filter (fun r => CNT_CHILDREN r >? of_Z 0) data))
                  (List.length data) 1 T (filter_length_le _ _))
        as [p [E H]].
      exists p. rewrite <- E.
      split; [destruct data; [congruence | reflexivity] | exact H].
    + destruct (toFixed_percent
                  (List.length
                     (filter (fun r => AMT_CREDIT r >? of_Z 1000000) data))
                  (List.length data) 1 T (filter_length_le _ _))
        as [p [E H]].
      exists p. rewrite <- E.
      split; [destruct data; [congruence | reflexivity] | exact H].
Qed.

Lemma calculateKPIs_rates_witness :
  get (calculateKPIs tie_samples) "totalApplicants"
  = Some (of_nat (List.length tie_samples))
  /\ get (calculateKPIs tie_samples) "totalDefaults"
     = Some (of_nat (List.length
                       (filter (fun r => target_eqb (TARGET r) T1)
                          tie_samples)))
  /\ (exists d r : Qc,
        get (calculateKPIs tie_samples) "defaultRate" = Some (Num d)
        /\ get (calculateKPIs tie_samples) "repaidRate" = Some (Num r)
        /\ (0 <= d)%Qc /\ (d <= Q2Qc (inject_Z 100))%Qc
        /\ (0 <= r)%Qc /\ (r <= Q2Qc (inject_Z 100))%Qc
        /\ (Q2Qc (9998 # 100) < d + r)%Qc
        /\ (d + r < Q2Qc (10002 # 100))%Qc)
  /\ (forall name,
        In name ["malePercentage"; "femalePercentage";
                 "withChildrenPercentage"; "highCreditPercentage"] ->
        exists p, get (calculateKPIs tie_samples) name = Some (Num p)
                  /\ (0 <= p)%Qc /\ (p <= Q2Qc (inject_Z 100))%Qc).
Proof.
  apply (calculateKPIs_rates tie_samples). discriminate.
Defined.

(** The rates of [tie_samples]: 3.13 and 96.88, which add up to 100.01. *)
Lemma rates_of_tie_samples :
  get (calculateKPIs tie_samples) "defaultRate" = Some (dec 313 100)
  /\ get (calculateKPIs tie_samples) "repaidRate" = Some (dec 9688 100)
  /\ dec 313 100 + dec 9688 100 = dec 10001 100.
Proof. repeat split; num_eq. Qed.

(** ** Toggling a checkbox of the filter sidebar *)

Lemma includes_spec (arr : list string) (s : string) :
  includes arr s = true <-> In s arr.
Proof.
  unfold includes. rewrite existsb_exists. split.
  - intros [x [Hx E]]. apply String.eqb_eq in E. subst x. exact Hx.
  - intro H. exists s. split; [exact H | apply String.eqb_refl].
Qed.

Lemma includes_eq (a b : list string) :
  (forall s, In s a <-> In s b) -> forall s, includes a s = includes b s.
Proof.
  intros H s. destruct (includes a s) eqn:A, (includes b s) eqn:B;
    try reflexivity.
  - apply includes_spec, H, includes_spec in A. congruence.
  - apply includes_spec, H, includes_spec in B. congruence.
Qed.

Lemma filter_absent (l : list string) (v : string) :
  ~ In v l -> filter (fun item => negb (String.eqb item v)) l = l.
Proof.
  intro N. induction l as [|x l IH]; cbn [filter]; [reflexivity|].
  destruct (String.eqb_spec x v) as [-> | NE].
  - exfalso. apply N. left. reflexivity.
  - cbn [negb]. rewrite IH; [reflexivity|].
    intro H. apply N. right. exact H.
Qed.

(** Toggling a value twice gives a list with the same members, which is
    empty only when the list was; when the value was not selected it gives
    the list itself. *)
Lemma toggle_twice (l : list string) (v : string) :
  let once :=
    if includes l v then filter (fun item => negb (String.eqb item v)) l
    else (l ++ [v])%list in
  let twice :=
    if includes once v
    then filter (fun item => negb (String.eqb item v)) once
    else (once ++ [v])%list in
  (forall s, In s twice <-> In s l)
  /\ (includes l v = false -> twice = l).
Proof.
  cbv zeta. destruct (includes l v) eqn:E.
  - assert (Out : ~ In v (filter (fun item => negb (String.eqb item v)) l)).
    { intro H. apply filter_In in H. destruct H as [_ H].
      rewrite String.eqb_refl in H. discriminate. }
    replace (includes (filter (fun item => negb (String.eqb item v)) l) v)
      with false.
    2:{ symmetry. apply Bool.not_true_is_false. intro I.
        apply includes_spec in I. contradiction. }
    split; [|discriminate]. intro s. rewrite in_app_iff, filter_In.
    cbn [In]. apply includes_spec in E. split.
    + intros [[H _] | [<- | []]]; assumption.
    + intro H. destruct (String.eqb_spec s v) as [-> | NE].
      * right. left. reflexivity.
      * left. split; [exact H | reflexivity].
  - assert (N : ~ In v l).
    { intro H. apply includes_spec in H. congruence. }
    replace (includes (l ++ [v]) v) with true.
    2:{ symmetry. apply includes_spec, in_app_iff. right. left.
        reflexivity. }
    assert (F : filter (fun item => negb (String.eqb item v)) (l ++ [v]) = l).
    { rewrite filter_app, (filter_absent l v N). cbn [filter].
      rewrite String.eqb_refl. cbn [negb]. apply app_nil_r. }
    rewrite F. split; [intro s; reflexivity | reflexivity].
Qed.

Lemma nonempty_members (a b : list string) :
  (forall s, In s a <-> In s b) ->
  (0 <? List.length a)%nat = (0 <? List.length b)%nat.
Proof.
  intro H. destruct a as [|x a], b as [|y b]; try reflexivity.
  - exfalso. apply (proj2 (H y)). left. reflexivity.
  - exfalso. apply (proj1 (H x)). left. reflexivity.
Qed.

(** [keepRecord] reads the four lists through their members only. *)
Lemma keepRecord_members (f g : FilterState) (r : HomeCreditRecord) :
  (forall key s, In s (filter_list f key) <-> In s (filter_list g key)) ->
  f_ageRange f = f_ageRange g ->
  f_incomeBracket f = f_incomeBracket g ->
  f_employmentRange f = f_employmentRange g ->
  keepRecord f r = keepRecord g r.
Proof.
  intros M A B E. rewrite !keepRecord_spec, A, B, E.
  pose proof (M Gender) as MG. pose proof (M Education) as ME.
  pose proof (M FamilyStatus) as MF. pose proof (M HousingType) as MH.
  cbn [filter_list] in MG, ME, MF, MH.
  rewrite (nonempty_members _ _ MG), (includes_eq _ _ MG),
    (nonempty_members _ _ ME), (includes_eq _ _ ME),
    (nonempty_members _ _ MF), (includes_eq _ _ MF),
    (nonempty_members _ _ MH), (includes_eq _ _ MH).
  reflexivity.
Qed.

Lemma includes_toggle (l : list string) (v s : string) :
  includes (if includes l v
            then filter (fun item => negb (String.eqb item v)) l
            else (l ++ [v])%list) s
  = if String.eqb s v then negb (includes l v) else includes l s.
Proof.
  apply Bool.eq_iff_eq_true. rewrite includes_spec.
  destruct (includes l v) eqn:E.
  - rewrite filter_In. destruct (String.eqb_spec s v) as [-> | NE].
    + cbn [negb]. split; [intros [_ H] | intro H]; discriminate H.
    + rewrite includes_spec. split; [intros [H _]; exact H|].
      intro H. split; [exact H|].
      destruct (String.eqb_spec s v); [contradiction | reflexivity].
  - rewrite in_app_iff. cbn [In negb].
    destruct (String.eqb_spec s v) as [-> | NE].
    + split; [reflexivity|]. intros _. right. left. reflexivity.
    + rewrite includes_spec. split; [|intro H; left; exact H].
      intros [H | [H | []]]; [exact H | congruence].
Qed.

Lemma filter_list_updated (f : FilterState) (k : array_key)
    (l : list string) :
  filter_list (updateFilter f k l) k = l.
Proof. destruct k; reflexivity. Qed.

Lemma filter_list_other (f : FilterState) (k o : array_key)
    (l : list string) :
  o <> k -> filter_list (updateFilter f k l) o = filter_list f o.
Proof. intro NE. destruct k, o; try reflexivity; congruence. Qed.

(** Ticking a checkbox selects its value and unticking removes it, the
    other values and the other groups are left alone; ticking and unticking
    (or the reverse) brings back the view: [applyFilters] returns the same
    records as before the two clicks. *)
Theorem toggleArrayFilter_twice
    (data : list HomeCreditRecord) (filters : FilterState)
    (key : array_key) (value : string) :
  let once := toggleArrayFilter filters key value in
  let twice := toggleArrayFilter once key value in
  (forall s,
     includes (filter_list once key) s
     = if String.eqb s value
       then negb (includes (filter_list filters key) value)
       else includes (filter_list filters key) s)
  /\ (forall other, other <> key ->
        filter_list once other = filter_list filters other)
  /\ applyFilters data twice = applyFilters data filters
  /\ (includes (filter_list filters key) value = false -> twice = filters).
Proof.
  cbv zeta.
  pose proof (toggle_twice (filter_list filters key) value) as [Mem Back].
  assert (Twice :
            filter_list
              (toggleArrayFilter (toggleArrayFilter filters key value)
                 key value) key
            = let once :=
                if includes (filter_list filters key) value
                then filter (fun item => negb (String.eqb item value))
                            (filter_list filters key)
                else (filter_list filters key ++ [value])%list in
              if includes once value
              then filter (fun item => negb (String.eqb item value)) once
              else (once ++ [value])%list).
  { unfold toggleArrayFilter. cbv zeta.
    rewrite !filter_list_updated. reflexivity. }
  split; [|split; [|split]].
  - intro s. unfold toggleArrayFilter. cbv zeta.
    rewrite filter_list_updated. apply includes_toggle.
  - intros other NE. apply filter_list_other. exact NE.
  - unfold applyFilters. apply filter_ext. intro r.
    apply keepRecord_members; try reflexivity.
    intros k s.
    assert (D : k = key \/ k <> key)
      by (destruct k, key; (left; reflexivity) || (right; discriminate)).
    destruct D as [-> | NE].
    + rewrite Twice. apply Mem.
    + unfold toggleArrayFilter. cbv zeta.
      rewrite !(filter_list_other _ _ _ _ NE). reflexivity.
  - intro N. specialize (Back N). cbv zeta in Back, Twice.
    rewrite Back in Twice.
    assert (U : forall g,
               toggleArrayFilter g key value
               = updateFilter g key
                   (filter_list (toggleArrayFilter g key value) key)).
    { intro g. unfold toggleArrayFilter. cbv zeta.
      rewrite filter_list_updated. reflexivity. }
    rewrite U, Twice. unfold toggleArrayFilter. cbv zeta.
    destruct filters, key; reflexivity.
Qed.

(** ** Selecting an income bracket *)

Lemma bracket_eqb_eq (a b : bracket) : bracket_eqb a b = true -> a = b.
Proof. destruct a, b; (reflexivity || discriminate). Qed.

(** With a bracket selected, [applyFilters] keeps only records labelled
    with that bracket: "low", "mid" and "high" select the labels Low, Mid
    and High, and a record without [INCOME_BRACKET] is dropped.  Any other
    key drops every labelled record (a key named like a member of
    [Object.prototype] drops every record).  Hence on records that carry no
    label, such as raw records, each of the three brackets empties the
    view. *)
Theorem applyFilters_income_bracket
    (data : list HomeCreditRecord) (filters : FilterState) :
  f_incomeBracket filters <> "all" ->
  (forall r, In r (applyFilters data filters) ->
     match bracketMap (f_incomeBracket filters) with
     | MapLabel b => INCOME_BRACKET r = Some b
     | MapUndefined => INCOME_BRACKET r = None
     | MapInherited => False
     end)
  /\ ((forall r, In r data -> INCOME_BRACKET r = None) ->
      In (f_incomeBracket filters) ["low"; "mid"; "high"] ->
      applyFilters data filters = []).
Proof.
  intro NA.
  assert (Kept : forall r, In r (applyFilters data filters) ->
            match bracketMap (f_incomeBracket filters) with
            | MapLabel b => INCOME_BRACKET r = Some b
            | MapUndefined => INCOME_BRACKET r = None
            | MapInherited => False
            end).
  { intros r Hr. unfold applyFilters in Hr. apply filter_In in Hr.
    destruct Hr as [_ K]. rewrite keepRecord_spec in K.
    destruct (String.eqb_spec (f_incomeBracket filters) "all") as [E | _];
      [contradiction|].
    cbn [negb andb] in K.
    destruct (bracket_differs (INCOME_BRACKET r)
                (bracketMap (f_incomeBracket filters))) eqn:D.
    - rewrite !andb_false_r in K. cbn [andb] in K. discriminate K.
    - destruct (bracketMap (f_incomeBracket filters)) as [b | |],
        (INCOME_BRACKET r) as [x|]; cbn [bracket_differs] in D;
        try discriminate D; [|reflexivity].
      f_equal. apply bracket_eqb_eq.
      destruct (bracket_eqb x b); [reflexivity | discriminate D]. }
  split; [exact Kept|].
  intros Raw Key.
  destruct (applyFilters data filters) as [|r rest] eqn:E; [reflexivity|].
  exfalso.
  assert (Hr : In r (applyFilters data filters))
    by (rewrite E; left; reflexivity).
  pose proof (Kept r (or_introl eq_refl)) as K.
  assert (Hd : In r data).
  { unfold applyFilters in Hr. apply filter_In in Hr. apply Hr. }
  rewrite (Raw r Hd) in K.
  destruct Key as [Key | [Key | [Key | []]]]; rewrite <- Key in K;
    cbn in K; discriminate K.
Qed.

Lemma applyFilters_income_bracket_witness :
  (forall r,
     In r (applyFilters raw_samples
             (mkFilter [] [] [] [] (of_Z 18, of_Z 80) "low"
                (of_Z 0, of_Z 40))) ->
     match bracketMap "low" with
     | MapLabel b => INCOME_BRACKET r = Some b
     | MapUndefined => INCOME_BRACKET r = None
     | MapInherited => False
     end)
  /\ ((forall r, In r raw_samples -> INCOME_BRACKET r = None) ->
      In "low" ["low"; "mid"; "high"] ->
      applyFilters raw_samples
        (mkFilter [] [] [] [] (of_Z 18, of_Z 80) "low" (of_Z 0, of_Z 40))
      = []).
Proof.
  apply (applyFilters_income_bracket raw_samples
           (mkFilter [] [] [] [] (of_Z 18, of_Z 80) "low"
              (of_Z 0, of_Z 40))).
  discriminate.
Defined.

(** ** What the generator writes *)

Lemma ensures_ret {A} (a : A) (P : A -> Prop) : P a -> ensures (ret a) P.
Proof.
  intros H i b k E. unfold ret in E.
  replace b with a; [exact H|].
  change (fst (a, i) = fst (b, k)).
  change (match Some (a, i) with Some p => fst p | None => a end
          = fst (b, k)).
  rewrite E. reflexivity.
Qed.

Lemma ensures_bind {A B} (m : Rand A) (f : A -> Rand B)
    (P : A -> Prop) (Q : B -> Prop) :
  ensures m P -> (forall a, P a -> ensures (f a) Q) -> ensures (bind m f) Q.
Proof.
  intros Hm Hf i b k E. unfold bind in E.
  destruct (m i) as [[a j]|] eqn:M; [|discriminate E].
  exact (Hf a (Hm i a j M) j b k E).
Qed.

Lemma ensures_any {A} (m : Rand A) : ensures m (fun _ => True).
Proof. intros i a k _. exact I. Qed.

Lemma ensures_if {A} (c : bool) (m1 m2 : Rand A) (P : A -> Prop) :
  ensures m1 P -> ensures m2 P -> ensures (if c then m1 else m2) P.
Proof. destruct c; intros; assumption. Qed.

Lemma neg_of_Z (z : Z) : neg (of_Z z) = of_Z (- z).
Proof.
  unfold of_Z. cbn [neg]. f_equal. apply Qc_is_canon. to_Q.
  rewrite inject_Z_opp. reflexivity.
Qed.

Lemma add_of_Z (a b : Z) : of_Z a + of_Z b = of_Z (a + b).
Proof.
  unfold of_Z. cbn [add]. f_equal. apply Qc_is_canon. to_Q.
  rewrite inject_Z_plus. reflexivity.
Qed.

(** [Math.round] of a number whose half-up shift lies from [lo] to below
    [hi + 1]. *)
Lemma round_between (q : Qc) (lo hi : Z) :
  (inject_Z lo <= this q + (1 # 2))%Q ->
  (this q + (1 # 2) < inject_Z hi + 1)%Q ->
  whole_between lo hi (Math_round (Num q)).
Proof.
  intros L U. cbn [Math_round]. eexists. split; [reflexivity|].
  split.
  - apply floor_ge_iff. to_Q. exact L.
  - apply Qlt_inject_Z_succ. eapply Qle_lt_trans; [apply Qfloor_le|].
    to_Q. exact U.
Qed.

Section GeneratedRecords.

Variable Math_exp : number -> number.
Variable source : nat -> Qc.
Hypothesis source_range : in_unit_interval source.

Lemma ensures_random : ensures (Math_random source) unit_draw.
Proof.
  intros i a k E. unfold Math_random in E.
  assert (A : a = Num (source i)).
  { change (a = fst (Num (source i), S i)).
    change (a = match Some (Num (source i), S i) with
                | Some p => fst p
                | None => a
                end).
    rewrite E. reflexivity. }
  subst a. exists (source i). split; [reflexivity|]. apply source_range.
Qed.

Lemma ensures_pick (arr : list string) :
  arr <> [] -> ensures (pick source arr) (fun s => In s arr).
Proof.
  intros NE i s k E.
  destruct (pick_in_range source arr i source_range NE) as [s' [E' H]].
  rewrite E' in E.
  replace s with s'; [exact H|].
  change (fst (s', S i) = fst (s, k)).
  change (match Some (s', S i) with Some p => fst p | None => s' end
          = fst (s, k)).
  rewrite E. reflexivity.
Qed.

(** [randomAge] returns a whole number of years from 30 to 54. *)
Lemma ensures_randomAge (fuel : nat) :
  ensures (randomAge source fuel) (whole_between 30 54).
Proof.
  destruct fuel as [|fuel]; [intros i a k E; discriminate E|].
  intros i a k E. unfold randomAge, bind in E.
  rewrite (randomAge_loop_once source source_range) in E.
  unfold ret in E.
  assert (A : a = Math_round
                    (of_Z 42 + of_Z 12
                     * (Num (source i) + Num (source (S i)) - of_Z 1))).
  { match type of E with
    | Some (?x, ?j) = _ =>
        change (a = fst (x, j));
        change (a = match Some (x, j) with
                    | Some p => fst p
                    | None => a
                    end)
    end.
    rewrite E. reflexivity. }
  subst a. clear E.
  destruct (source_range i) as [L1 U1].
  destruct (source_range (S i)) as [L2 U2].
  unfold Qcle, Qclt in *. change (this (Q2Qc 0)) with 0%Q in *.
  change (this (Q2Qc 1)) with 1%Q in *.
  unfold of_Z, sub. cbn [neg add mul].
  apply round_between; to_Q; unfold inject_Z; lra.
Qed.

(** A draw scaled to [n] and floored is one of 0, ..., n - 1. *)
Lemma floor_of_draw (x : number) (n : nat) :
  unit_draw x -> (0 < n)%nat ->
  whole_between 0 (Z.of_nat n - 1) (Math_floor (x * of_nat n)).
Proof.
  intros [q [-> [L U]]] N.
  destruct (floor_scaled_draw q n L U N) as [k [K ->]].
  exists (Z.of_nat k). split; [reflexivity | lia].
Qed.

Lemma whole_shift (lo hi : Z) (x : number) :
  whole_between lo hi x -> whole_between (1 + lo) (1 + hi) (of_Z 1 + x).
Proof.
  intros [z [-> Z]]. exists (1 + z)%Z. split; [apply add_of_Z | lia].
Qed.

(** The days written for a tenure: the code 365243, or a whole number of
    days from -9131 to 0. *)
Lemma days_employed (u v : number) :
  unit_draw v ->
  let employment := if u >? dec 1 10 then v * of_Z 25 else of_Z (-1) in
  (if employment >? of_Z 0
   then neg (Math_round (employment * dec 36525 100))
   else of_Z 365243) = of_Z 365243
  \/ whole_between (-9131) 0
       (if employment >? of_Z 0
        then neg (Math_round (employment * dec 36525 100))
        else of_Z 365243).
Proof.
  intros [q [-> [L U]]]. cbv zeta.
  destruct (u >? dec 1 10); [|left; reflexivity].
  destruct (Num q * of_Z 25 >? of_Z 0); [|left; reflexivity].
  right. unfold of_Z, dec. cbn [mul].
  unfold Qcle, Qclt in *. change (this (Q2Qc 0)) with 0%Q in *.
  change (this (Q2Qc 1)) with 1%Q in *.
  destruct (round_between
              (q * Q2Qc (inject_Z 25) * Q2Qc (36525 # 100))%Qc 0 9131)
    as [z [-> Z]].
  - to_Q. unfold inject_Z. lra.
  - to_Q. unfold inject_Z. lra.
  - exists (- z)%Z. split; [apply neg_of_Z | lia].
Qed.

Lemma ensures_generateRecord (fuel i : nat) :
  ensures (generateRecord Math_exp source fuel i) (well_formed_raw i).
Proof.
  unfold generateRecord.
  eapply ensures_bind; [apply ensures_randomAge | intros age Hage].
  eapply ensures_bind; [apply ensures_any | intros income _].
  eapply ensures_bind;
    [apply ensures_pick; discriminate | intros education Hedu].
  eapply ensures_bind; [apply ensures_any | intros u _].
  eapply ensures_bind
    with (P := fun e => exists v, unit_draw v
                 /\ e = if u >? dec 1 10 then v * of_Z 25 else of_Z (-1)).
  { destruct (u >? dec 1 10).
    - eapply ensures_bind; [apply ensures_random | intros v Hv].
      apply ensures_ret. exists v. split; [exact Hv | reflexivity].
    - apply ensures_ret. exists (of_Z 0).
      split; [|reflexivity].
      exists (Q2Qc (inject_Z 0)). repeat split; vm_compute; congruence. }
  intros employment [v [Hv Eemp]].
  cbv zeta.
  eapply ensures_bind; [apply ensures_any | intros t _].
  eapply ensures_bind; [apply ensures_any | intros credit _].
  eapply ensures_bind; [apply ensures_any | intros a _].
  eapply ensures_bind; [apply ensures_any | intros g1 _].
  eapply ensures_bind; [apply ensures_any | intros code_gender _].
  eapply ensures_bind;
    [apply ensures_pick; discriminate | intros family Hfam].
  eapply ensures_bind; [apply ensures_any | intros c1 _].
  eapply ensures_bind with (P := whole_between 0 3).
  { apply ensures_if.
    - apply ensures_ret. exists 0%Z. split; [reflexivity | lia].
    - eapply ensures_bind; [apply ensures_random | intros c2 Hc2].
      apply ensures_ret.
      exact (floor_of_draw c2 4 Hc2 ltac:(lia)). }
  intros children Hchildren.
  eapply ensures_bind; [apply ensures_random | intros f Hf].
  eapply ensures_bind; [apply ensures_any | intros o1 _].
  eapply ensures_bind
    with (P := fun o => o = "" \/ In o occupationTypes).
  { apply ensures_if.
    - intros j s k E. right.
      exact (ensures_pick occupationTypes ltac:(discriminate) j s k E).
    - apply ensures_ret. left. reflexivity. }
  intros occupation Hocc.
  eapply ensures_bind;
    [apply ensures_pick; discriminate | intros housing Hhouse].
  eapply ensures_bind; [apply ensures_any | intros gp _].
  eapply ensures_bind;
    [apply ensures_pick; discriminate | intros contract Hcontract].
  eapply ensures_bind; [apply ensures_random | intros rr Hrr].
  eapply ensures_bind; [apply ensures_any | intros car _].
  eapply ensures_bind; [apply ensures_any | intros realty _].
  apply ensures_ret.
  constructor;
    cbn [SK_ID_CURR DAYS_BIRTH DAYS_EMPLOYED NAME_FAMILY_STATUS
         CNT_CHILDREN CNT_FAM_MEMBERS NAME_EDUCATION_TYPE OCCUPATION_TYPE
         NAME_HOUSING_TYPE NAME_CONTRACT_TYPE REGION_RATING_CLIENT
         AGE_YEARS EMPLOYMENT_YEARS DTI LOAN_TO_INCOME ANNUITY_TO_CREDIT
         INCOME_BRACKET];
    try assumption.
  - unfold of_nat. apply add_of_Z.
  - destruct Hage as [z [-> Z]]. exists z. split; [exact Z | reflexivity].
  - rewrite Eemp. exact (days_employed u v Hv).
  - exact (whole_shift 0 4 _ (floor_of_draw f 5 Hf ltac:(lia))).
  - exact (whole_shift 0 2 _ (floor_of_draw rr 3 Hrr ltac:(lia))).
  - repeat split.
Qed.

Lemma generateLoop_well_formed (fuel todo : nat) :
  forall idx records i out k,
    List.length records = idx ->
    (forall j r, nth_error records j = Some r -> well_formed_raw j r) ->
    generateLoop Math_exp source fuel todo idx records i = Some (out, k) ->
    forall j r, nth_error out j = Some r -> well_formed_raw j r.
Proof.
  induction todo as [|todo IH]; intros idx records i out k L Inv E;
    cbn [generateLoop] in E.
  - unfold ret in E.
    replace out with records; [exact Inv|].
    change (fst (records, i) = fst (out, k)).
    change (match Some (records, i) with
            | Some p => fst p
            | None => records
            end = fst (out, k)).
    rewrite E. reflexivity.
  - unfold bind in E.
    destruct (generateRecord Math_exp source fuel idx i) as [[r j]|] eqn:G;
      [|discriminate E].
    apply (IH (S idx) (records ++ [r])%list j out k); [| |exact E].
    + rewrite length_app. cbn [List.length]. lia.
    + intros n x Hn.
      destruct (Nat.lt_ge_cases n (List.length records)) as [Lt | Ge].
      * rewrite nth_error_app1 in Hn by exact Lt. apply Inv. exact Hn.
      * rewrite nth_error_app2 in Hn by exact Ge.
        destruct (n - List.length records)%nat as [|m] eqn:D.
        -- cbn [nth_error] in Hn.
           assert (X : x = r).
           { change (match Some x with Some y => y | None => x end = r).
             rewrite <- Hn. reflexivity. }
           subst x. replace n with idx by lia.
           exact (ensures_generateRecord fuel idx i r j G).
        -- cbn [nth_error] in Hn. destruct m; discriminate Hn.
Qed.

End GeneratedRecords.

(** With draws in [0, 1) [generateSyntheticData] returns the requested
    number of records, and the record at position [i] has the identifier
    100000 + i, a birth date that encodes a whole age from 30 to 54, a
    tenure of 365243 (the 'unemployed' code) or from -9131 to 0 days, 0 to 3
    children, 1 to 5 family members, a region rating from 1 to 3, its
    family status, education, housing and contract type from the lists of
    the generator, an occupation from the list or none, and no derived
    field. *)
Theorem generateSyntheticData_well_formed
    (Math_exp : number -> number) (source : nat -> Qc)
    (fuel numRecords : nat) :
  in_unit_interval source ->
  exists records k,
    generateSyntheticData Math_exp source (S fuel) numRecords 0%nat
    = Some (records, k)
    /\ List.length records = numRecords
    /\ forall i r, nth_error records i = Some r -> well_formed_raw i r.
Proof.
  intro R. unfold generateSyntheticData.
  destruct (generateLoop_returns Math_exp source R fuel numRecords
              0%nat [] 0%nat) as [out [k [E L]]].
  exists out, k. split; [exact E|]. split; [exact L|].
  apply (generateLoop_well_formed Math_exp source R (S fuel) numRecords
           0%nat [] 0%nat out k); [reflexivity | | exact E].
  intros j r H. destruct j; discriminate H.
Qed.

Lemma generateSyntheticData_well_formed_witness :
  exists records k,
    generateSyntheticData exp_polynomial sample_source 1%nat 3%nat 0%nat
    = Some (records, k)
    /\ List.length records = 3%nat
    /\ forall i r, nth_error records i = Some r -> well_formed_raw i r.
Proof.
  apply (generateSyntheticData_well_formed
           exp_polynomial sample_source 0%nat 3%nat).
  exact sample_source_range.
Defined.

(** ** The initial view shows every generated record *)

Lemma of_Z_inj (a b : Z) : of_Z a = of_Z b -> a = b.
Proof. intro H. apply Num_inj, Q2Qc_inject_Z_inj in H. exact H. Qed.

(** The tenure derived from a day count the generator writes: a number of
    years from 0 to 25. *)
Lemma employment_years_range (r : HomeCreditRecord) :
  DAYS_EMPLOYED r = of_Z 365243
  \/ whole_between (-9131) 0 (DAYS_EMPLOYED r) ->
  exists y,
    EMPLOYMENT_YEARS (preprocessRecord r) = Some (Num y)
    /\ (0 <= y)%Qc /\ (y <= Q2Qc (inject_Z 25))%Qc.
Proof.
  intros [U | [z [E Z]]]; cbn [preprocessRecord EMPLOYMENT_YEARS].
  - rewrite U. exists (Q2Qc (inject_Z 0)).
    split; [num_eq|]. split; vm_compute; congruence.
  - rewrite E.
    replace (strict_eq (of_Z z) (of_Z 365243)) with false.
    2:{ symmetry. unfold of_Z. cbn [strict_eq].
        destruct (Qc_eqb _ _) eqn:Q; [|reflexivity].
        apply Qc_eqb_eq, Q2Qc_inject_Z_inj in Q. lia. }
    unfold of_Z at 2, dec. cbn [neg div].
    replace (Qc_eqb (Q2Qc (36525 # 100)) 0) with false
      by (vm_compute; reflexivity).
    unfold of_Z at 2. cbn [mul Math_round].
    match goal with
    | |- context [of_Z (Qfloor ?x)] => remember (Qfloor x) as n eqn:En
    end.
    assert (Zlo : (inject_Z (-9131) <= inject_Z z)%Q)
      by (rewrite <- Zle_Qle; lia).
    assert (Zhi : (inject_Z z <= inject_Z 0)%Q)
      by (rewrite <- Zle_Qle; lia).
    change (inject_Z (-9131)) with (-9131 # 1)%Q in Zlo.
    change (inject_Z 0) with 0%Q in Zhi.
    assert (N : (0 <= n <= 250)%Z).
    { subst n. split.
      - apply floor_ge_iff. to_Q. unfold Qdiv.
        change (/ (36525 # 100))%Q with (100 # 36525)%Q.
        change (inject_Z 10) with 10%Q. change (inject_Z 0) with 0%Q. lra.
      - apply Qlt_inject_Z_succ. eapply Qle_lt_trans; [apply Qfloor_le|].
        to_Q. unfold Qdiv.
        change (/ (36525 # 100))%Q with (100 # 36525)%Q.
        change (inject_Z 10) with 10%Q. change (inject_Z 250) with 250%Q.
        lra. }
    clear En. unfold of_Z. cbn [div].
    replace (Qc_eqb (Q2Qc (inject_Z 10)) 0) with false
      by (vm_compute; reflexivity).
    set (x := (Q2Qc (inject_Z n) / Q2Qc (inject_Z 10))%Qc).
    assert (X : (this x == inject_Z n * (1 # 10))%Q).
    { subst x. to_Q. unfold Qdiv. reflexivity. }
    assert (Nlo : (0 <= inject_Z n)%Q)
      by (change 0%Q with (inject_Z 0); rewrite <- Zle_Qle; lia).
    assert (Nhi : (inject_Z n <= 250)%Q)
      by (change 250%Q with (inject_Z 250); rewrite <- Zle_Qle; lia).
    cbn [max2 lt]. destruct (Qc_ltb (Q2Qc (inject_Z 0)) x).
    + exists x. split; [reflexivity|].
      unfold Qcle. change (this (Q2Qc 0)) with 0%Q.
      rewrite this_Q2Qc, X. change (inject_Z 25) with 25%Q. split; lra.
    + exists (Q2Qc (inject_Z 0)). split; [reflexivity|].
      split; vm_compute; congruence.
Qed.

Lemma truthy_range (y lo hi : Qc) :
  (lo <= y)%Qc -> (y <= hi)%Qc ->
  outside_range (Some (Num y)) (Num lo, Num hi) = false.
Proof.
  intros L U. cbn [outside_range fst snd]. unfold gt. cbn [lt].
  replace (Qc_ltb y lo) with false by (symmetry; apply Qc_ltb_ge; exact L).
  replace (Qc_ltb hi y) with false by (symmetry; apply Qc_ltb_ge; exact U).
  apply andb_false_r.
Qed.

(** With draws in [0, 1) every record of [generateCompleteDataset] has a
    whole age from 30 to 54 and a tenure from 0 to 25 years, so the initial
    filter state of the dashboard (ages 18 to 80, tenures 0 to 40, nothing
    else selected) keeps all of them: the first view is the whole data
    set. *)
Theorem generated_data_initial_view
    (Math_exp : number -> number) (source : nat -> Qc)
    (fuel numRecords : nat) :
  in_unit_interval source ->
  exists records k,
    generateCompleteDataset Math_exp source (S fuel) numRecords 0%nat
    = Some (records, k)
    /\ List.length records = numRecords
    /\ (forall r, In r records ->
          (exists a : Z, (30 <= a <= 54)%Z /\ AGE_YEARS r = Some (of_Z a))
          /\ (exists y, EMPLOYMENT_YEARS r = Some (Num y)
                        /\ (0 <= y)%Qc /\ (y <= Q2Qc (inject_Z 25))%Qc))
    /\ applyFilters records default_filters = records.
Proof.
  intro R.
  destruct (generateLoop_returns Math_exp source R fuel numRecords
              0%nat [] 0%nat) as [raw [k [E L]]].
  assert (WF : forall i r, nth_error raw i = Some r -> well_formed_raw i r).
  { apply (generateLoop_well_formed Math_exp source R (S fuel) numRecords
             0%nat [] 0%nat raw k); [reflexivity | | exact E].
    intros j r H. destruct j; discriminate H. }
  exists (addIncomeBrackets (preprocessData raw)), k.
  split.
  { unfold generateCompleteDataset, generateSyntheticData, bind.
    rewrite E. reflexivity. }
  split; [rewrite addIncomeBrackets_length; exact L|].
  assert (Fields : forall r,
             In r (addIncomeBrackets (preprocessData raw)) ->
             (exists a : Z, (30 <= a <= 54)%Z /\ AGE_YEARS r = Some (of_Z a))
             /\ (exists y, EMPLOYMENT_YEARS r = Some (Num y)
                           /\ (0 <= y)%Qc /\ (y <= Q2Qc (inject_Z 25))%Qc)).
  { intros r Hr. unfold addIncomeBrackets, preprocessData in Hr.
    cbv zeta in Hr. rewrite map_map in Hr. apply in_map_iff in Hr.
    destruct Hr as [r0 [<- Hr0]].
    apply In_nth_error in Hr0. destruct Hr0 as [i Hi].
    pose proof (WF i r0 Hi) as W.
    cbn [with_INCOME_BRACKET AGE_YEARS EMPLOYMENT_YEARS]. split.
    - destruct (wf_birth i r0 W) as [a [A B]]. exists a.
      split; [exact A|].
      change (AGE_YEARS (preprocessRecord r0) = Some (of_Z a)).
      cbn [preprocessRecord AGE_YEARS]. rewrite B. f_equal.
      apply days_to_years.
    - exact (employment_years_range r0 (wf_employed i r0 W)). }
  split; [exact Fields|].
  unfold applyFilters.
  assert (All : forall r, In r (addIncomeBrackets (preprocessData raw)) ->
                          keepRecord default_filters r = true).
  { intros r Hr. destruct (Fields r Hr) as [[a [A Ea]] [y [Ey [Y0 Y25]]]].
    rewrite keepRecord_spec.
    cbn [default_filters f_gender f_education f_familyStatus f_housingType
         f_ageRange f_incomeBracket f_employmentRange List.length
         Nat.ltb Nat.leb andb negb].
    rewrite Ea, Ey. unfold of_Z.
    rewrite (truthy_range (Q2Qc (inject_Z a))
               (Q2Qc (inject_Z 18)) (Q2Qc (inject_Z 80))).
    - rewrite (truthy_range y (Q2Qc (inject_Z 0)) (Q2Qc (inject_Z 40)));
        [reflexivity | exact Y0 |].
      eapply Qcle_trans; [exact Y25|]. vm_compute. congruence.
    - unfold Qcle. rewrite !this_Q2Qc, <- Zle_Qle. lia.
    - unfold Qcle. rewrite !this_Q2Qc, <- Zle_Qle. lia. }
  revert All. generalize (addIncomeBrackets (preprocessData raw)).
  intros l All. induction l as [|x l IH]; [reflexivity|].
  cbn [filter]. rewrite (All x (or_introl eq_refl)). f_equal.
  apply IH. intros r Hr. apply All. right. exact Hr.
Qed.

Lemma generated_data_initial_view_witness :
  exists records k,
    generateCompleteDataset exp_polynomial sample_source 1%nat 3%nat 0%nat
    = Some (records, k)
    /\ List.length records = 3%nat
    /\ (forall r, In r records ->
          (exists a : Z, (30 <= a <= 54)%Z /\ AGE_YEARS r = Some (of_Z a))
          /\ (exists y, EMPLOYMENT_YEARS r = Some (Num y)
                        /\ (0 <= y)%Qc /\ (y <= Q2Qc (inject_Z 25))%Qc))
    /\ applyFilters records default_filters = records.
Proof.
  apply (generated_data_initial_view
           exp_polynomial sample_source 0%nat 3%nat).
  exact sample_source_range.
Defined.

(** ** The median does not depend on the order of the values *)

Lemma le_antisym (a b : Qc) :
  (Num a <=? Num b) = true -> (Num b <=? Num a) = true -> a = b.
Proof.
  cbn [le]. intros H1 H2. apply Qc_leb_le in H1, H2.
  apply Qcle_antisym; assumption.
Qed.

(** Two ascending lists of finite numbers with the same elements are the
    same list. *)
Lemma sorted_perm_unique (l1 : list number) :
  forall l2,
    all_finite l1 ->
    StronglySorted ascending_order l1 -> StronglySorted ascending_order l2 ->
    Permutation l1 l2 -> l1 = l2.
Proof.
  induction l1 as [|a l1 IH]; intros l2 F S1 S2 P.
  - apply Permutation_nil in P. symmetry. exact P.
  - destruct l2 as [|b l2].
    { apply Permutation_sym, Permutation_nil in P. discriminate P. }
    assert (F2 : all_finite (b :: l2)) by (apply (all_finite_perm _ _ P F)).
    inversion F as [|? ? Fa F1]; subst.
    inversion F2 as [|? ? Fb _]; subst.
    inversion S1 as [|? ? S1' H1]; subst.
    inversion S2 as [|? ? S2' H2]; subst.
    destruct a as [x| | |]; try discriminate.
    destruct b as [y| | |]; try discriminate.
    assert (XY : x = y).
    { assert (A : In (Num x) (Num y :: l2))
        by (apply (Permutation_in _ P); left; reflexivity).
      assert (B : In (Num y) (Num x :: l1))
        by (apply (Permutation_in _ (Permutation_sym P)); left;
            reflexivity).
      destruct A as [A | A]; [apply Num_inj in A; congruence|].
      destruct B as [B | B]; [apply Num_inj in B; congruence|].
      apply le_antisym.
      - exact (proj1 (Forall_forall _ _) H1 _ B).
      - exact (proj1 (Forall_forall _ _) H2 _ A). }
    subst y. f_equal.
    apply IH; [exact F1 | exact S1' | exact S2' |].
    exact (Permutation_cons_inv P).
Qed.

(** [median] returns the same value for the same finite values in any
    order (it sorts a copy). *)
Theorem median_order_independent (values values' : list number) :
  all_finite values -> Permutation values values' ->
  median values = median values'.
Proof.
  intros F P. destruct values as [|v values].
  { apply Permutation_nil in P. subst values'. reflexivity. }
  assert (NE' : values' <> []).
  { intro E. subst values'. apply Permutation_sym, Permutation_nil in P.
    discriminate P. }
  rewrite !median_sorted_copy by (exact NE' || discriminate).
  do 2 f_equal.
  assert (F' : all_finite values') by (apply (all_finite_perm _ _ P F)).
  apply sorted_perm_unique.
  - apply (all_finite_perm (v :: values)); [|exact F].
    symmetry. apply Array_sort_perm.
  - apply Array_sort_sorted. exact F.
  - apply Array_sort_sorted. exact F'.
  - etransitivity; [apply Array_sort_perm|].
    etransitivity; [exact P|]. symmetry. apply Array_sort_perm.
Qed.

Lemma median_order_independent_witness :
  median [of_Z 3; of_Z 1; of_Z 4; of_Z 2]
  = median [of_Z 1; of_Z 2; of_Z 3; of_Z 4].
Proof.
  apply (median_order_independent
           [of_Z 3; of_Z 1; of_Z 4; of_Z 2]
           [of_Z 1; of_Z 2; of_Z 3; of_Z 4]).
  - repeat constructor.
  - apply (perm_trans (l' := [of_Z 1; of_Z 3; of_Z 4; of_Z 2])).
    + apply perm_swap.
    + apply perm_skip.
      apply (perm_trans (l' := [of_Z 3; of_Z 2; of_Z 4])).
      * apply perm_skip. apply perm_swap.
      * apply perm_swap.
Defined.

(** ** The Low bracket holds more than a quarter of the records *)

(** The labels [addIncomeBrackets] writes, against the ascending incomes. *)
Lemma addIncomeBrackets_labels (records : list HomeCreditRecord) :
  addIncomeBrackets records
  = map (fun record =>
           with_INCOME_BRACKET record
             (quartile_label
                (Array_sort ascending (map AMT_INCOME_TOTAL records))
                (AMT_INCOME_TOTAL record)))
        records.
Proof.
  unfold addIncomeBrackets.
  destruct (quartile_indices
              (List.length
                 (Array_sort ascending (map AMT_INCOME_TOTAL records))))
    as [-> ->].
  rewrite !at_index_of_nat.
  apply map_ext. intro r. f_equal.
  unfold bracket_of, quartile_label.
  rewrite !to_number_nth_error. reflexivity.
Qed.

(** In an ascending list of finite numbers the elements up to position [k]
    are at most the element at position [k]. *)
Lemma sorted_prefix_le (l : list number) :
  all_finite l -> StronglySorted ascending_order l ->
  forall k, (k < List.length l)%nat ->
    (k + 1
     <= List.length (filter (fun x => (x <=? nth k l NaN)%js) l))%nat.
Proof.
  intros F S. induction S as [|x l S IH H]; intros k K;
    cbn [List.length] in K; [lia|].
  inversion F as [|? ? Fx F']; subst.
  destruct k as [|k]; cbn [nth filter].
  - destruct x as [a| | |]; try discriminate.
    replace (Num a <=? Num a) with true
      by (symmetry; apply Qc_leb_le, Qcle_refl).
    cbn [List.length]. lia.
  - assert (Hq : In (nth k l NaN) l) by (apply nth_In; lia).
    replace (x <=? nth k l NaN) with true
      by (symmetry; exact (proj1 (Forall_forall _ _) H _ Hq)).
    cbn [List.length]. specialize (IH F' k ltac:(lia)). lia.
Qed.

Lemma filter_length_perm {A} (f : A -> bool) (l l' : list A) :
  Permutation l l' ->
  List.length (filter f l) = List.length (filter f l').
Proof.
  induction 1 as [|x l l' _ IH|x y l|l l' l'' _ IH1 _ IH2];
    cbn [filter]; [reflexivity | | |congruence].
  - destruct (f x); cbn [List.length]; congruence.
  - destruct (f x), (f y); reflexivity.
Qed.

Lemma has_bracket_Low (sorted : list number) (r : HomeCreditRecord) :
  has_bracket Low
    (with_INCOME_BRACKET r (quartile_label sorted (AMT_INCOME_TOTAL r)))
  = (AMT_INCOME_TOTAL r
     <=? nth (List.length sorted / 4) sorted NaN).
Proof.
  unfold has_bracket, quartile_label.
  cbn [with_INCOME_BRACKET INCOME_BRACKET].
  destruct (AMT_INCOME_TOTAL r <=? nth (List.length sorted / 4) sorted NaN);
    [reflexivity|].
  destruct (AMT_INCOME_TOTAL r
            >=? nth (3 * List.length sorted / 4) sorted NaN); reflexivity.
Qed.

Lemma low_count (sorted : list number) (records : list HomeCreditRecord) :
  List.length
    (filter (has_bracket Low)
       (map (fun record =>
               with_INCOME_BRACKET record
                 (quartile_label sorted (AMT_INCOME_TOTAL record)))
            records))
  = List.length
      (filter (fun x => x <=? nth (List.length sorted / 4) sorted NaN)
              (map AMT_INCOME_TOTAL records)).
Proof.
  induction records as [|r records IH]; [reflexivity|].
  cbn [map filter]. rewrite has_bracket_Low.
  destruct (AMT_INCOME_TOTAL r <=? nth (List.length sorted / 4) sorted NaN);
    cbn [List.length]; rewrite IH; reflexivity.
Qed.

(** For finite incomes [addIncomeBrackets] labels more than a quarter of
    the records Low: at least floor(n / 4) + 1 of n records, since Q1 is an
    income of the collection and every income up to it counts.  When all
    incomes are the same every record is Low, and none is Mid or High. *)
Theorem low_bracket_size (records : list HomeCreditRecord) :
  all_finite (map AMT_INCOME_TOTAL records) -> records <> [] ->
  (List.length records / 4 + 1
   <= List.length (filter (has_bracket Low) (addIncomeBrackets records)))%nat
  /\ ((exists q, forall r, In r records -> AMT_INCOME_TOTAL r = Num q) ->
      forall r, In r (addIncomeBrackets records) ->
                INCOME_BRACKET r = Some Low).
Proof.
  intros F NE. rewrite addIncomeBrackets_labels.
  set (sorted := Array_sort ascending (map AMT_INCOME_TOTAL records)).
  assert (P : Permutation sorted (map AMT_INCOME_TOTAL records))
    by apply Array_sort_perm.
  assert (Fs : all_finite sorted)
    by (apply (all_finite_perm _ _ (Permutation_sym P) F)).
  assert (Ss : StronglySorted ascending_order sorted)
    by (apply Array_sort_sorted; exact F).
  assert (L : List.length sorted = List.length records).
  { rewrite (Permutation_length P). apply length_map. }
  assert (N : (1 <= List.length records)%nat)
    by (destruct records; [congruence | cbn [List.length]; lia]).
  assert (K : (List.length sorted / 4 < List.length sorted)%nat)
    by (apply Nat.div_lt; lia).
  split.
  - rewrite (low_count sorted records), <- (filter_length_perm _ _ _ P), <- L.
    apply sorted_prefix_le; assumption.
  - intros [q Same] r Hr. apply in_map_iff in Hr.
    destruct Hr as [r0 [<- Hr0]].
    cbn [with_INCOME_BRACKET INCOME_BRACKET]. f_equal.
    unfold quartile_label.
    assert (Q1 : nth (List.length sorted / 4) sorted NaN = Num q).
    { assert (Hin : In (nth (List.length sorted / 4) sorted NaN) sorted)
        by (apply nth_In; exact K).
      apply (Permutation_in _ P) in Hin. apply in_map_iff in Hin.
      destruct Hin as [r1 [<- Hr1]]. apply Same. exact Hr1. }
    rewrite Q1, (Same r0 Hr0).
    replace (Num q <=? Num q) with true
      by (symmetry; apply Qc_leb_le, Qcle_refl).
    reflexivity.
Qed.

Lemma low_bracket_size_witness :
  (List.length raw_samples / 4 + 1
   <= List.length
        (filter (has_bracket Low) (addIncomeBrackets raw_samples)))%nat
  /\ ((exists q, forall r, In r raw_samples -> AMT_INCOME_TOTAL r = Num q) ->
      forall r, In r (addIncomeBrackets raw_samples) ->
                INCOME_BRACKET r = Some Low).
Proof.
  apply (low_bracket_size raw_samples).
  - repeat constructor.
  - discriminate.
Defined.

(** ** What the dashboard shows for records without derived fields *)

Lemma filter_nothing {A} (f : A -> bool) (l : list A) :
  (forall x, In x l -> f x = false) -> filter f l = [].
Proof.
  intro H. induction l as [|x l IH]; [reflexivity|].
  cbn [filter]. rewrite (H x (or_introl eq_refl)).
  apply IH. intros y Hy. apply H. right. exact Hy.
Qed.

Section RawRecords.

Variable fmt : number -> string.
Variable Math_sqrt : number -> number.
Variable Number_of_string : string -> number.

(** The uploader hands over records without derived fields, and the
    dashboard filters and summarises them as they are.  For such records,
    if there is at least one, the summary reads 0 for the median age and
    for the average DTI and loan-to-income ratio, counts 19 features of
    which it calls 13 categorical, the age histogram has 15 bins and counts
    nothing, and every correlation with the age is 0. *)
Theorem raw_records_derived_views (data : list HomeCreditRecord) :
  data <> [] -> (forall r, In r data -> no_derived_field r) ->
  let kpis := calculateKPIs data in
  get kpis "medianAge" = Some (of_Z 0)
  /\ get kpis "avgDTI" = Some (of_Z 0)
  /\ get kpis "avgLTI" = Some (of_Z 0)
  /\ get kpis "totalFeatures" = Some (of_Z 19)
  /\ get kpis "categoricalFeatures" = Some (of_Z 13)
  /\ (exists bins,
        prepareChartData fmt data "age_distribution" = Ok (Histogram bins)
        /\ List.length bins = 15%nat /\ count_total bins = 0%nat)
  /\ forall field,
       calculatePearsonCorrelation Math_sqrt Number_of_string
         data "AGE_YEARS" field = of_Z 0.
Proof.
  intros NE Raw. cbv zeta.
  assert (Ages : filter (fun r => present_truthy (AGE_YEARS r)) data = []).
  { apply filter_nothing. intros r Hr.
    destruct (Raw r Hr) as [-> _]. reflexivity. }
  assert (Dtis : filter (fun r => present_truthy (DTI r)
                                  && (to_number (DTI r) >? of_Z 0)) data
                 = []).
  { apply filter_nothing. intros r Hr.
    destruct (Raw r Hr) as [_ [_ [-> _]]]. reflexivity. }
  assert (Ltis : filter (fun r => present_truthy (LOAN_TO_INCOME r)
                                  && (to_number (LOAN_TO_INCOME r)
                                      >? of_Z 0)) data
                 = []).
  { apply filter_nothing. intros r Hr.
    destruct (Raw r Hr) as [_ [_ [_ [-> _]]]]. reflexivity. }
  assert (G1 : get (calculateKPIs data) "medianAge"
               = Some (fixed_or_0
                         (median
                            (map (fun r => to_number (AGE_YEARS r))
                               (filter (fun r => present_truthy (AGE_YEARS r))
                                  data))) 1))
    by (destruct data; [congruence | reflexivity]).
  assert (G2 : get (calculateKPIs data) "avgDTI"
               = Some (fixed_or_0
                         (mean
                            (map (fun r => to_number (DTI r))
                               (filter (fun r => present_truthy (DTI r)
                                          && (to_number (DTI r) >? of_Z 0))
                                  data))) 3))
    by (destruct data; [congruence | reflexivity]).
  assert (G3 : get (calculateKPIs data) "avgLTI"
               = Some (fixed_or_0
                         (mean
                            (map (fun r => to_number (LOAN_TO_INCOME r))
                               (filter
                                  (fun r => present_truthy (LOAN_TO_INCOME r)
                                            && (to_number (LOAN_TO_INCOME r)
                                                >? of_Z 0))
                                  data))) 2))
    by (destruct data; [congruence | reflexivity]).
  rewrite G1, G2, G3, Ages, Dtis, Ltis.
  split; [reflexivity|]. split; [reflexivity|]. split; [reflexivity|].
  assert (Keys : forall r, In r data -> count_keys r = 19%nat).
  { intros r Hr. destruct (Raw r Hr) as [A [E [D [L [C B]]]]].
    unfold count_keys. rewrite A, E, D, L, C, B. reflexivity. }
  split; [|split; [|split]].
  - destruct data as [|r data]; [congruence|].
    change (get (calculateKPIs (r :: data)) "totalFeatures")
      with (Some (of_nat (count_keys r))).
    rewrite (Keys r (or_introl eq_refl)). reflexivity.
  - destruct data as [|r data]; [congruence|].
    change (get (calculateKPIs (r :: data)) "categoricalFeatures")
      with (Some (of_nat (count_keys r) - of_nat 6)).
    rewrite (Keys r (or_introl eq_refl)). num_eq.
  - change (prepareChartData fmt data "age_distribution")
      with (match createBins fmt
                    (map (fun r => to_number (AGE_YEARS r))
                       (filter (fun r => present_truthy (AGE_YEARS r)) data))
                    15
            with
            | Ok ageBins => Ok (Histogram ageBins)
            | TypeError => TypeError
            end).
    rewrite Ages. eexists. split; [reflexivity|].
    split; [reflexivity | apply count_total_fresh].
  - intro field. unfold calculatePearsonCorrelation, valid_pairs.
    rewrite (filter_nothing _ data); [reflexivity|].
    intros r Hr. destruct (Raw r Hr) as [A _].
    change (field_value r "AGE_YEARS") with (optional_number (AGE_YEARS r)).
    rewrite A. reflexivity.
Qed.

End RawRecords.

Lemma raw_records_derived_views_witness :
  get (calculateKPIs raw_samples) "medianAge" = Some (of_Z 0)
  /\ get (calculateKPIs raw_samples) "avgDTI" = Some (of_Z 0)
  /\ get (calculateKPIs raw_samples) "avgLTI" = Some (of_Z 0)
  /\ get (calculateKPIs raw_samples) "totalFeatures" = Some (of_Z 19)
  /\ get (calculateKPIs raw_samples) "categoricalFeatures" = Some (of_Z 13)
  /\ (exists bins,
        prepareChartData integer_to_string raw_samples "age_distribution"
        = Ok (Histogram bins)
        /\ List.length bins = 15%nat /\ count_total bins = 0%nat)
  /\ forall field,
       calculatePearsonCorrelation rational_sqrt (fun _ => NaN)
         raw_samples "AGE_YEARS" field = of_Z 0.
Proof.
  apply (raw_records_derived_views integer_to_string rational_sqrt
           (fun _ => NaN) raw_samples).
  - discriminate.
  - intros r Hr.
    repeat (destruct Hr as [<- | Hr]; [repeat split|]). destruct Hr.
Defined.

(** ** Averages over the defaulters *)

Lemma fold_left_add_map {A} (f : A -> number) (l : list A) (a : number) :
  fold_left (fun sum r => sum + f r) l a = fold_left add (map f l) a.
Proof.
  revert a. induction l as [|x l IH]; intro a; [reflexivity|].
  cbn [map fold_left]. apply IH.
Qed.

Lemma average_is_mean {A} (f : A -> number) (l : list A) :
  l <> [] ->
  Some (fold_left (fun sum r => sum + f r) l (of_Z 0)
        / of_nat (List.length l))
  = mean (map f l).
Proof.
  intro NE. unfold mean, sum. rewrite length_map, fold_left_add_map.
  destruct l; [congruence | reflexivity].
Qed.

(** The risk segmentation page divides the sums over the defaulters by
    their number without a guard: when the data it is given holds no
    defaulter its three averages are NaN, where the summary of
    [calculateKPIs] (for data that is not empty) reads 0 for the average
    income of defaulters.  With at least one defaulter the averages of
    credit and annuity are the values [mean] returns. *)
Theorem defaulter_averages (data : list HomeCreditRecord) :
  (defaulters data = [] ->
   avgCreditDefaulters data = NaN
   /\ avgAnnuityDefaulters data = NaN
   /\ avgEmploymentDefaulters data = NaN
   /\ (data <> [] ->
       get (calculateKPIs data) "avgIncomeDefaulters" = Some (of_Z 0)))
  /\ (defaulters data <> [] ->
      Some (avgCreditDefaulters data) = mean (map AMT_CREDIT (defaulters data))
      /\ Some (avgAnnuityDefaulters data)
         = mean (map AMT_ANNUITY (defaulters data))).
Proof.
  split.
  - intro E.
    unfold avgCreditDefaulters, avgAnnuityDefaulters, avgEmploymentDefaulters.
    rewrite E. cbn [filter fold_left List.length].
    split; [reflexivity|]. split; [reflexivity|]. split; [reflexivity|].
    intro NE.
    assert (G : get (calculateKPIs data) "avgIncomeDefaulters"
                = Some (fixed_or_0
                          (mean (map AMT_INCOME_TOTAL (defaulters data))) 0))
      by (destruct data; [congruence | reflexivity]).
    rewrite G, E. reflexivity.
  - intro NE. unfold avgCreditDefaulters, avgAnnuityDefaulters.
    split; apply average_is_mean; exact NE.
Qed.

Lemma defaulter_averages_witness :
  (avgCreditDefaulters [raw_sample 100001 90000 T0] = NaN
   /\ avgAnnuityDefaulters [raw_sample 100001 90000 T0] = NaN
   /\ avgEmploymentDefaulters [raw_sample 100001 90000 T0] = NaN
   /\ ([raw_sample 100001 90000 T0] <> [] ->
       get (calculateKPIs [raw_sample 100001 90000 T0]) "avgIncomeDefaulters"
       = Some (of_Z 0)))
  /\ Some (avgCreditDefaulters raw_samples)
     = mean (map AMT_CREDIT (defaulters raw_samples)).
Proof.
  split.
  - apply (defaulter_averages [raw_sample 100001 90000 T0]). reflexivity.
  - apply (defaulter_averages raw_samples). discriminate.
Defined.

(** ** Records per number of children *)

Lemma strict_eq_of_Z (a b : Z) : strict_eq (of_Z a) (of_Z b) = (a =? b)%Z.
Proof.
  unfold of_Z. cbn [strict_eq].
  destruct (Z.eqb_spec a b) as [-> | NE]; [apply Qc_eqb_refl|].
  destruct (Qc_eqb _ _) eqn:E; [|reflexivity].
  apply Qc_eqb_eq, Q2Qc_inject_Z_inj in E. contradiction.
Qed.

Lemma le_of_Z (a b : Z) : (of_Z a <=? of_Z b) = (a <=? b)%Z.
Proof.
  unfold of_Z. cbn [le].
  destruct (Z.leb_spec a b) as [L | G].
  - apply Qc_leb_le. unfold Qcle. rewrite !this_Q2Qc, <- Zle_Qle. exact L.
  - apply Qc_leb_gt. unfold Qclt. rewrite !this_Q2Qc, <- Zlt_Qlt. exact G.
Qed.

(** The chart of the number of children has the rows "0" to "4" and "5+",
    in this order; when every record has a whole, non-negative number of
    children each record is counted in exactly one row, so the counts add
    up to the number of records. *)
Theorem childrenDistribution_total (data : list HomeCreditRecord) :
  (forall r, In r data ->
             exists z : Z, CNT_CHILDREN r = of_Z z /\ (0 <= z)%Z) ->
  map fst (childrenDistribution data) = ["0"; "1"; "2"; "3"; "4"; "5+"]
  /\ sum_nat (map snd (childrenDistribution data)) = List.length data.
Proof.
  intro Whole. split; [reflexivity|].
  unfold childrenDistribution. cbn [map snd Z.eqb Pos.eqb].
  unfold sum_nat. cbn [fold_right].
  induction data as [|r data IH]; [reflexivity|].
  destruct (Whole r (or_introl eq_refl)) as [z [E Z]].
  specialize (IH (fun x Hx => Whole x (or_intror Hx))).
  cbn [filter]. rewrite E. unfold ge in IH |- *.
  rewrite !strict_eq_of_Z, le_of_Z.
  destruct (Z.eqb_spec z 0), (Z.eqb_spec z 1), (Z.eqb_spec z 2),
    (Z.eqb_spec z 3), (Z.eqb_spec z 4), (Z.leb_spec 5 z);
    cbn [List.length]; lia.
Qed.

Lemma childrenDistribution_total_witness :
  map fst (childrenDistribution raw_samples)
  = ["0"; "1"; "2"; "3"; "4"; "5+"]
  /\ sum_nat (map snd (childrenDistribution raw_samples))
     = List.length raw_samples.
Proof.
  apply (childrenDistribution_total raw_samples).
  intros r Hr. exists 1%Z.
  repeat (destruct Hr as [<- | Hr]; [split; [reflexivity | lia]|]).
  destruct Hr.
Defined.

(** ** The amounts the generator draws *)

(** With draws in [0, 1): [randomIncome] returns [Math.exp(e) * s] for an
    exponent [e] from 9.1 to below 13.9 and a scale [s] from 0.5 to below 1,
    after four draws; [randomCredit] returns, for a positive income, a
    credit from 1.6 times to below 9.6 times the income, after two draws
    (a multiplier from 2 to below 8, times a factor from 0.8 to below
    1.2). *)
Theorem generator_amount_ranges
    (Math_exp : number -> number) (source : nat -> Qc)
    (income : Qc) (i : nat) :
  in_unit_interval source -> (0 < income)%Qc ->
  (exists e s : Qc,
      randomIncome Math_exp source i
      = Some (Math_exp (Num e) * Num s, (4 + i)%nat)
      /\ (Q2Qc (91 # 10) <= e)%Qc /\ (e < Q2Qc (139 # 10))%Qc
      /\ (Q2Qc (1 # 2) <= s)%Qc /\ (s < 1)%Qc)
  /\ (exists credit : Qc,
        randomCredit source (Num income) i = Some (Num credit, (2 + i)%nat)
        /\ (Q2Qc (16 # 10) * income <= credit)%Qc
        /\ (credit < Q2Qc (96 # 10) * income)%Qc).
Proof.
  intros R P.
  destruct (R i) as [L0 U0]. destruct (R (S i)) as [L1 U1].
  destruct (R (S (S i))) as [L2 U2]. destruct (R (S (S (S i)))) as [L3 U3].
  unfold Qcle, Qclt in *. change (this (Q2Qc 0)) with 0%Q in *.
  change (this (Q2Qc 1)) with 1%Q in *.
  split.
  - unfold randomIncome, bind, Math_random, ret. cbv zeta.
    unfold dec, of_Z, sub. cbn [neg add mul].
    eexists. eexists. split; [reflexivity|].
    assert (N : (0 <= this (source i) * this (source (S i))
                      * this (source (S (S i))))%Q
                /\ (this (source i) * this (source (S i))
                    * this (source (S (S i))) < 1)%Q).
    { assert (A : (0 <= this (source i) * this (source (S i)))%Q) by nra.
      assert (B : (this (source i) * this (source (S i)) < 1)%Q) by nra.
      split; nra. }
    destruct N as [N0 N1].
    set (n := (this (source i) * this (source (S i))
               * this (source (S (S i))))%Q) in *.
    repeat split; to_Q; fold n; unfold inject_Z; lra.
  - unfold randomCredit, bind, Math_random, ret. cbv zeta.
    unfold dec, of_Z. cbn [add mul].
    eexists. split; [reflexivity|].
    set (m := (2 + this (source i) * 6)%Q).
    set (f := ((8 # 10) + this (source (S i)) * (4 # 10))%Q).
    assert (M : (2 <= m)%Q /\ (m < 8)%Q) by (subst m; split; lra).
    assert (F : ((8 # 10) <= f)%Q /\ (f < (12 # 10))%Q)
      by (subst f; split; lra).
    assert (MF : ((16 # 10) <= m * f)%Q /\ (m * f < (96 # 10))%Q)
      by (split; nra).
    destruct MF as [MF0 MF1].
    split; to_Q; unfold inject_Z; fold m; fold f.
    + setoid_replace (this income * m * f)%Q
        with (this income * (m * f))%Q by ring. nra.
    + setoid_replace (this income * m * f)%Q
        with (this income * (m * f))%Q by ring. nra.
Qed.

Lemma generator_amount_ranges_witness :
  (exists e s : Qc,
      randomIncome exp_polynomial sample_source 0%nat
      = Some (exp_polynomial (Num e) * Num s, 4%nat)
      /\ (Q2Qc (91 # 10) <= e)%Qc /\ (e < Q2Qc (139 # 10))%Qc
      /\ (Q2Qc (1 # 2) <= s)%Qc /\ (s < 1)%Qc)
  /\ (exists credit : Qc,
        randomCredit sample_source (Num (Q2Qc (inject_Z 100000))) 0%nat
        = Some (Num credit, 2%nat)
        /\ (Q2Qc (16 # 10) * Q2Qc (inject_Z 100000) <= credit)%Qc
        /\ (credit < Q2Qc (96 # 10) * Q2Qc (inject_Z 100000))%Qc).
Proof.
  apply (generator_amount_ranges exp_polynomial sample_source
           (Q2Qc (inject_Z 100000)) 0%nat).
  - exact sample_source_range.
  - vm_compute. reflexivity.
Defined.
